(** * ckeditor5-ui [template.js]: values, bindings, rendering and extension

    A shallow embedding of [packages/ckeditor5-ui/src/template.js].
    JavaScript values are an inductive type, the DOM and the emitter
    registry are an explicit world passed through every operation, thrown
    errors are the left branch of a result type. *)

From Stdlib Require Import ZArith String Ascii List Bool Lia DecimalString.
Import ListNotations.
Open Scope string_scope.
Open Scope list_scope.

Set Warnings "-register-all".

(** ** JavaScript values *)

(** Numbers are the integers and [NaN]; the decimal conversion below is the
    one JavaScript uses for an integer of magnitude below 10^21. *)
Inductive number :=
| NaN
| Int (z : Z).

(** [VObj] is a plain object (a style map, a namespaced wrapper, ...) seen
    as an opaque reference. *)
Inductive value :=
| VUndefined
| VNull
| VBool (b : bool)
| VNum (n : number)
| VStr (s : string)
| VObj (id : nat).

(** The truth value used by [!v], [a && b], [a || b] and [c ? x : y]. *)
Definition ToBoolean (v : value) : bool :=
  match v with
  | VUndefined | VNull => false
  | VBool b => b
  | VNum NaN => false
  | VNum (Int z) => negb (z =? 0)%Z
  | VStr s => negb (s =? "")
  | VObj _ => true
  end.

(** The string a template literal [`${v}`] inserts. *)
Definition ToString (v : value) : string :=
  match v with
  | VUndefined => "undefined"
  | VNull => "null"
  | VBool true => "true"
  | VBool false => "false"
  | VNum NaN => "NaN"
  | VNum (Int z) => NilZero.string_of_int (Z.to_int z)
  | VStr s => s
  | VObj _ => "[object Object]"
  end.

(** [a || b] *)
Definition js_or (a b : value) : value :=
  if ToBoolean a then a else b.

(** [v !== 0] *)
Definition strict_not_zero (v : value) : bool :=
  match v with
  | VNum (Int 0) => false
  | _ => true
  end.

(** [function isFalsy( value ) { return !value && value !== 0; }] *)
Definition isFalsy (v : value) : bool :=
  negb (ToBoolean v) && strict_not_zero v.

(** [arrayValueReducer( prev, cur )] *)
Definition arrayValueReducer (prev cur : value) : value :=
  if isFalsy cur then prev
  else if isFalsy prev then cur
  else VStr (ToString prev ++ " " ++ ToString cur)%string.

(** [array.reduce( f, init )] *)
Definition reduce {A B : Type} (f : B -> A -> B) (init : B) (l : list A) : B :=
  fold_left f l init.

(** The entries [arrayValueReducer] does not skip. *)
Definition notFalsy (v : value) : bool := negb (isFalsy v).

(** What the reduction with [arrayValueReducer] from ['']
    amounts to, written without a fold: nothing left gives the empty
    string, one entry left is returned as it is, several are converted to
    strings and joined with single spaces. *)
Definition joined (l : list value) : value :=
  match filter notFalsy l with
  | [] => VStr ""
  | [v] => v
  | vs => VStr (String.concat " " (map ToString vs))
  end.

(** ** Thrown errors *)

(** [InvalidDefinition] is [ui-template-wrong-syntax], [MissingTarget] is
    [ui-template-wrong-node], [ChildCountMismatch] is
    [ui-template-extend-children-mismatch]; [TypeError] is the host's own
    error for a property read on [undefined] or a call of a non-function,
    [DOMException] the one of [createElementNS] and [setAttributeNS] for a
    name they do not take. *)
Inductive error :=
| InvalidDefinition
| MissingTarget
| ChildCountMismatch
| TypeError
| DOMException.

Inductive result (A : Type) :=
| Ok (a : A)
| Throw (e : error).
Arguments Ok {A} a.
Arguments Throw {A} e.

Definition andThen {A B : Type} (r : result A) (k : A -> result B) : result B :=
  match r with
  | Ok a => k a
  | Throw e => Throw e
  end.

Notation "x <- r ;; k" := (andThen r (fun x => k))
  (at level 61, r at next level, right associativity).

(** A loop whose body may throw: the first throw ends it. *)
Fixpoint foldM {A S : Type} (f : S -> A -> result S) (l : list A) (s : S) : result S :=
  match l with
  | [] => Ok s
  | a :: l' => s' <- f s a ;; foldM f l' s'
  end.

(** ** The DOM *)

Definition Observable := nat.
Definition Emitter := nat.
Definition Node := nat.

Inductive NodeKind :=
| ElementNode (ns tag : value)
| TextNode
| FragmentNode.

(** A node keeps the values written to it as they were written. *)
Record DomNode := {
  kind : NodeKind;
  attrs : list (value * string * value);
  style : list (string * value);
  textContent : value;
  childNodes : list Node
}.

(** Nodes are named by their position in the document's node table. *)
Definition Dom := list DomNode.

(** What the host decides and the template never checks: the namespace
    and name [createElementNS] takes for an element, those
    [setAttributeNS] takes for an attribute, and the elements that have a
    [style] object (those of HTML and SVG have, an element of an unknown
    namespace has not). *)
Record Host := {
  acceptsElement : value -> value -> bool;
  acceptsAttribute : value -> string -> bool;
  exposesStyle : value -> value -> bool
}.

Definition value_eqb (a b : value) : bool :=
  match a, b with
  | VUndefined, VUndefined | VNull, VNull => true
  | VBool x, VBool y => Bool.eqb x y
  | VNum NaN, VNum NaN => true
  | VNum (Int x), VNum (Int y) => (x =? y)%Z
  | VStr x, VStr y => (x =? y)
  | VObj x, VObj y => (x =? y)%nat
  | _, _ => false
  end.

Fixpoint update_node (n : Node) (f : DomNode -> DomNode) (d : Dom) : Dom :=
  match d, n with
  | [], _ => []
  | x :: d', O => f x :: d'
  | x :: d', S n' => x :: update_node n' f d'
  end.

Definition new_node (k : NodeKind) : DomNode :=
  {| kind := k; attrs := []; style := []; textContent := VStr ""; childNodes := [] |}.

(** [document.createTextNode( '' )] and [document.createDocumentFragment()]
    with [TextNode] and [FragmentNode]; an element is created by
    [createElementNS] below. *)
Definition create_node (k : NodeKind) (d : Dom) : Node * Dom :=
  (List.length d, d ++ [new_node k]).

(** The kind of the node a reference names; a reference that names no node
    of the document is no node. *)
Definition kindOf (n : Node) (d : Dom) : option NodeKind :=
  option_map kind (nth_error d n).

Definition same_attr (ns : value) (name : string) (a : value * string * value) : bool :=
  value_eqb (fst (fst a)) ns && (snd (fst a) =? name).

(** The writes themselves, on the node's record. *)
Definition erase_attribute (el : Node) (ns : value) (name : string) (d : Dom) : Dom :=
  update_node el (fun x =>
    {| kind := kind x;
       attrs := filter (fun a => negb (same_attr ns name a)) (attrs x);
       style := style x; textContent := textContent x; childNodes := childNodes x |}) d.

Definition write_attribute (el : Node) (ns : value) (name : string) (v : value) (d : Dom)
    : Dom :=
  update_node el (fun x =>
    {| kind := kind x;
       attrs := filter (fun a => negb (same_attr ns name a)) (attrs x) ++ [(ns, name, v)];
       style := style x; textContent := textContent x; childNodes := childNodes x |}) d.

Definition write_style (el : Node) (styleName : string) (v : value) (d : Dom) : Dom :=
  update_node el (fun x =>
    {| kind := kind x; attrs := attrs x;
       style := filter (fun s => negb (fst s =? styleName)) (style x) ++ [(styleName, v)];
       textContent := textContent x; childNodes := childNodes x |}) d.

Definition write_text (n : Node) (v : value) (d : Dom) : Dom :=
  update_node n (fun x =>
    {| kind := kind x; attrs := attrs x; style := style x;
       textContent := v; childNodes := childNodes x |}) d.

Definition set_childNodes (n : Node) (cs : list Node) (d : Dom) : Dom :=
  update_node n (fun x =>
    {| kind := kind x; attrs := attrs x; style := style x;
       textContent := textContent x; childNodes := cs |}) d.

(** [el.removeAttributeNS( ns, name )]: only an element has the method. *)
Definition removeAttributeNS (el : Node) (ns : value) (name : string) (d : Dom)
    : result Dom :=
  match kindOf el d with
  | Some (ElementNode _ _) => Ok (erase_attribute el ns name d)
  | _ => Throw TypeError
  end.

(** [el.setAttributeNS( ns, name, v )]: only an element has the method,
    and the host checks the name. *)
Definition setAttributeNS (h : Host) (el : Node) (ns : value) (name : string) (v : value)
    (d : Dom) : result Dom :=
  match kindOf el d with
  | Some (ElementNode _ _) =>
      if acceptsAttribute h ns name then Ok (write_attribute el ns name v d)
      else Throw DOMException
  | _ => Throw TypeError
  end.

(** [el.style[ styleName ] = v]: where [el.style] is [undefined] the
    assignment is a [TypeError]. *)
Definition set_style (h : Host) (el : Node) (styleName : string) (v : value) (d : Dom)
    : result Dom :=
  match kindOf el d with
  | Some (ElementNode ns tag) =>
      if exposesStyle h ns tag then Ok (write_style el styleName v d)
      else Throw TypeError
  | _ => Throw TypeError
  end.

(** The string [node.textContent = v] gives the node: [null] and
    [undefined] count as the empty string. *)
Definition textData (v : value) : string :=
  match v with
  | VUndefined | VNull => ""
  | _ => ToString v
  end.

(** [node.textContent = v]: a text node takes the value as its data; an
    element or a fragment loses its child nodes and gets, unless the string
    is empty, one new text node that holds it. *)
Definition set_textContent (n : Node) (v : value) (d : Dom) : result Dom :=
  match kindOf n d with
  | Some TextNode => Ok (write_text n v d)
  | Some _ =>
      if textData v =? "" then Ok (set_childNodes n [] d)
      else
        let (t, d') := create_node TextNode d in
        Ok (set_childNodes n [t] (write_text t v d'))
  | None => Throw TypeError
  end.

Definition childNodesOf (n : Node) (d : Dom) : list Node :=
  match nth_error d n with
  | Some x => childNodes x
  | None => []
  end.

Definition is_fragment (n : Node) (d : Dom) : bool :=
  match nth_error d n with
  | Some x => match kind x with FragmentNode => true | _ => false end
  | None => false
  end.

(** The node leaves the parent it has. *)
Definition detach (child : Node) (d : Dom) : Dom :=
  map (fun x =>
         {| kind := kind x; attrs := attrs x; style := style x;
            textContent := textContent x;
            childNodes := filter (fun c => negb (c =? child)%nat) (childNodes x) |}) d.

(** [parent.appendChild( child )]: the child is moved to the end of the
    parent's child nodes; a document fragment hands over its children and
    is left empty.  The renderer appends to the element and the fragment
    it has just created, where the host's hierarchy checks pass. *)
Definition appendChild (parent child : Node) (d : Dom) : Dom :=
  if is_fragment child d
  then set_childNodes child []
         (set_childNodes parent (childNodesOf parent d ++ childNodesOf child d) d)
  else
    let d := detach child d in
    set_childNodes parent (childNodesOf parent d ++ [child]) d.

(** The object [{ set, remove }] the three [get...Updater] functions
    return. *)
Record Updater := {
  set : value -> Dom -> result Dom;
  remove : Dom -> result Dom
}.

Definition getTextUpdater (node : Node) : Updater :=
  {| set := fun value => set_textContent node value;
     remove := set_textContent node (VStr "") |}.

Definition getAttributeUpdater (h : Host) (el : Node) (attrName : string) (ns : value)
    : Updater :=
  {| set := fun value => setAttributeNS h el ns attrName value;
     remove := removeAttributeNS el ns attrName |}.

Definition getStyleUpdater (h : Host) (el : Node) (styleName : string) : Updater :=
  {| set := fun value => set_style h el styleName value;
     remove := set_style h el styleName VNull |}.

(** ** Bindings *)

(** A function value: an identity and the source text its string conversion
    gives. *)
Record JsFunction := { fn_id : nat; fn_source : string }.

Inductive NameOrFunction :=
| Name (s : string)
| Function (f : JsFunction).

(** The fields [Object.assign( this, def )] copies into every binding.
    [attribute] is only ever used as a property key and in
    ['change:' + this.attribute], so it is kept as the string both
    conversions give.  [observable] and [emitter] are references to the
    objects [Template.bind] was given.  [callback] is handed the value and
    the live node: it is a function of the value, the node and the
    document the node gives access to, and is taken to return. *)
Record TemplateBindingDef := {
  observable : Observable;
  emitter : Emitter;
  attribute : string;
  callback : option (value -> Node -> Dom -> value)
}.

Inductive TemplateBinding :=
| TemplateToBinding (def : TemplateBindingDef) (eventNameOrFunction : NameOrFunction)
| TemplateIfBinding (def : TemplateBindingDef) (valueIfTrue : value).

Definition binding_def (b : TemplateBinding) : TemplateBindingDef :=
  match b with
  | TemplateToBinding def _ => def
  | TemplateIfBinding def _ => def
  end.

Definition property_key (x : NameOrFunction) : string :=
  match x with
  | Name s => s
  | Function f => fn_source f
  end.

(** [Template.bind( observable, emitter ).to( x, callback )] *)
Definition bind_to (observable : Observable) (emitter : Emitter)
    (eventNameOrFunctionOrAttribute : NameOrFunction)
    (callback : option (value -> Node -> Dom -> value)) : TemplateBinding :=
  TemplateToBinding
    {| observable := observable; emitter := emitter;
       attribute := property_key eventNameOrFunctionOrAttribute;
       callback := callback |}
    eventNameOrFunctionOrAttribute.

(** [Template.bind( observable, emitter ).if( attribute, valueIfTrue, callback )];
    a [valueIfTrue] that is not passed is [undefined]. *)
Definition bind_if (observable : Observable) (emitter : Emitter)
    (attribute : string) (valueIfTrue : value)
    (callback : option (value -> Node -> Dom -> value)) : TemplateBinding :=
  TemplateIfBinding
    {| observable := observable; emitter := emitter;
       attribute := attribute; callback := callback |}
    valueIfTrue.

(** ** Value schemas *)

(** An entry of a normalized value schema: a literal, a binding, the
    wrapper [{ ns, value: [ ... ] }] or the style map
    [{ color: ..., width: ... }] (whose keys are style names, so neither
    [ns], [value] nor [observable]). *)
Inductive SchemaItem :=
| Literal (v : value)
| Binding (b : TemplateBinding)
| Namespaced (ns : value) (items : list SchemaItem)
| Styles (styles : list (string * SchemaItem)).

Definition ValueSchema := list SchemaItem.

(** The value an entry is when it is used as a plain JavaScript value; what
    is not a literal is an object. *)
Definition item_value (i : SchemaItem) : value :=
  match i with
  | Literal v => v
  | _ => VObj 0
  end.

(** [hasTemplateBinding( valueSchema )] on one entry; on an array it is
    [valueSchema.some( hasTemplateBinding )], which is [existsb] of this. *)
Fixpoint hasTemplateBinding (valueSchema : SchemaItem) : bool :=
  match valueSchema with
  | Literal _ => false
  | Binding _ => true
  | Namespaced _ items => existsb hasTemplateBinding items
  | Styles _ => false
  end.

(** ** The data sources and the emitter registry *)

(** A native event of the host; [matches] is the method of its target. *)
Record EventTarget := { target_node : Node; matches : string -> bool }.
Record DomEvent := { target : EventTarget }.

(** The callbacks handed to [emitter.listenTo], as data: the closure of
    [activateAttributeListener] keeps the schema, the node and the updater;
    the closure of [activateDomEventListener] keeps the selector and the
    binding's observable and [eventNameOrFunction]. *)
Inductive Listener :=
| AttributeListener (emitter : Emitter) (observable : Observable) (event : string)
    (valueSchema : ValueSchema) (node : Node) (updater : Updater)
| DomEventListener (emitter : Emitter) (el : Node) (domEvtName : string)
    (domSelector : option string) (observable : Observable)
    (eventNameOrFunction : NameOrFunction).

(** What reaches the collaborators outside the DOM: a call of a configured
    function, [observable.fire( name, domEvt )] and [collection.setParent( el )]. *)
Inductive Effect :=
| Called (f : JsFunction) (domEvt : DomEvent)
| Fired (observable : Observable) (name : string) (domEvt : DomEvent)
| SetParent (collection : nat) (el : Node).

(** The state the template works on: the host, the document, what the data
    sources hold (a data source exposes named attributes), the
    subscriptions made so far and the calls recorded so far. *)
Record World := {
  host : Host;
  dom : Dom;
  data : Observable -> string -> value;
  listeners : list Listener;
  effects : list Effect
}.

Definition with_dom (f : Dom -> Dom) (w : World) : World :=
  {| host := host w; dom := f (dom w); data := data w; listeners := listeners w;
     effects := effects w |}.

(** A write to the document that may throw. *)
Definition try_dom (f : Dom -> result Dom) (w : World) : result World :=
  d <- f (dom w) ;;
  Ok {| host := host w; dom := d; data := data w; listeners := listeners w;
        effects := effects w |}.

(** Modelled from the spec: [listenTo] of [utils/emittermixin.js], which
    is not among the sources.  The listener-owning entity subscribes a
    callback to an event of a target; the subscription is kept, after the
    earlier ones, until that entity tears it down. *)
Definition listenTo (l : Listener) (w : World) : World :=
  {| host := host w; dom := dom w; data := data w; listeners := listeners w ++ [l];
     effects := effects w |}.

(** Modelled from the spec: calls that leave the template ([fire] of the
    data source, [setParent] of a view collection, a callback of the
    caller) are recorded in the order they are made. *)
Definition perform (e : Effect) (w : World) : World :=
  {| host := host w; dom := dom w; data := data w; listeners := listeners w;
     effects := effects w ++ [e] |}.

Definition create (k : NodeKind) (w : World) : Node * World :=
  (fst (create_node k (dom w)), with_dom (fun d => snd (create_node k d)) w).

(** [document.createElementNS( ns, tag )] *)
Definition createElementNS (ns tag : value) (w : World) : result (Node * World) :=
  if acceptsElement (host w) ns tag then Ok (create (ElementNode ns tag) w)
  else Throw DOMException.

(** ** The binding protocol *)

(** [TemplateBinding.getValue( domNode )] *)
Definition TemplateBinding_getValue (def : TemplateBindingDef) (domNode : Node)
    (w : World) : value :=
  let value := data w (observable def) (attribute def) in
  match callback def with
  | Some callback => callback value domNode (dom w)
  | None => value
  end.

(** [getValue( domNode )], with the override of [TemplateIfBinding]. *)
Definition getValue (b : TemplateBinding) (domNode : Node) (w : World) : value :=
  match b with
  | TemplateToBinding def _ => TemplateBinding_getValue def domNode w
  | TemplateIfBinding def valueIfTrue =>
      let value := TemplateBinding_getValue def domNode w in
      if isFalsy value then VBool false else js_or valueIfTrue (VBool true)
  end.

(** [getValueSchemaValue( valueSchema, domNode )] *)
Definition getValueSchemaValue (valueSchema : ValueSchema) (domNode : Node)
    (w : World) : list value :=
  map (fun schemaItem =>
         match schemaItem with
         | Binding b => getValue b domNode w
         | _ => item_value schemaItem
         end) valueSchema.

(** [valueSchema.length == 1 && valueSchema[ 0 ] instanceof TemplateIfBinding] *)
Definition isSingleIfBinding (valueSchema : ValueSchema) : bool :=
  match valueSchema with
  | [Binding (TemplateIfBinding _ _)] => true
  | _ => false
  end.

(** The value [syncValueSchemaValue] hands to the updater. *)
Definition schemaValue (valueSchema : ValueSchema) (domNode : Node) (w : World) : value :=
  let value := getValueSchemaValue valueSchema domNode w in
  if isSingleIfBinding valueSchema
  then nth 0 value VUndefined
  else reduce arrayValueReducer (VStr "") value.

(** [syncValueSchemaValue( valueSchema, domNode, domUpdater )] *)
Definition syncValueSchemaValue (valueSchema : ValueSchema) (domNode : Node)
    (domUpdater : Updater) (w : World) : result World :=
  let value := schemaValue valueSchema domNode w in
  if isFalsy value
  then try_dom (remove domUpdater) w
  else try_dom (set domUpdater value) w.

(** [activateAttributeListener( valueSchema, node, updater )] *)
Definition activateAttributeListener (b : TemplateBinding) (valueSchema : ValueSchema)
    (node : Node) (updater : Updater) (w : World) : World :=
  let def := binding_def b in
  listenTo (AttributeListener (emitter def) (observable def)
              ("change:" ++ attribute def)%string valueSchema node updater) w.

(** [TemplateToBinding.activateDomEventListener( el, domEvtName, domSelector )] *)
Definition activateDomEventListener (def : TemplateBindingDef)
    (eventNameOrFunction : NameOrFunction) (el : Node) (domEvtName : string)
    (domSelector : option string) (w : World) : World :=
  listenTo (DomEventListener (emitter def) el domEvtName domSelector
              (observable def) eventNameOrFunction) w.

(** [!domSelector] *)
Definition noSelector (domSelector : option string) : bool :=
  match domSelector with
  | None => true
  | Some s => s =? ""
  end.

(** [!domSelector || domEvt.target.matches( domSelector )] *)
Definition qualifies (domSelector : option string) (domEvt : DomEvent) : bool :=
  match domSelector with
  | None => true
  | Some s => (s =? "") || matches (target domEvt) s
  end.

(** The body of the callback [activateDomEventListener] registers. *)
Definition onDomEvent (domSelector : option string) (observable : Observable)
    (eventNameOrFunction : NameOrFunction) (domEvt : DomEvent) (w : World) : World :=
  if qualifies domSelector domEvt
  then match eventNameOrFunction with
       | Function f => perform (Called f domEvt) w
       | Name name => perform (Fired observable name domEvt) w
       end
  else w.

(** Modelled from the spec: the data source's notification of
    [utils/observablemixin.js], which is not among the sources.  A change of
    an attribute runs, in the order of their registration, the callbacks
    subscribed to [change:attribute] of that observable; a callback that
    throws ends the notification. *)
Definition onAttributeChange (o : Observable) (event : string) (w : World)
    (l : Listener) : result World :=
  match l with
  | AttributeListener _ o' event' valueSchema node updater =>
      if ((o' =? o)%nat && (event' =? event))%bool
      then syncValueSchemaValue valueSchema node updater w
      else Ok w
  | DomEventListener _ _ _ _ _ _ => Ok w
  end.

Definition notifyChange (o : Observable) (attribute : string) (w : World) : result World :=
  foldM (onAttributeChange o ("change:" ++ attribute)%string) (listeners w) w.

(** Modelled from the spec: a native event that reaches [el] runs, in the
    order of their registration, the callbacks subscribed to it there. *)
Definition onNativeEvent (el : Node) (domEvtName : string) (domEvt : DomEvent)
    (l : Listener) (w : World) : World :=
  match l with
  | DomEventListener _ el' name' domSelector o eventNameOrFunction =>
      if ((el' =? el)%nat && (name' =? domEvtName))%bool
      then onDomEvent domSelector o eventNameOrFunction domEvt w
      else w
  | AttributeListener _ _ _ _ _ _ => w
  end.

Definition dispatchEvent (el : Node) (domEvtName : string) (domEvt : DomEvent)
    (w : World) : World :=
  fold_left (fun w l => onNativeEvent el domEvtName domEvt l w) (listeners w) w.

(** ** Templates *)

(** Modelled from the spec: [View] and [ViewCollection] of [view.js] and
    [viewcollection.js], which are not among the sources.  A visual
    component exposes its own node; a collection of them is iterated in
    order and has a set-parent operation. *)
Record View := { element : Node }.
Record ViewCollection := { collection_id : nat; views : list View }.

(** A template instance, which is also the shape [normalize] returns.
    [text] is [None] when the property is [undefined] (an array is truthy
    even when empty); [children] is the collection [normalize] builds, an
    ordered container read by position, and [None] on a text template,
    which gets none.  [attributes] and [eventListeners] are objects of
    arrays, their own keys in the order [for...in] visits them. *)
Inductive Template :=
| mkTemplate (tag ns : value) (text : option ValueSchema)
    (attributes : option (list (string * ValueSchema)))
    (children : option (list Child))
    (eventListeners : option (list (string * ValueSchema)))
with Child :=
| ChildTemplate (t : Template)
| ChildView (v : View)
| ChildViewCollection (c : ViewCollection).

Definition tag (t : Template) : value :=
  match t with mkTemplate tag _ _ _ _ _ => tag end.
Definition ns (t : Template) : value :=
  match t with mkTemplate _ ns _ _ _ _ => ns end.
Definition text (t : Template) : option ValueSchema :=
  match t with mkTemplate _ _ text _ _ _ => text end.
Definition attributes (t : Template) : option (list (string * ValueSchema)) :=
  match t with mkTemplate _ _ _ attributes _ _ => attributes end.
Definition children (t : Template) : option (list Child) :=
  match t with mkTemplate _ _ _ _ children _ => children end.
Definition eventListeners (t : Template) : option (list (string * ValueSchema)) :=
  match t with mkTemplate _ _ _ _ _ eventListeners => eventListeners end.

Definition xhtmlNs : string := "http://www.w3.org/1999/xhtml".

Definition hasTag (t : Template) : bool := ToBoolean (tag t).

Definition hasText (t : Template) : bool :=
  match text t with
  | Some _ => true
  | None => false
  end.

(** ** The renderer *)

(** The two filters of [_bindToObservable]: [!isFalsy( item )] and
    [item.observable]. *)
Definition itemNotFalsy (item : SchemaItem) : bool :=
  match item with
  | Literal v => notFalsy v
  | _ => true
  end.

Definition hasObservable (item : SchemaItem) : bool :=
  match item with
  | Binding _ => true
  | _ => false
  end.

(** [_bindToObservable( valueSchema, node, domUpdater )] *)
Definition _bindToObservable (valueSchema : ValueSchema) (node : Node)
    (domUpdater : Updater) (w : World) : result World :=
  let w :=
    fold_left
      (fun w templateBinding =>
         match templateBinding with
         | Binding b => activateAttributeListener b valueSchema node domUpdater w
         | _ => w
         end)
      (filter hasObservable (filter itemNotFalsy valueSchema)) w in
  syncValueSchemaValue valueSchema node domUpdater w.

(** [array.join( separator )]: [undefined] and [null] entries give the
    empty string. *)
Definition array_join (separator : string) (l : list value) : string :=
  String.concat separator
    (map (fun v => match v with VUndefined | VNull => "" | _ => ToString v end) l).

(** [_renderText( textNode = document.createTextNode( '' ) )] *)
Definition _renderText (text : ValueSchema) (textNode : option Node) (w : World)
    : result (Node * World) :=
  let '(textNode, w) :=
    match textNode with
    | Some n => (n, w)
    | None => create TextNode w
    end in
  w <- (if existsb hasTemplateBinding text
        then _bindToObservable text textNode (getTextUpdater textNode) w
        else try_dom (set_textContent textNode
                        (VStr (array_join "" (map item_value text)))) w) ;;
  Ok (textNode, w).

(** [isObject( attrValue[ 0 ] ) && attrValue[ 0 ].ns ? attrValue[ 0 ].ns : null] *)
Definition attributeNs (attrValue : ValueSchema) : value :=
  match attrValue with
  | Namespaced ns _ :: _ => if ToBoolean ns then ns else VNull
  | _ => VNull
  end.

(** [attrNs ? attrValue[ 0 ].value : attrValue] *)
Definition boundSchema (attrNs : value) (attrValue : ValueSchema) : ValueSchema :=
  match attrValue with
  | Namespaced _ items :: _ => if ToBoolean attrNs then items else attrValue
  | _ => attrValue
  end.

(** [.map( v => v ? ( v.value || v ) : v ).reduce( ( p, n ) => p.concat( n ), [] )] *)
Definition flattenValues (attrValue : ValueSchema) : ValueSchema :=
  flat_map (fun v => match v with Namespaced _ items => items | _ => [v] end) attrValue.

(** The own enumerable properties [for ( let styleName in styles )] walks:
    those of a style map, the two of a wrapper (met here only when it
    holds no binding), none of a primitive. *)
Definition styleProperties (styles : option SchemaItem) : list (string * SchemaItem) :=
  match styles with
  | Some (Styles styles) => styles
  | Some (Namespaced ns _) => [("ns", Literal ns); ("value", Literal (VObj 0))]
  | _ => []
  end.

(** The body of the loop of [_renderStyleAttribute]. *)
Definition renderStyle (el : Node) (w : World) (style : string * SchemaItem)
    : result World :=
  let (styleName, styleValue) := style in
  if hasTemplateBinding styleValue
  then _bindToObservable [styleValue] el (getStyleUpdater (host w) el styleName) w
  else try_dom (set_style (host w) el styleName (item_value styleValue)) w.

(** [_renderStyleAttribute( styles, el )] *)
Definition _renderStyleAttribute (styles : option SchemaItem) (el : Node) (w : World)
    : result World :=
  foldM (renderStyle el) (styleProperties styles) w.

(** [typeof attrValue[ 0 ] !== 'string'] *)
Definition headNotString (attrValue : ValueSchema) : bool :=
  match attrValue with
  | Literal (VStr _) :: _ => false
  | _ => true
  end.

(** The body of the loop of [_renderAttributes]. *)
Definition renderAttribute (el : Node) (w : World) (attr : string * ValueSchema)
    : result World :=
  let (attrName, attrValue) := attr in
  let attrNs := attributeNs attrValue in
  if existsb hasTemplateBinding attrValue
  then _bindToObservable (boundSchema attrNs attrValue) el
         (getAttributeUpdater (host w) el attrName attrNs) w
  else if (attrName =? "style") && headNotString attrValue
  then _renderStyleAttribute (hd_error attrValue) el w
  else
    let attrValue :=
      reduce arrayValueReducer (VStr "") (map item_value (flattenValues attrValue)) in
    if isFalsy attrValue then Ok w
    else try_dom (setAttributeNS (host w) el attrNs attrName attrValue) w.

(** [_renderAttributes( el )] *)
Definition _renderAttributes (attributes : option (list (string * ValueSchema)))
    (el : Node) (w : World) : result World :=
  match attributes with
  | None => Ok w
  | Some attributes => foldM (renderAttribute el) attributes w
  end.

Fixpoint split_on (c : Ascii.ascii) (s : string) : list string :=
  match s with
  | EmptyString => [""]
  | String a s' =>
      if Ascii.eqb a c then "" :: split_on c s'
      else match split_on c s' with
           | x :: r => String a x :: r
           | [] => [String a ""]
           end
  end.

(** [const [ domEvtName, domSelector ] = key.split( '@' )] *)
Definition splitKey (key : string) : string * option string :=
  match split_on "@"%char key with
  | [] => ("", None)
  | [domEvtName] => (domEvtName, None)
  | domEvtName :: domSelector :: _ => (domEvtName, Some domSelector)
  end.

(** [schemaItem.activateDomEventListener( el, domEvtName, domSelector )]:
    only a [TemplateToBinding] has the method. *)
Definition activateListenerItem (el : Node) (domEvtName : string)
    (domSelector : option string) (w : World) (schemaItem : SchemaItem) : result World :=
  match schemaItem with
  | Binding (TemplateToBinding def eventNameOrFunction) =>
      Ok (activateDomEventListener def eventNameOrFunction el domEvtName domSelector w)
  | _ => Throw TypeError
  end.

(** [_setUpListeners( el )] *)
Definition _setUpListeners (eventListeners : option (list (string * ValueSchema)))
    (el : Node) (w : World) : result World :=
  match eventListeners with
  | None => Ok w
  | Some eventListeners =>
      foldM (fun w (entry : string * ValueSchema) =>
               let (key, items) := entry in
               let (domEvtName, domSelector) := splitKey key in
               foldM (activateListenerItem el domEvtName domSelector) items w)
            eventListeners w
  end.

(** The [isInvalid] of [_renderNode]: [this.tag && this.text] when applying,
    [this.tag ? this.text : !this.text] when rendering. *)
Definition isInvalid (t : Template) (applyNode : option Node) : bool :=
  match applyNode with
  | Some _ => hasTag t && hasText t
  | None => if hasTag t then hasText t else negb (hasText t)
  end.

Section Rendering.

(** [child._renderNode( applyNode, intoFragment )], tied below. *)
Variable renderNode : Template -> option Node -> bool -> World -> result (Node * World).

(** The loop of [_renderElementChildren( element, container, shouldApply )],
    [el] being its [element];
    [child.render()] is [child._renderNode( undefined, true )]. *)
Fixpoint renderChildrenFrom (cs : list Child) (el container : Node)
    (shouldApply : bool) (childIndex : nat) (w : World) : result World :=
  match cs with
  | [] => Ok w
  | ChildViewCollection c :: cs' =>
      let w :=
        if shouldApply then w
        else fold_left (fun w view => with_dom (appendChild container (element view)) w)
               (views c) (perform (SetParent (collection_id c) el) w) in
      renderChildrenFrom cs' el container shouldApply childIndex w
  | ChildView v :: cs' =>
      let w :=
        if shouldApply then w
        else with_dom (appendChild container (element v)) w in
      renderChildrenFrom cs' el container shouldApply childIndex w
  | ChildTemplate child :: cs' =>
      if shouldApply
      then
        r <- renderNode child (nth_error (childNodesOf container (dom w)) childIndex)
               false w ;;
        renderChildrenFrom cs' el container shouldApply (S childIndex) (snd r)
      else
        r <- renderNode child None true w ;;
        renderChildrenFrom cs' el container shouldApply childIndex
          (with_dom (appendChild container (fst r)) (snd r))
  end.

(** [_renderElementChildren]; iterating [undefined] is a [TypeError]. *)
Definition renderElementChildren (children : option (list Child))
    (el container : Node) (shouldApply : bool) (w : World) : result World :=
  match children with
  | None => Throw TypeError
  | Some cs => renderChildrenFrom cs el container shouldApply 0 w
  end.

(** [_renderElement( applyElement, intoFragment )] *)
Definition renderElement (t : Template) (applyElement : option Node)
    (intoFragment : bool) (w : World) : result (Node * World) :=
  r <- match applyElement with
       | Some el => Ok (el, w)
       | None => createElementNS (js_or (ns t) (VStr xhtmlNs)) (tag t) w
       end ;;
  let (el, w) := r in
  w <- _renderAttributes (attributes t) el w ;;
  w <- (if intoFragment
        then
          let '(docFragment, w) := create FragmentNode w in
          w <- renderElementChildren (children t) el docFragment false w ;;
          Ok (with_dom (appendChild el docFragment) w)
        else
          renderElementChildren (children t) el el
            (match applyElement with Some _ => true | None => false end) w) ;;
  w <- _setUpListeners (eventListeners t) el w ;;
  Ok (el, w).

End Rendering.

(** [_renderNode( applyNode, intoFragment )] *)
Fixpoint _renderNode (t : Template) (applyNode : option Node) (intoFragment : bool)
    (w : World) {struct t} : result (Node * World) :=
  if isInvalid t applyNode then Throw InvalidDefinition
  else
    match text t with
    | Some text => _renderText text applyNode w
    | None => renderElement _renderNode t applyNode intoFragment w
    end.

Definition _renderElement := renderElement _renderNode.
Definition _renderElementChildren := renderElementChildren _renderNode.

(** [render()] *)
Definition render (t : Template) (w : World) : result (Node * World) :=
  _renderNode t None true w.

(** [apply( node )] *)
Definition apply (t : Template) (node : option Node) (w : World) : result (Node * World) :=
  match node with
  | None => Throw MissingTarget
  | Some _ => _renderNode t node false w
  end.

(** ** The extension merger *)

(** [obj[ a ]] on the own keys of an object, listed in the order
    [for...in] visits them. *)
Fixpoint lookup {A : Type} (a : string) (obj : list (string * A)) : option A :=
  match obj with
  | [] => None
  | (k, v) :: obj' => if k =? a then Some v else lookup a obj'
  end.

(** The properties every plain object inherits from [Object.prototype].
    Read through a key the object does not own, each is there and truthy
    (a function, or the prototype itself under [__proto__]), and none has
    a [push]. *)
Definition inheritedKey (a : string) : bool :=
  existsb (String.eqb a)
    ["constructor"; "hasOwnProperty"; "isPrototypeOf"; "propertyIsEnumerable";
     "toLocaleString"; "toString"; "valueOf"; "__proto__";
     "__defineGetter__"; "__defineSetter__"; "__lookupGetter__"; "__lookupSetter__"].

Definition digitOf (c : ascii) : option N :=
  let n := N_of_ascii c in
  if ((48 <=? n) && (n <=? 57))%N then Some (n - 48)%N else None.

Fixpoint decimal (s : string) (acc : N) : option N :=
  match s with
  | EmptyString => Some acc
  | String c s' =>
      match digitOf c with
      | Some k => decimal s' (10 * acc + k)%N
      | None => None
      end
  end.

(** A key that is an array index: the decimal form, without a leading
    zero, of an integer below [2^32 - 1].  [for...in] visits such keys
    first, in ascending order, and the other keys after them in the order
    of their creation. *)
Definition arrayIndex (a : string) : option N :=
  match a with
  | EmptyString => None
  | String c r =>
      if Ascii.eqb c "0"%char && negb (r =? "") then None
      else match decimal a 0 with
           | Some n => if (n <? 4294967295)%N then Some n else None
           | None => None
           end
  end.

(** An array index goes before the first key that is none or is a greater
    one. *)
Fixpoint insertIndex {A : Type} (i : N) (a : string) (v : A) (obj : list (string * A))
    : list (string * A) :=
  match obj with
  | [] => [(a, v)]
  | (k, x) :: obj' =>
      match arrayIndex k with
      | Some j => if (j <? i)%N then (k, x) :: insertIndex i a v obj'
                  else (a, v) :: obj
      | None => (a, v) :: obj
      end
  end.

(** [obj[ a ] = values], for a key the object does not own. *)
Definition addKey {A : Type} (a : string) (v : A) (obj : list (string * A))
    : list (string * A) :=
  match arrayIndex a with
  | Some i => insertIndex i a v obj
  | None => obj ++ [(a, v)]
  end.

(** [obj[ a ].push( ...values )] *)
Fixpoint push (a : string) (values : ValueSchema) (obj : list (string * ValueSchema))
    : list (string * ValueSchema) :=
  match obj with
  | [] => []
  | (k, v) :: obj' =>
      if k =? a then (k, v ++ values) :: obj' else (k, v) :: push a values obj'
  end.

(** The merger writes into the objects it is given, so what a call leaves
    behind is there even when it throws: every step below returns the
    object after the step together with the error thrown, if any. *)
Definition outcome (A : Type) : Type := A * option error.

(** The body of the loop of [extendObjectValueArray]: an own key holds an
    array, which is truthy; a key that is not owned reads [undefined], or
    what the object inherits under that name. *)
Definition extendEntry (obj : list (string * ValueSchema)) (entry : string * ValueSchema)
    : result (list (string * ValueSchema)) :=
  let (a, values) := entry in
  match lookup a obj with
  | Some _ => Ok (push a values obj)
  | None => if inheritedKey a then Throw TypeError else Ok (addKey a values obj)
  end.

(** [extendObjectValueArray( obj, ext )] *)
Fixpoint extendObjectValueArray (obj ext : list (string * ValueSchema))
    : outcome (list (string * ValueSchema)) :=
  match ext with
  | [] => (obj, None)
  | entry :: ext' =>
      match extendEntry obj entry with
      | Ok obj' => extendObjectValueArray obj' ext'
      | Throw e => (obj, Some e)
      end
  end.

(** [if ( !template.attributes ) { template.attributes = {}; }] *)
Definition orEmpty (obj : option (list (string * ValueSchema))) : list (string * ValueSchema) :=
  match obj with
  | Some obj => obj
  | None => []
  end.

(** The first two steps of [extendTemplate], on either property. *)
Definition extendProperty (obj ext : option (list (string * ValueSchema)))
    : outcome (option (list (string * ValueSchema))) :=
  match ext with
  | Some ext =>
      let (obj', e) := extendObjectValueArray (orEmpty obj) ext in (Some obj', e)
  | None => (obj, None)
  end.

(** [if ( def.text ) { template.text.push( ...def.text ); }]; [push] on
    [undefined] is a [TypeError]. *)
Definition extendText (text ext : option ValueSchema) : outcome (option ValueSchema) :=
  match ext with
  | Some ext =>
      match text with
      | Some text => (Some (text ++ ext), None)
      | None => (None, Some TypeError)
      end
  | None => (text, None)
  end.

(** The steps of [extendTemplate] in their order; a step that throws ends
    the call. *)
Definition andNext {A B : Type} (o : outcome A) (stopped : A -> B)
    (next : A -> outcome B) : outcome B :=
  match snd o with
  | Some e => (stopped (fst o), Some e)
  | None => next (fst o)
  end.

Section Extension.

(** [extendTemplate( template, def )], tied below. *)
Variable extend : Template -> Template -> outcome Template.

(** [extendTemplate( child, childDef )] on one pair of children.  A view
    and a view collection carry none of [attributes], [eventListeners],
    [text] and [children]: as a definition such an object extends
    nothing, as a target it takes attributes and listeners as fresh
    properties the renderer never reads and fails on text or children. *)
Definition extendChild (child childDef : Child) : outcome Child :=
  match childDef with
  | ChildTemplate def =>
      match child with
      | ChildTemplate template =>
          let (template', e) := extend template def in (ChildTemplate template', e)
      | _ =>
          match snd (extendProperty None (attributes def)) with
          | Some e => (child, Some e)
          | None =>
              match snd (extendProperty None (eventListeners def)) with
              | Some e => (child, Some e)
              | None =>
                  if hasText def then (child, Some TypeError)
                  else match children def with
                       | Some (_ :: _) => (child, Some TypeError)
                       | _ => (child, None)
                       end
              end
          end
      end
  | _ => (child, None)
  end.

(** [for ( let childDef of def.children ) { extendTemplate(
    template.children.get( childIndex++ ), childDef ); }];
    [get] past the end is [null]. *)
Fixpoint extendChildrenFrom (cs ds : list Child) {struct ds} : outcome (list Child) :=
  match ds with
  | [] => (cs, None)
  | childDef :: ds' =>
      match cs with
      | [] => ([], Some TypeError)
      | child :: cs' =>
          let (child', e) := extendChild child childDef in
          match e with
          | Some _ => (child' :: cs', e)
          | None =>
              let (cs'', e') := extendChildrenFrom cs' ds' in (child' :: cs'', e')
          end
      end
  end.

(** [if ( def.children && def.children.length ) { ... }] *)
Definition extendChildren (cs ds : option (list Child)) : outcome (option (list Child)) :=
  match ds with
  | None => (cs, None)
  | Some ds =>
      if (List.length ds =? 0)%nat then (cs, None)
      else match cs with
           | None => (None, Some TypeError)
           | Some cs =>
               if negb (List.length cs =? List.length ds)%nat
               then (Some cs, Some ChildCountMismatch)
               else let (cs', e) := extendChildrenFrom cs ds in (Some cs', e)
           end
  end.

End Extension.

(** [extendTemplate( template, def )] *)
Fixpoint extendTemplate (template def : Template) {struct def} : outcome Template :=
  let tg := tag template in
  let n := ns template in
  andNext (extendProperty (attributes template) (attributes def))
    (fun a => mkTemplate tg n (text template) a (children template)
                (eventListeners template))
    (fun a =>
       andNext (extendProperty (eventListeners template) (eventListeners def))
         (fun l => mkTemplate tg n (text template) a (children template) l)
         (fun l =>
            andNext (extendText (text template) (text def))
              (fun tx => mkTemplate tg n tx a (children template) l)
              (fun tx =>
                 let (cs, e) :=
                   extendChildren extendTemplate (children template) (children def) in
                 (mkTemplate tg n tx a cs l, e)))).

(** [Template.extend( template, def )], on the definition [normalize]
    returns. *)
Definition extend (template def : Template) : outcome Template :=
  extendTemplate template def.

(** ** The normalizer *)

(** A value as a definition gives it for [text], for an attribute or for a
    listener: one entry, or an array of entries.  A wrapper comes with the
    array it wraps. *)
Inductive RawSchema :=
| One (item : SchemaItem)
| Many (items : list SchemaItem).

(** What is neither a string nor an object. *)
Inductive Primitive :=
| PUndefined
| PNull
| PBool (b : bool)
| PNum (n : number).

(** What [new Template( def )] is given: a string, an object, or a
    primitive that is no definition.  [attributes] and [children] go with
    [tag] only, so an object that has [text] carries neither; an element
    definition is one whose [text] is not set.  A child of a definition is
    any of these, or a view. *)
Inductive TemplateDefinition :=
| PlainText (s : string)
| TextDefinition (tag ns : value) (text : RawSchema)
    (on : option (list (string * RawSchema)))
| ElementDefinition (tag ns : value)
    (attributes : option (list (string * RawSchema)))
    (children : option RawChildren)
    (on : option (list (string * RawSchema)))
| NotADefinition (p : Primitive)
with RawChildren :=
| ChildArray (l : list RawChild)
| ChildCollection (c : ViewCollection)
with RawChild :=
| ChildDefinition (def : TemplateDefinition)
| ChildViewInstance (v : View).

(** Modelled from the spec: [cloneDeepWith] of the vendored lodash, which is
    not among the sources.  The clone is deep and keeps bindings, views and
    view collections as they are; on values that are never written to it is
    the same definition. *)
Definition clone (def : TemplateDefinition) : TemplateDefinition := def.

(** [arrayify( obj, key )], on the entry it rewrites. *)
Definition arrayify (v : RawSchema) : ValueSchema :=
  match v with
  | One item => [item]
  | Many items => items
  end.

(** The truth value of [def.text]. *)
Definition rawTruthy (v : RawSchema) : bool :=
  match v with
  | One (Literal x) => ToBoolean x
  | _ => true
  end.

(** [attrs[ a ].value] can be read: [attrs[ a ]] is neither [null] nor
    [undefined]. *)
Definition readable (v : RawSchema) : bool :=
  match v with
  | One (Literal VNull) | One (Literal VUndefined) => false
  | _ => true
  end.

(** [normalizeAttributes( attrs )]: [[].concat] leaves the array of a
    wrapper as it is, so what the loop does to an entry is read
    [attrs[ a ].value] and [arrayify]. *)
Fixpoint normalizeAttributes (attrs : list (string * RawSchema))
    : result (list (string * ValueSchema)) :=
  match attrs with
  | [] => Ok []
  | (a, v) :: attrs' =>
      if readable v
      then attrs'' <- normalizeAttributes attrs' ;; Ok ((a, arrayify v) :: attrs'')
      else Throw TypeError
  end.

(** [normalizeListeners( listeners )] *)
Definition normalizeListeners (listeners : list (string * RawSchema))
    : list (string * ValueSchema) :=
  map (fun l => (fst l, arrayify (snd l))) listeners.

(** [normalizePlainTextDefinition( def )] *)
Definition normalizePlainTextDefinition (def : string) : Template :=
  mkTemplate VUndefined VUndefined (Some [Literal (VStr def)]) None None None.

(** [normalizeTextDefinition( def )], on [def.text]. *)
Definition normalizeTextDefinition (text : RawSchema) : ValueSchema :=
  arrayify text.

Section Children.

(** [new Template( child )], tied below. *)
Variable newTemplate : TemplateDefinition -> result Template.

(** [for ( let child of def.children ) { ... children.add( ... ) }].
    Modelled from the spec: the [Collection] of [utils/collection.js], which
    is not among the sources, is an ordered container that keeps the order
    of insertion; [add] puts an item after the ones it holds. *)
Fixpoint addChildren (l : list RawChild) : result (list Child) :=
  match l with
  | [] => Ok []
  | ChildViewInstance v :: l' =>
      cs <- addChildren l' ;; Ok (ChildView v :: cs)
  | ChildDefinition def :: l' =>
      t <- newTemplate def ;;
      cs <- addChildren l' ;;
      Ok (ChildTemplate t :: cs)
  end.

(** The collection [normalize] fills from [def.children]. *)
Definition collectChildren (children : option RawChildren) : result (list Child) :=
  match children with
  | None => Ok []
  | Some (ChildCollection c) => Ok [ChildViewCollection c]
  | Some (ChildArray l) => addChildren l
  end.

End Children.

(** [normalize( def )]; the constructor is [normalize( clone( def ) )], and
    [clone] changes nothing, so the recursion goes through [normalize].
    On [null] and [undefined] the read of [def.text] is a [TypeError]; a
    boolean or a number gets as far as [def.children = children], an
    assignment to a property of a primitive, which module code rejects
    with a [TypeError]. *)
Fixpoint normalize (def : TemplateDefinition) : result Template :=
  match def with
  | PlainText s => Ok (normalizePlainTextDefinition s)
  | TextDefinition tag ns text on =>
      let eventListeners := option_map normalizeListeners on in
      if rawTruthy text
      then Ok (mkTemplate tag ns (Some (normalizeTextDefinition text)) None None
                 eventListeners)
      else Ok (mkTemplate tag ns None None (Some []) eventListeners)
  | ElementDefinition tag ns attributes children on =>
      let eventListeners := option_map normalizeListeners on in
      attributes <- match attributes with
                    | Some attrs => attrs <- normalizeAttributes attrs ;; Ok (Some attrs)
                    | None => Ok None
                    end ;;
      children <- collectChildren normalize children ;;
      Ok (mkTemplate tag ns None attributes (Some children) eventListeners)
  | NotADefinition _ => Throw TypeError
  end.

(** [new Template( def )] *)
Definition newTemplate (def : TemplateDefinition) : result Template :=
  normalize (clone def).

(** [Template.extend( template, def )] *)
Definition Template_extend (template : Template) (def : TemplateDefinition)
    : outcome Template :=
  match normalize (clone def) with
  | Ok def => extendTemplate template def
  | Throw e => (template, Some e)
  end.

(** ** Notions the statements are written with *)

(** Exactly one of [tag] and [text] is set. *)
Definition exactlyOne (t : Template) : bool := xorb (hasTag t) (hasText t).

Definition isEventBinding (item : SchemaItem) : bool :=
  match item with
  | Binding (TemplateToBinding _ _) => true
  | _ => false
  end.

Definition listenersActivable (eventListeners : option (list (string * ValueSchema))) : bool :=
  match eventListeners with
  | None => true
  | Some l => forallb (fun entry => forallb isEventBinding (snd entry)) l
  end.

Definition forChildTemplates (p : Template -> bool) (cs : list Child) : bool :=
  forallb (fun c => match c with ChildTemplate t => p t | _ => true end) cs.

(** A template as the constructor builds it, with listeners that can be
    activated: wherever an element is rendered it has its children
    collection, and every entry of its listeners is an event binding. *)
Fixpoint wellFormed (t : Template) : bool :=
  if hasText t then true
  else match children t with
       | None => false
       | Some cs =>
           forallb (fun c => match c with ChildTemplate t => wellFormed t | _ => true end) cs
       end && listenersActivable (eventListeners t).

(** Every template [render] reaches has exactly one of [tag] and [text]. *)
Fixpoint validTree (t : Template) : bool :=
  exactlyOne t &&
  (if hasText t then true
   else match children t with
        | None => true
        | Some cs =>
            forallb (fun c => match c with ChildTemplate t => validTree t | _ => true end) cs
        end).

(** The child templates of an element are valid trees. *)
Definition childrenValid (t : Template) : bool :=
  match children t with
  | None => true
  | Some cs => forChildTemplates validTree cs
  end.

(** The host takes what the renderer hands it for one attribute of an
    element of the given namespace and tag: the name in its namespace
    where the attribute is set or bound, the [style] object where a style
    map is written. *)
Definition attributeAccepted (h : Host) (elementNs elementTag : value)
    (attr : string * ValueSchema) : bool :=
  let (attrName, attrValue) := attr in
  if existsb hasTemplateBinding attrValue
  then acceptsAttribute h (attributeNs attrValue) attrName
  else if (attrName =? "style") && headNotString attrValue
  then match styleProperties (hd_error attrValue) with
       | [] => true
       | _ => exposesStyle h elementNs elementTag
       end
  else acceptsAttribute h (attributeNs attrValue) attrName.

Definition attributesAccepted (h : Host) (elementNs elementTag : value)
    (attributes : option (list (string * ValueSchema))) : bool :=
  forallb (attributeAccepted h elementNs elementTag) (orEmpty attributes).

(** The host takes every name the tree of a template hands it when it is
    rendered: the name of each element in its namespace, and what its
    attributes need. *)
Fixpoint accepted (h : Host) (t : Template) : bool :=
  if hasText t then true
  else
    acceptsElement h (js_or (ns t) (VStr xhtmlNs)) (tag t)
    && attributesAccepted h (js_or (ns t) (VStr xhtmlNs)) (tag t) (attributes t)
    && match children t with
       | None => true
       | Some cs =>
           forallb (fun c => match c with ChildTemplate t => accepted h t | _ => true end) cs
       end.

(** The bindings among the entries of a schema, in order. *)
Definition bindingsOf (valueSchema : ValueSchema) : list TemplateBinding :=
  flat_map (fun item => match item with Binding b => [b] | _ => [] end) valueSchema.


(** The subscription [activateAttributeListener] creates for [b]. *)
Definition subscription (valueSchema : ValueSchema) (node : Node) (updater : Updater)
    (b : TemplateBinding) : Listener :=
  AttributeListener (emitter (binding_def b)) (observable (binding_def b))
    ("change:" ++ attribute (binding_def b))%string valueSchema node updater.

(** The object owns the key. *)
Definition owns (a : string) (obj : list (string * ValueSchema)) : bool :=
  match lookup a obj with
  | Some _ => true
  | None => false
  end.

(** No key of the extension is one the object does not own and inherits. *)
Definition mergeable (obj ext : option (list (string * ValueSchema))) : bool :=
  forallb (fun entry => owns (fst entry) (orEmpty obj) || negb (inheritedKey (fst entry)))
    (orEmpty ext).

Definition hasKey (a : string) (ext : list (string * ValueSchema)) : bool :=
  existsb (fun entry => fst entry =? a) ext.

Definition valuesFor (a : string) (ext : list (string * ValueSchema)) : ValueSchema :=
  flat_map (fun entry => if fst entry =? a then snd entry else []) ext.

(** The pairs of a template and a definition [extendTemplate] goes through
    without throwing: no key is one the target only inherits, text is only
    appended to text, a definition with children meets as many children,
    and so on down the children. *)
Section Compatibility.

Variable compat : Template -> Template -> bool.

Definition compatibleChild (child childDef : Child) : bool :=
  match childDef with
  | ChildTemplate def =>
      match child with
      | ChildTemplate template => compat template def
      | _ =>
          mergeable None (attributes def)
          && mergeable None (eventListeners def)
          && negb (hasText def)
          && match children def with Some (_ :: _) => false | _ => true end
      end
  | _ => true
  end.

Fixpoint compatibleFrom (cs ds : list Child) {struct ds} : bool :=
  match ds with
  | [] => true
  | childDef :: ds' =>
      match cs with
      | [] => false
      | child :: cs' => compatibleChild child childDef && compatibleFrom cs' ds'
      end
  end.

End Compatibility.

Fixpoint compatible (template def : Template) {struct def} : bool :=
  mergeable (attributes template) (attributes def)
  && mergeable (eventListeners template) (eventListeners def)
  && (negb (hasText def) || hasText template)
  && match children def with
     | None => true
     | Some ds =>
         (List.length ds =? 0)%nat ||
         match children template with
         | None => false
         | Some cs =>
             (List.length cs =? List.length ds)%nat && compatibleFrom compatible cs ds
         end
     end.

(** ** Sample data *)

(** A host that takes every name. *)
Definition anyHost : Host :=
  {| acceptsElement := fun _ _ => true;
     acceptsAttribute := fun _ _ => true;
     exposesStyle := fun _ _ => true |}.

Fixpoint noSpace (s : string) : bool :=
  match s with
  | EmptyString => true
  | String c s' => negb (Ascii.eqb c " "%char) && noSpace s'
  end.

(** A host that takes no name with a space in it, and gives a [style] to
    the elements of XHTML only. *)
Definition plainHost : Host :=
  {| acceptsElement := fun _ tag => noSpace (ToString tag);
     acceptsAttribute := fun _ name => noSpace name;
     exposesStyle := fun ns _ => value_eqb ns (VStr xhtmlNs) |}.

Definition emptyWorld : World :=
  {| host := anyHost; dom := []; data := fun _ _ => VUndefined; listeners := [];
     effects := [] |}.

(** A world where every attribute of every observable is ["x"]. *)
Definition xWorld : World :=
  {| host := anyHost; dom := []; data := fun _ _ => VStr "x"; listeners := [];
     effects := [] |}.

(** The empty document of the plain host. *)
Definition plainWorld : World :=
  {| host := plainHost; dom := []; data := fun _ _ => VUndefined; listeners := [];
     effects := [] |}.

(** [new Template( {} )] *)
Definition emptyTemplate : Template :=
  mkTemplate VUndefined VUndefined None None (Some []) None.

(** [new Template( 'hello' )] *)
Definition helloTemplate : Template :=
  mkTemplate VUndefined VUndefined (Some [Literal (VStr "hello")]) None None None.


(** [new Template( { tag: 'p', attributes: { class: 'foo' }, children: [ 'hello' ] } )] *)
Definition paragraph : Template :=
  mkTemplate (VStr "p") VUndefined None (Some [("class", [Literal (VStr "foo")])])
    (Some [ChildTemplate helloTemplate]) None.

(** [new Template( { tag: 'ul', children: [ 'hello', 'hello' ] } )] *)
Definition twoChildren : Template :=
  mkTemplate (VStr "ul") VUndefined None None
    (Some [ChildTemplate helloTemplate; ChildTemplate helloTemplate]) None.

(** [normalize( { attributes: { class: 'b' } } )] *)
Definition classFragment : Template :=
  mkTemplate VUndefined VUndefined None (Some [("class", [Literal (VStr "b")])])
    (Some []) None.

(** [normalize( { attributes: { toString: 'x' } } )] *)
Definition toStringFragment : Template :=
  mkTemplate VUndefined VUndefined None (Some [("toString", [Literal (VStr "x")])])
    (Some []) None.

(** [normalize( { children: [ {}, {}, {} ] } )] *)
Definition threeChildrenFragment : Template :=
  mkTemplate VUndefined VUndefined None None
    (Some [ChildTemplate emptyTemplate; ChildTemplate emptyTemplate;
           ChildTemplate emptyTemplate]) None.

(** A document that holds one [div]. *)
Definition divWorld : World :=
  {| host := anyHost; dom := [new_node (ElementNode (VStr xhtmlNs) (VStr "div"))];
     data := fun _ _ => VUndefined; listeners := []; effects := [] |}.

(** The fields of [Template.bind( 0, 0 )] bindings of the attribute [a]. *)
Definition sampleDef : TemplateBindingDef :=
  {| observable := 0; emitter := 0; attribute := "a"; callback := None |}.

(** [new Template( { tag: 'b', attributes: { style: { color: 'red',
    width: bind.to( 'a' ) } } } )], with [bind = Template.bind( 0, 0 )]. *)
Definition styled : Template :=
  mkTemplate (VStr "b") VUndefined None
    (Some [("style", [Styles [("color", Literal (VStr "red"));
                              ("width", Binding (bind_to 0 0 (Name "a") None))]])])
    (Some []) None.

(** The aggregate of a schema in the spec's words: a schema that is exactly
    one conditional binding gives that binding's own value, any other
    schema the join of its kept values, literals as they are and bindings
    as they evaluate now. *)
Definition aggregate (valueSchema : ValueSchema) (domNode : Node) (w : World) : value :=
  match valueSchema with
  | [Binding (TemplateIfBinding def valueIfTrue)] =>
      getValue (TemplateIfBinding def valueIfTrue) domNode w
  | _ => joined (getValueSchemaValue valueSchema domNode w)
  end.

(** The world once the bindings of a schema are subscribed. *)
Definition subscribed (valueSchema : ValueSchema) (node : Node) (updater : Updater)
    (w : World) : World :=
  {| host := host w; dom := dom w; data := data w;
     listeners := listeners w ++ map (subscription valueSchema node updater)
                                     (bindingsOf valueSchema);
     effects := effects w |}.

(** What a qualifying native event does with a binding. *)
Definition triggered (observable : Observable) (eventNameOrFunction : NameOrFunction)
    (domEvt : DomEvent) : Effect :=
  match eventNameOrFunction with
  | Function f => Called f domEvt
  | Name name => Fired observable name domEvt
  end.





(** Two bindings of [Template.bind( 0, 0 )], of the attributes [a] and [b]. *)
Definition bindingA : TemplateBinding := bind_to 0 0 (Name "a") None.
Definition bindingB : TemplateBinding := bind_to 0 0 (Name "b") None.


(** [new Template( { tag: 'a b' } )] *)
Definition spacedTag : Template :=
  mkTemplate (VStr "a b") VUndefined None None (Some []) None.

(** ** Notions the further statements are written with *)

(** What the tree of the document is made of: the kind of each node and
    its child nodes. *)
Definition shape (d : Dom) : list (NodeKind * list Node) :=
  map (fun x => (kind x, childNodes x)) d.

Definition kinds (d : Dom) : list NodeKind := map kind d.

(** The document keeps its nodes and their kinds, and may have more. *)
Definition grows (w w' : World) : Prop :=
  exists extra, kinds (dom w') = kinds (dom w) ++ extra.

(** The errors of the host. *)
Definition hostError (e : error) : Prop := e = TypeError \/ e = DOMException.

(** An updater that, where it returns, writes neither kinds nor child
    nodes, and throws nothing but the errors of the host. *)
Definition steady (u : Updater) : Prop :=
  (forall v d d', set u v d = Ok d' -> shape d' = shape d)
  /\ (forall d d', remove u d = Ok d' -> shape d' = shape d)
  /\ (forall v d e, set u v d = Throw e -> hostError e)
  /\ (forall d e, remove u d = Throw e -> hostError e).

(** The node a call of [_renderNode] returns when it returns: the one it
    was given, or the one it creates first. *)
Definition renderedNode (applyNode : option Node) (w : World) : Node :=
  match applyNode with
  | Some n => n
  | None => List.length (dom w)
  end.

(** Rendered on a host that takes its names, the template gives a new
    node and leaves the host as it is. *)
Definition rendersNew (t : Template) : Prop :=
  forall intoFragment w,
    accepted (host w) t = true ->
    exists w', _renderNode t None intoFragment w = Ok (List.length (dom w), w')
               /\ host w' = host w.



(** Between two worlds: the tree of the document, the host, the data and
    the calls recorded are the same; attributes, styles, text and
    subscriptions may have changed. *)
Definition settled (w w' : World) : Prop :=
  shape (dom w') = shape (dom w) /\ host w' = host w /\ data w' = data w
  /\ effects w' = effects w.

Definition orNil (o : option ValueSchema) : ValueSchema :=
  match o with
  | Some v => v
  | None => []
  end.

(** The world with more subscriptions. *)
Definition addListeners (ls : list Listener) (w : World) : World :=
  {| host := host w; dom := dom w; data := data w; listeners := listeners w ++ ls;
     effects := effects w |}.

(** The subscriptions the event bindings under one key ask for. *)
Definition registrationsFor (el : Node) (entry : string * ValueSchema) : list Listener :=
  flat_map
    (fun item =>
       match item with
       | Binding (TemplateToBinding def eventNameOrFunction) =>
           [DomEventListener (emitter def) el (fst (splitKey (fst entry)))
              (snd (splitKey (fst entry))) (observable def) eventNameOrFunction]
       | _ => []
       end)
    (snd entry).

Definition registrations (el : Node) (eventListeners : option (list (string * ValueSchema)))
    : list Listener :=
  flat_map (registrationsFor el) (orEmpty eventListeners).

(** Key-by-key concatenation read off one key of two objects: the target's
    array followed by the extension's where both have the key, and the one
    array there is where only one has it. *)
Definition mergedAt (a : string) (obj ext : option (list (string * ValueSchema)))
    : option ValueSchema :=
  match lookup a (orEmpty obj), lookup a (orEmpty ext) with
  | Some x, Some y => Some (x ++ y)
  | Some x, None => Some x
  | None, y => y
  end.

(** The keys of an object are distinct. *)
Definition distinctKeys (obj : option (list (string * ValueSchema))) : Prop :=
  NoDup (map fst (orEmpty obj)).

(** [extendTemplate] throws nothing on exactly the targets a definition is
    compatible with. *)
Definition agrees (def : Template) : Prop :=
  forall template, snd (extendTemplate template def) = None <-> compatible template def = true.

(** What an extension by [def] leaves of a template, thrown error or not. *)
Definition keepsOutline (def : Template) : Prop :=
  forall template,
    let template' := fst (extendTemplate template def) in
    hasTag template' = hasTag template
    /\ hasText template' = hasText template
    /\ option_map (@List.length Child) (children template')
       = option_map (@List.length Child) (children template)
    /\ validTree template' = validTree template.

(** [new Template( { tag: 'p', attributes: { class: 'foo' } } )] *)
Definition plainParagraph : Template :=
  mkTemplate (VStr "p") VUndefined None (Some [("class", [Literal (VStr "foo")])])
    (Some []) None.

Definition unreadableIn (attributes : option (list (string * RawSchema))) : bool :=
  match attributes with
  | Some attrs => existsb (fun entry => negb (readable (snd entry))) attrs
  | None => false
  end.

(** Some attribute of an element definition, at any depth, is [null] or
    [undefined]. *)
Fixpoint hasUnreadableAttribute (def : TemplateDefinition) : bool :=
  match def with
  | ElementDefinition _ _ attributes children _ =>
      unreadableIn attributes
      || match children with
         | Some (ChildArray l) =>
             existsb (fun c => match c with
                               | ChildDefinition d => hasUnreadableAttribute d
                               | ChildViewInstance _ => false
                               end) l
         | _ => false
         end
  | _ => false
  end.

Definition childUnreadable (c : RawChild) : bool :=
  match c with
  | ChildDefinition d => hasUnreadableAttribute d
  | ChildViewInstance _ => false
  end.

(** The definition, or a child definition at any depth, is a primitive. *)
Fixpoint holdsPrimitive (def : TemplateDefinition) : bool :=
  match def with
  | NotADefinition _ => true
  | ElementDefinition _ _ _ (Some (ChildArray l)) _ =>
      existsb (fun c => match c with
                        | ChildDefinition d => holdsPrimitive d
                        | ChildViewInstance _ => false
                        end) l
  | _ => false
  end.

Definition childHoldsPrimitive (c : RawChild) : bool :=
  match c with
  | ChildDefinition d => holdsPrimitive d
  | ChildViewInstance _ => false
  end.




(** The child a definition's child becomes, when it becomes one. *)
Definition becomes (c : RawChild) (c' : Child) : Prop :=
  match c with
  | ChildViewInstance v => c' = ChildView v
  | ChildDefinition d => exists t, c' = ChildTemplate t /\ newTemplate d = Ok t
  end.

(** [{ tag: 'p', attributes: { class: 'foo' }, children: [ 'hello' ] }] *)
Definition paragraphDefinition : TemplateDefinition :=
  ElementDefinition (VStr "p") VUndefined
    (Some [("class", One (Literal (VStr "foo")))])
    (Some (ChildArray [ChildDefinition (PlainText "hello")])) None.

(** [{ tag: 'p', attributes: { class: null } }] *)
Definition nullClassDefinition : TemplateDefinition :=
  ElementDefinition (VStr "p") VUndefined
    (Some [("class", One (Literal VNull))]) None None.

(** [{ tag: 'p', children: [ null ] }] *)
Definition nullChildDefinition : TemplateDefinition :=
  ElementDefinition (VStr "p") VUndefined None
    (Some (ChildArray [ChildDefinition (NotADefinition PNull)])) None.

(** A text node of the document that holds [content]. *)
Definition textNode (content : value) : DomNode :=
  {| kind := TextNode; attrs := []; style := []; textContent := content; childNodes := [] |}.

(** The literal entries of a text made of strings. *)
Definition literals (l : list string) : ValueSchema :=
  map (fun s => Literal (VStr s)) l.

(** A string without [@]. *)
Fixpoint noAt (s : string) : bool :=
  match s with
  | EmptyString => true
  | String c s' => negb (Ascii.eqb c "@"%char) && noAt s'
  end.

Section Coverage.

(** The kind and the child nodes of each node of the document. *)
Variable tree : list (NodeKind * list Node).

Variable cover : Template -> Node -> bool.


End Coverage.



(** A document that holds a [div] with one text node in it. *)
Definition divWithTextWorld : World :=
  {| host := anyHost;
     dom := [ {| kind := ElementNode (VStr xhtmlNs) (VStr "div"); attrs := []; style := [];
                 textContent := VStr ""; childNodes := [1] |};
              textNode (VStr "") ];
     data := fun _ _ => VUndefined; listeners := []; effects := [] |}.



(** The kind of the node a template renders to. *)
Definition renderedKind (t : Template) : NodeKind :=
  if hasText t then TextNode else ElementNode (js_or (ns t) (VStr xhtmlNs)) (tag t).

(** Rendered, the template gives the node that comes right after those
    the document had, of its kind, and the document keeps its nodes and
    their kinds. *)
Definition rendersGrowing (t : Template) : Prop :=
  forall intoFragment w r,
    _renderNode t None intoFragment w = Ok r ->
    fst r = List.length (dom w)
    /\ exists extra, kinds (dom (snd r)) = kinds (dom w) ++ renderedKind t :: extra.

(** The same world with other data in the data sources. *)
Definition withData (data' : Observable -> string -> value) (w : World) : World :=
  {| host := host w; dom := dom w; data := data'; listeners := listeners w;
     effects := effects w |}.

(** A text of one literal and one binding of the attribute [a]:
    [[ 'a', bind.to( 'a' ) ]]. *)
Definition boundText : ValueSchema :=
  [Literal (VStr "a"); Binding (bind_to 0 0 (Name "a") None)].

(** The binding is one of the attribute [a] of the observable [o]. *)
Definition boundTo (o : Observable) (a : string) (b : TemplateBinding) : bool :=
  (observable (binding_def b) =? o)%nat && (attribute (binding_def b) =? a).

(** No binding among the entries of the schema has a transform. *)
Definition untransformed (valueSchema : ValueSchema) : bool :=
  forallb (fun item =>
             match item with
             | Binding b => match callback (binding_def b) with
                            | None => true
                            | Some _ => false
                            end
             | _ => true
             end) valueSchema.

(** A write of the updater that returned returns the same when repeated
    on what it left. *)
Definition repeats (u : Updater) (d : Dom) : Prop :=
  (forall v d1, set u v d = Ok d1 -> set u v d1 = Ok d1)
  /\ (forall d1, remove u d = Ok d1 -> remove u d1 = Ok d1).

(** A transform that reads the node it is handed: the text the node holds,
    with the value after it. *)
Definition appendToText (v : value) (node : Node) (d : Dom) : value :=
  match nth_error d node with
  | Some x => VStr (ToString (textContent x) ++ ToString v)
  | None => v
  end.

(** [[ bind.to( 'a', ( value, node ) => node.textContent + value ) ]] *)
Definition readingText : ValueSchema :=
  [Binding (bind_to 0 0 (Name "a") (Some appendToText))].
(** * Properties *)

(** ** Some runs of the renderer and of the merger *)

(** [{ tag: 'p', attributes: { class: 'foo' }, children: [ 'hello' ] }]
    renders to a [p] whose [class] is ["foo"] and whose only child is a text
    node holding ["hello"]; the children went through a fragment. *)
Example render_paragraph :
  exists w',
    render paragraph emptyWorld = Ok (0, w')
    /\ dom w' =
       [ {| kind := ElementNode (VStr xhtmlNs) (VStr "p");
            attrs := [(VNull, "class", VStr "foo")]; style := [];
            textContent := VStr ""; childNodes := [2] |};
         {| kind := FragmentNode; attrs := []; style := [];
            textContent := VStr ""; childNodes := [] |};
         {| kind := TextNode; attrs := []; style := [];
            textContent := VStr "hello"; childNodes := [] |} ]
    /\ listeners w' = [].
Proof. eexists. repeat split. Qed.

(** A style map with a literal and a bound property: both are written at
    once, one subscription is made, and a change of the bound attribute
    rewrites that property alone. *)
Example render_styled :
  exists w' w'',
    render styled xWorld = Ok (0, w')
    /\ option_map style (nth_error (dom w') 0)
       = Some [("color", VStr "red"); ("width", VStr "x")]
    /\ List.length (listeners w') = 1
    /\ notifyChange 0 "a" (withData (fun _ _ => VStr "10px") w') = Ok w''
    /\ option_map style (nth_error (dom w'') 0)
       = Some [("color", VStr "red"); ("width", VStr "10px")].
Proof. do 2 eexists. repeat split. Qed.

(** The host refuses the name [a b]: [render] throws what
    [createElementNS] throws, though the template has exactly one of [tag]
    and [text]. *)
Example render_spaced_tag :
  exactlyOne spacedTag = true /\ render spacedTag plainWorld = Throw DOMException.
Proof. split; reflexivity. Qed.

(** A template with neither [tag] nor [text] and one attribute, applied to
    a text node: a text node has no [setAttributeNS]. *)
Example apply_attribute_to_text :
  kindOf 1 (dom divWithTextWorld) = Some TextNode
  /\ apply classFragment (Some 1) divWithTextWorld = Throw TypeError.
Proof. split; reflexivity. Qed.

(** A text template applied to an element: setting [textContent] takes
    the element's child nodes away and gives it one new text node. *)
Example apply_text_to_element :
  exists w',
    apply helloTemplate (Some 0) divWithTextWorld = Ok (0, w')
    /\ List.length (dom w') = 3
    /\ option_map childNodes (nth_error (dom w') 0) = Some [2]
    /\ nth_error (dom w') 2 = Some (textNode (VStr "hello")).
Proof. eexists. repeat split. Qed.

(** A new key that is an array index is visited before the keys the object
    had; any other new key after them. *)
Example extend_index_key :
  extendObjectValueArray [("class", [Literal (VStr "a")])]
    [("id", [Literal (VStr "x")]); ("1", [Literal (VStr "y")])]
  = ([("1", [Literal (VStr "y")]); ("class", [Literal (VStr "a")]);
      ("id", [Literal (VStr "x")])], None).
Proof. reflexivity. Qed.

(** ** Falsiness and aggregation *)

Lemma isFalsy_spec (v : value) :
  isFalsy v = true <->
  v = VUndefined \/ v = VNull \/ v = VBool false \/ v = VStr "" \/ v = VNum NaN.
Proof.
  split.
  - destruct v as [| |[|]|[|z]|s|n]; cbn; try discriminate; auto.
    + destruct z; cbn; discriminate.
    + destruct s; cbn; [auto 6 | discriminate].
  - intros [-> | [-> | [-> | [-> | ->]]]]; reflexivity.
Qed.

Lemma isFalsy_zero : isFalsy (VNum (Int 0)) = false.
Proof. reflexivity. Qed.

Lemma isFalsy_ToBoolean (v : value) : ToBoolean v = true -> isFalsy v = false.
Proof. unfold isFalsy. now intros ->. Qed.

Lemma spaced_not_empty (a b : string) : ((a ++ " " ++ b)%string =? "") = false.
Proof. destruct a; reflexivity. Qed.

Lemma isFalsy_spaced (a b : string) : isFalsy (VStr (a ++ " " ++ b)%string) = false.
Proof. unfold isFalsy; cbn [ToBoolean]. now rewrite spaced_not_empty. Qed.

Lemma string_app_assoc (a b c : string) :
  ((a ++ b) ++ c)%string = (a ++ b ++ c)%string.
Proof. induction a; cbn; [reflexivity | now rewrite IHa]. Qed.

(** Reducing from an accumulator that is already kept. *)
Lemma reduce_from_kept (l : list value) (p : value) :
  isFalsy p = false ->
  reduce arrayValueReducer p l =
  match filter notFalsy l with
  | [] => p
  | vs => VStr (ToString p ++ " " ++ String.concat " " (map ToString vs))%string
  end.
Proof.
  unfold reduce. revert p. induction l as [|cur l IH]; intros p Hp; cbn [fold_left filter].
  - reflexivity.
  - unfold notFalsy at 1, arrayValueReducer at 2.
    destruct (isFalsy cur) eqn:Hcur; cbn [negb].
    + now apply IH.
    + rewrite Hp, IH by apply isFalsy_spaced.
      destruct (filter notFalsy l) as [|x xs]; cbn [map String.concat ToString].
      * reflexivity.
      * now rewrite !string_app_assoc.
Qed.

(** The reduction from the empty string is the join of what is kept. *)
Lemma reduce_arrayValueReducer (l : list value) :
  reduce arrayValueReducer (VStr "") l = joined l.
Proof.
  unfold joined. induction l as [|cur l IH]; cbn [filter].
  - reflexivity.
  - unfold notFalsy at 1. destruct (isFalsy cur) eqn:Hcur; cbn [negb].
    + rewrite <- IH. unfold reduce; cbn [fold_left]. unfold arrayValueReducer at 2.
      now rewrite Hcur.
    + unfold reduce; cbn [fold_left]. unfold arrayValueReducer at 2.
      rewrite Hcur. cbn [isFalsy ToBoolean String.eqb negb andb strict_not_zero].
      change (fold_left arrayValueReducer l cur) with (reduce arrayValueReducer cur l).
      rewrite reduce_from_kept by assumption.
      destruct (filter notFalsy l) as [|x xs]; reflexivity.
Qed.

Lemma filter_notFalsy_strings (l : list string) :
  filter notFalsy (map VStr l) = map VStr (filter (fun s => negb (s =? "")) l).
Proof.
  induction l as [|s l IH]; cbn [map filter]; [reflexivity|].
  unfold notFalsy at 1, isFalsy; cbn [ToBoolean strict_not_zero].
  rewrite andb_true_r, negb_involutive.
  destruct (negb (s =? "")); cbn [map]; now rewrite IH.
Qed.

(** C6: folding a list of literal strings with [arrayValueReducer] from the
    empty string gives the non-empty entries joined by single spaces, with
    no separator in front; [[ "a", "", "b" ]] gives ["a b"].  On literals
    of any kind the same fold is [joined]. *)
Theorem arrayValueReducer_joins_kept_entries :
  (forall l : list string,
      reduce arrayValueReducer (VStr "") (map VStr l) =
      VStr (String.concat " " (filter (fun s => negb (s =? "")) l)))
  /\ reduce arrayValueReducer (VStr "") [VStr "a"; VStr ""; VStr "b"] = VStr "a b"
  /\ (forall l : list value, reduce arrayValueReducer (VStr "") l = joined l).
Proof.
  split; [|split].
  - intros l. rewrite reduce_arrayValueReducer. unfold joined.
    rewrite filter_notFalsy_strings.
    destruct (filter (fun s => negb (s =? "")) l) as [|a [|b r]]; cbn [map]; try reflexivity.
    rewrite map_map. cbn [ToString]. now rewrite map_id.
  - reflexivity.
  - exact reduce_arrayValueReducer.
Qed.

(** ** Conditional bindings *)

(** C4, as stated, at [bind.if( 'a', '' )] on a source value ["x"]: the
    literal is configured, the source value is kept, and the result is
    [true], not the literal. *)
Lemma ifBinding_empty_valueIfTrue_counterexample :
  let b := bind_if 0 0 "a" (VStr "") None in
  isFalsy (TemplateBinding_getValue (binding_def b) 0 xWorld) = false
  /\ getValue b 0 xWorld <> VStr ""
  /\ getValue b 0 xWorld = VBool true.
Proof. cbn. repeat split; discriminate. Qed.

(** C4, amended: [getValue] of a conditional binding is [false] when the
    value read from the observable (through the callback, if any) is falsy,
    that is [false], [null], [undefined], the empty string or NaN; otherwise
    it is [valueIfTrue] when that is truthy, and [true] when it is not
    configured; the source value [0] is kept. *)
Theorem ifBinding_getValue (def : TemplateBindingDef) (valueIfTrue : value)
    (domNode : Node) (w : World) :
  let value := TemplateBinding_getValue def domNode w in
  let result := getValue (TemplateIfBinding def valueIfTrue) domNode w in
  (isFalsy value = true -> result = VBool false)
  /\ (isFalsy value = false -> ToBoolean valueIfTrue = true -> result = valueIfTrue)
  /\ (isFalsy value = false -> valueIfTrue = VUndefined -> result = VBool true)
  /\ (value = VNum (Int 0) -> result <> VBool false)
  /\ (isFalsy value = true <->
      value = VUndefined \/ value = VNull \/ value = VBool false
      \/ value = VStr "" \/ value = VNum NaN).
Proof.
  cbn zeta. cbn [getValue]. unfold js_or. repeat split.
  - now intros ->.
  - now intros -> ->.
  - now intros -> ->.
  - intros ->. cbn. destruct (ToBoolean valueIfTrue) eqn:E; [|discriminate].
    intros ->. discriminate.
  - apply isFalsy_spec.
  - apply isFalsy_spec.
Qed.

Lemma ifBinding_getValue_witness :
  isFalsy (TemplateBinding_getValue sampleDef 0 xWorld) = false
  /\ ToBoolean (VStr "on") = true
  /\ getValue (TemplateIfBinding sampleDef (VStr "on")) 0 xWorld = VStr "on".
Proof.
  split; [reflexivity|]. split; [reflexivity|].
  exact (proj1 (proj2 (ifBinding_getValue sampleDef (VStr "on") 0 xWorld))
           eq_refl eq_refl).
Defined.

(** C10: when [valueIfTrue] is itself falsy for [||] (the empty string, [0],
    ...), a kept source value gives the boolean [true], not that literal;
    and whatever the binding, [getValue] is [false] or a truthy value. *)
Theorem ifBinding_falsy_valueIfTrue (def : TemplateBindingDef) (valueIfTrue : value)
    (domNode : Node) (w : World) :
  let result := getValue (TemplateIfBinding def valueIfTrue) domNode w in
  (ToBoolean valueIfTrue = false ->
   isFalsy (TemplateBinding_getValue def domNode w) = false ->
   result = VBool true)
  /\ (result = VBool false \/ ToBoolean result = true)
  /\ (isFalsy result = true -> result = VBool false).
Proof.
  cbn zeta. cbn [getValue]. unfold js_or.
  destruct (isFalsy (TemplateBinding_getValue def domNode w)),
    (ToBoolean valueIfTrue) eqn:E; repeat split; auto; try discriminate.
  - intros H. now rewrite (isFalsy_ToBoolean _ E) in H.
Qed.

Lemma ifBinding_falsy_valueIfTrue_witness :
  ToBoolean (VStr "") = false
  /\ isFalsy (TemplateBinding_getValue sampleDef 0 xWorld) = false
  /\ getValue (TemplateIfBinding sampleDef (VStr "")) 0 xWorld = VBool true.
Proof.
  split; [reflexivity|]. split; [reflexivity|].
  exact (proj1 (ifBinding_falsy_valueIfTrue sampleDef (VStr "") 0 xWorld)
           eq_refl eq_refl).
Defined.

(** ** Value schemas and subscriptions *)

Lemma try_dom_ok (f : Dom -> result Dom) (w w' : World) :
  try_dom f w = Ok w' ->
  f (dom w) = Ok (dom w') /\ host w' = host w /\ data w' = data w
  /\ listeners w' = listeners w /\ effects w' = effects w.
Proof.
  unfold try_dom. destruct (f (dom w)) as [d|e]; cbn [andThen]; [|discriminate].
  intros [= <-]. now repeat split.
Qed.

Lemma foldM_app {A S : Type} (f : S -> A -> result S) (a b : list A) (s : S) :
  foldM f (a ++ b) s = (s' <- foldM f a s ;; foldM f b s').
Proof.
  revert s. induction a as [|x a IH]; intros s; cbn [app foldM andThen]; [reflexivity|].
  destruct (f s x); cbn [andThen]; [apply IH | reflexivity].
Qed.

Lemma bindingsOf_filters (valueSchema : ValueSchema) :
  bindingsOf (filter hasObservable (filter itemNotFalsy valueSchema)) = bindingsOf valueSchema.
Proof.
  induction valueSchema as [|item l IH]; [reflexivity|].
  destruct item as [v| | |]; cbn [filter itemNotFalsy hasObservable].
  - destruct (notFalsy v); cbn [filter hasObservable]; exact IH.
  - unfold bindingsOf in *. cbn [flat_map]. now rewrite IH.
  - exact IH.
  - exact IH.
Qed.

Lemma activate_all (valueSchema : ValueSchema) (node : Node) (updater : Updater)
    (l : ValueSchema) (w : World) :
  fold_left
    (fun w item =>
       match item with
       | Binding b => activateAttributeListener b valueSchema node updater w
       | _ => w
       end) l w =
  {| host := host w; dom := dom w; data := data w;
     listeners := listeners w ++ map (subscription valueSchema node updater) (bindingsOf l);
     effects := effects w |}.
Proof.
  revert w. induction l as [|item l IH]; intros w; cbn [fold_left].
  - destruct w; cbn. now rewrite app_nil_r.
  - rewrite IH. destruct item; cbn; try reflexivity.
    now rewrite <- app_assoc.
Qed.

Lemma bindToObservable_subscribed (valueSchema : ValueSchema) (node : Node)
    (updater : Updater) (w : World) :
  _bindToObservable valueSchema node updater w =
  syncValueSchemaValue valueSchema node updater (subscribed valueSchema node updater w).
Proof.
  unfold _bindToObservable. rewrite activate_all, bindingsOf_filters. reflexivity.
Qed.

Lemma sync_ok (valueSchema : ValueSchema) (node : Node) (updater : Updater)
    (w w' : World) :
  syncValueSchemaValue valueSchema node updater w = Ok w' ->
  host w' = host w /\ data w' = data w /\ listeners w' = listeners w
  /\ effects w' = effects w.
Proof.
  unfold syncValueSchemaValue. destruct (isFalsy _); intros H;
    apply try_dom_ok in H; tauto.
Qed.

Lemma bindToObservable_ok (valueSchema : ValueSchema) (node : Node) (updater : Updater)
    (w w' : World) :
  _bindToObservable valueSchema node updater w = Ok w' ->
  host w' = host w /\ data w' = data w
  /\ listeners w' = listeners w ++ map (subscription valueSchema node updater)
                                       (bindingsOf valueSchema)
  /\ effects w' = effects w.
Proof.
  rewrite bindToObservable_subscribed. intros H. apply sync_ok in H.
  cbn [subscribed host data listeners effects] in H. tauto.
Qed.

Lemma getValueSchemaValue_app (a b : ValueSchema) (node : Node) (w : World) :
  getValueSchemaValue (a ++ b) node w =
  getValueSchemaValue a node w ++ getValueSchemaValue b node w.
Proof. apply map_app. Qed.

Lemma schemaValue_aggregate (valueSchema : ValueSchema) (node : Node) (w : World) :
  schemaValue valueSchema node w = aggregate valueSchema node w.
Proof.
  unfold schemaValue, aggregate.
  destruct valueSchema as [|[v|[d e|d v]|n l|s] [|i r]]; cbn [isSingleIfBinding];
    try apply reduce_arrayValueReducer.
  reflexivity.
Qed.











Lemma isFalsy_or_true (v : value) : isFalsy (js_or v (VBool true)) = false.
Proof.
  unfold js_or. destruct (ToBoolean v) eqn:E; [|reflexivity].
  now apply isFalsy_ToBoolean.
Qed.

(** C5: a sync computes the aggregate of the whole schema in the world as
    it is now, literals as written and each binding evaluated anew, and
    calls [remove] when it is falsy and [set] with it otherwise; a schema
    that is exactly one conditional binding hands over that binding's own
    value ([false] removes, the marker or literal is set).  The callback
    subscribed for a binding runs this sync on each change notification,
    after the callbacks registered earlier, and activating the schema ends
    with the same sync. *)
Theorem syncValueSchemaValue_recomputes (valueSchema : ValueSchema) (node : Node)
    (updater : Updater) (w : World) :
  syncValueSchemaValue valueSchema node updater w =
    (let value := aggregate valueSchema node w in
     if isFalsy value then try_dom (remove updater) w
     else try_dom (set updater value) w)
  /\ (forall before v after, valueSchema = before ++ Literal v :: after ->
        getValueSchemaValue valueSchema node w =
        getValueSchemaValue before node w ++ v :: getValueSchemaValue after node w)
  /\ (forall before b after, valueSchema = before ++ Binding b :: after ->
        getValueSchemaValue valueSchema node w =
        getValueSchemaValue before node w ++ getValue b node w
          :: getValueSchemaValue after node w)
  /\ (forall def valueIfTrue,
        syncValueSchemaValue [Binding (TemplateIfBinding def valueIfTrue)] node updater w =
        if isFalsy (TemplateBinding_getValue def node w)
        then try_dom (remove updater) w
        else try_dom (set updater (js_or valueIfTrue (VBool true))) w)
  /\ (forall b,
        let w1 := activateAttributeListener b valueSchema node updater w in
        notifyChange (observable (binding_def b)) (attribute (binding_def b)) w1 =
        (w2 <- foldM (onAttributeChange (observable (binding_def b))
                        ("change:" ++ attribute (binding_def b))%string)
                 (listeners w) w1 ;;
         syncValueSchemaValue valueSchema node updater w2))
  /\ _bindToObservable valueSchema node updater w =
     syncValueSchemaValue valueSchema node updater (subscribed valueSchema node updater w).
Proof.
  split; [|split; [|split; [|split; [|split]]]].
  - unfold syncValueSchemaValue. now rewrite schemaValue_aggregate.
  - intros before v after ->. now rewrite getValueSchemaValue_app.
  - intros before b after ->. now rewrite getValueSchemaValue_app.
  - intros def valueIfTrue. unfold syncValueSchemaValue, schemaValue.
    cbn [isSingleIfBinding getValueSchemaValue map nth getValue].
    destruct (isFalsy (TemplateBinding_getValue def node w)); [reflexivity|].
    now rewrite isFalsy_or_true.
  - intros b w1. unfold notifyChange. subst w1.
    unfold activateAttributeListener, listenTo at 1. cbn [listeners].
    rewrite foldM_app.
    destruct (foldM _ (listeners w) _) as [w2|e]; cbn [andThen]; [|reflexivity].
    cbn [foldM onAttributeChange]. rewrite Nat.eqb_refl, String.eqb_refl. cbn [andb].
    now destruct (syncValueSchemaValue valueSchema node updater w2).
  - apply bindToObservable_subscribed.
Qed.

Lemma syncValueSchemaValue_recomputes_witness :
  let b := bind_to 0 0 (Name "a") None in
  [Literal (VStr "foo"); Binding b] = [Literal (VStr "foo")] ++ Binding b :: []
  /\ getValueSchemaValue [Literal (VStr "foo"); Binding b] 0 xWorld =
     [VStr "foo"; VStr "x"].
Proof.
  cbn zeta. split; [reflexivity|].
  exact (proj1 (proj2 (proj2
           (syncValueSchemaValue_recomputes
              [Literal (VStr "foo"); Binding (bind_to 0 0 (Name "a") None)]
              0 (getTextUpdater 0) xWorld)))
           [Literal (VStr "foo")] (bind_to 0 0 (Name "a") None) [] eq_refl).
Defined.

Lemma fold_left_snoc {A B : Type} (f : A -> B -> A) (l : list B) (x : B) (a : A) :
  fold_left f (l ++ [x]) a = f (fold_left f l a) x.
Proof. now rewrite fold_left_app. Qed.

(** ** Event bindings *)

(** C9: the callback an event binding registers on an element runs on each
    native event of that name there; it does nothing when a selector is
    given and the event's target does not match it, and otherwise calls the
    configured function with the native event or, for a name, fires that
    event on the observable with the native event. *)
Theorem domEventListener_filters_by_selector (def : TemplateBindingDef)
    (eventNameOrFunction : NameOrFunction) (el : Node) (domEvtName : string)
    (domSelector : option string) (domEvt : DomEvent) (w : World) :
  let w1 := activateDomEventListener def eventNameOrFunction el domEvtName domSelector w in
  let run := onDomEvent domSelector (observable def) eventNameOrFunction domEvt in
  listeners w1 =
    listeners w ++ [DomEventListener (emitter def) el domEvtName domSelector
                      (observable def) eventNameOrFunction]
  /\ dispatchEvent el domEvtName domEvt w1 =
     run (fold_left (fun w l => onNativeEvent el domEvtName domEvt l w) (listeners w) w1)
  /\ (forall w', noSelector domSelector = true ->
        run w' = perform (triggered (observable def) eventNameOrFunction domEvt) w')
  /\ (forall w' s, domSelector = Some s -> matches (target domEvt) s = true ->
        run w' = perform (triggered (observable def) eventNameOrFunction domEvt) w')
  /\ (forall w' s, domSelector = Some s -> s <> "" -> matches (target domEvt) s = false ->
        run w' = w')
  /\ (forall f, triggered (observable def) (Function f) domEvt = Called f domEvt)
  /\ (forall name, triggered (observable def) (Name name) domEvt =
                   Fired (observable def) name domEvt).
Proof.
  cbn zeta. split; [reflexivity|]. split; [|split; [|split; [|split; [|split]]]].
  - unfold dispatchEvent, activateDomEventListener, listenTo at 1. cbn [listeners].
    rewrite fold_left_snoc. cbn [onNativeEvent].
    now rewrite Nat.eqb_refl, String.eqb_refl.
  - intros w' H. unfold onDomEvent, qualifies.
    destruct domSelector as [s|]; cbn in H; [rewrite H|];
      now destruct eventNameOrFunction.
  - intros w' s -> H. unfold onDomEvent, qualifies. rewrite H, orb_true_r.
    now destruct eventNameOrFunction.
  - intros w' s -> Hs H. unfold onDomEvent, qualifies. rewrite H.
    apply String.eqb_neq in Hs. now rewrite Hs.
  - reflexivity.
  - reflexivity.
Qed.

Lemma domEventListener_filters_by_selector_witness :
  let evt := {| target := {| target_node := 1; matches := fun _ => false |} |} in
  Some ".foo" = Some ".foo" /\ ".foo" <> "" /\ matches (target evt) ".foo" = false
  /\ onDomEvent (Some ".foo") 0 (Name "clicked") evt emptyWorld = emptyWorld.
Proof.
  cbn zeta. split; [reflexivity|]. split; [discriminate|]. split; [reflexivity|].
  refine (proj1 (proj2 (proj2 (proj2 (proj2
            (domEventListener_filters_by_selector
               {| observable := 0; emitter := 0; attribute := "clicked"; callback := None |}
               (Name "clicked") 0 "click" (Some ".foo")
               {| target := {| target_node := 1; matches := fun _ => false |} |}
               emptyWorld)))))
            emptyWorld ".foo" eq_refl _ eq_refl).
  discriminate.
Defined.

(** ** Writes to the document *)

Lemma foldM_inv {A S : Type} (f : S -> A -> result S) (P : S -> S -> Prop) :
  (forall s, P s s) ->
  (forall a b c, P a b -> P b c -> P a c) ->
  (forall s a s', f s a = Ok s' -> P s s') ->
  forall l s s', foldM f l s = Ok s' -> P s s'.
Proof.
  intros Hr Ht Hf. induction l as [|a l IH]; intros s s'; cbn [foldM].
  - intros [= <-]. apply Hr.
  - destruct (f s a) as [s1|e] eqn:E; cbn [andThen]; [|discriminate].
    intros H. exact (Ht _ _ _ (Hf _ _ _ E) (IH _ _ H)).
Qed.


Lemma foldM_returns {A S : Type} (f : S -> A -> result S) (I : S -> Prop) (l : list A) :
  (forall a, In a l -> forall s, I s -> exists s', f s a = Ok s' /\ I s') ->
  forall s, I s -> exists s', foldM f l s = Ok s' /\ I s'.
Proof.
  induction l as [|a l IH]; intros H s Hs; cbn [foldM].
  - now exists s.
  - destruct (H a (or_introl eq_refl) s Hs) as [s1 [-> H1]]. cbn [andThen].
    apply IH; [|exact H1]. intros b Hb. apply H. now right.
Qed.

Lemma update_node_shape (n : Node) (f : DomNode -> DomNode) (d : Dom) :
  (forall x, kind (f x) = kind x /\ childNodes (f x) = childNodes x) ->
  shape (update_node n f d) = shape d.
Proof.
  intros Hf. unfold shape. revert n.
  induction d as [|x d IH]; intros [|n]; cbn; try reflexivity.
  - destruct (Hf x) as [-> ->]. reflexivity.
  - now rewrite IH.
Qed.

Lemma kinds_shape (d d' : Dom) : shape d' = shape d -> kinds d' = kinds d.
Proof.
  unfold shape, kinds. intros H. apply (f_equal (map fst)) in H.
  now rewrite !map_map in H.
Qed.

Lemma kindOf_kinds (n : Node) (d : Dom) : kindOf n d = nth_error (kinds d) n.
Proof. unfold kindOf, kinds. symmetry. apply nth_error_map. Qed.

Lemma kindOf_shape (n : Node) (d d' : Dom) :
  shape d' = shape d -> kindOf n d' = kindOf n d.
Proof. intros H. rewrite !kindOf_kinds. now rewrite (kinds_shape _ _ H). Qed.

Lemma kindOf_created (k : NodeKind) (d : Dom) :
  kindOf (List.length d) (d ++ [new_node k]) = Some k.
Proof.
  unfold kindOf. now rewrite nth_error_app2, Nat.sub_diag by lia.
Qed.

Lemma update_node_last (f : DomNode -> DomNode) (d : Dom) (x : DomNode) :
  update_node (List.length d) f (d ++ [x]) = d ++ [f x].
Proof. induction d as [|y d IH]; cbn; [reflexivity | now rewrite IH]. Qed.

Lemma write_attribute_shape el namespace name v d :
  shape (write_attribute el namespace name v d) = shape d.
Proof. apply update_node_shape. now intros x. Qed.

Lemma erase_attribute_shape el namespace name d :
  shape (erase_attribute el namespace name d) = shape d.
Proof. apply update_node_shape. now intros x. Qed.

Lemma write_style_shape el styleName v d : shape (write_style el styleName v d) = shape d.
Proof. apply update_node_shape. now intros x. Qed.

Lemma write_text_shape n v d : shape (write_text n v d) = shape d.
Proof. apply update_node_shape. now intros x. Qed.

Lemma set_childNodes_kinds (n : Node) (cs : list Node) (d : Dom) :
  kinds (set_childNodes n cs d) = kinds d.
Proof.
  unfold kinds, set_childNodes. revert n.
  induction d as [|x d IH]; intros [|n]; cbn; try reflexivity. now rewrite IH.
Qed.

(** The attribute updater of an element, where it returns and where it
    throws. *)
Lemma attribute_steady (h : Host) (el : Node) (name : string) (namespace : value) :
  steady (getAttributeUpdater h el name namespace).
Proof.
  unfold steady. cbn [set remove getAttributeUpdater]. unfold setAttributeNS, removeAttributeNS.
  repeat split.
  - intros v d d'. destruct (kindOf el d) as [[| |]|]; try discriminate.
    destruct (acceptsAttribute h namespace name); [|discriminate].
    intros [= <-]. apply write_attribute_shape.
  - intros d d'. destruct (kindOf el d) as [[| |]|]; try discriminate.
    intros [= <-]. apply erase_attribute_shape.
  - intros v d e. unfold hostError. destruct (kindOf el d) as [[| |]|];
      try (intros [= <-]; auto).
    destruct (acceptsAttribute h namespace name); [discriminate|].
    intros [= <-]; auto.
  - intros d e. unfold hostError. destruct (kindOf el d) as [[| |]|];
      intros [= <-]; auto.
Qed.

Lemma style_steady (h : Host) (el : Node) (styleName : string) :
  steady (getStyleUpdater h el styleName).
Proof.
  unfold steady. cbn [set remove getStyleUpdater]. unfold set_style.
  repeat split; intros; unfold hostError;
    destruct (kindOf el d) as [[nsv tg| |]|]; try discriminate;
    try (destruct (exposesStyle h nsv tg); try discriminate);
    try match goal with
        | H : Ok _ = Ok _ |- _ => injection H as <-; apply write_style_shape
        | H : Throw _ = Throw _ |- _ => injection H as <-; auto
        end.
Qed.


Lemma set_textContent_onText (n : Node) (v : value) (d : Dom) :
  kindOf n d = Some TextNode -> set_textContent n v d = Ok (write_text n v d).
Proof. unfold set_textContent. now intros ->. Qed.

Lemma set_textContent_kinds (n : Node) (v : value) (d d' : Dom) :
  set_textContent n v d = Ok d' -> exists extra, kinds d' = kinds d ++ extra.
Proof.
  unfold set_textContent.
  assert (Hother : (if textData v =? "" then Ok (set_childNodes n [] d)
                    else let (t, d0) := create_node TextNode d in
                         Ok (set_childNodes n [t] (write_text t v d0))) = Ok d' ->
                   exists extra, kinds d' = kinds d ++ extra).
  { destruct (textData v =? "").
    - intros [= <-]. exists []. now rewrite set_childNodes_kinds, app_nil_r.
    - cbn [create_node]. intros [= <-]. exists [TextNode].
      rewrite set_childNodes_kinds, (kinds_shape _ _ (write_text_shape _ _ _)).
      unfold kinds. now rewrite map_app. }
  destruct (kindOf n d) as [[| |]|]; try exact Hother; [|discriminate].
  intros [= <-]. exists []. rewrite app_nil_r. apply kinds_shape, write_text_shape.
Qed.

(** ** What a sync does to the world *)

Lemma settled_refl (w : World) : settled w w.
Proof. now repeat split. Qed.

Lemma settled_trans (a b c : World) : settled a b -> settled b c -> settled a c.
Proof. unfold settled. intros (H1 & H2 & H3 & H4) (K1 & K2 & K3 & K4). repeat split; congruence. Qed.

Lemma sync_settled (valueSchema : ValueSchema) (node : Node) (u : Updater) (w w' : World) :
  steady u -> syncValueSchemaValue valueSchema node u w = Ok w' -> settled w w'.
Proof.
  intros (Hs & Hr & _). unfold syncValueSchemaValue.
  destruct (isFalsy _); intros H; apply try_dom_ok in H;
    destruct H as (H & Hh & Hd & _ & He); repeat split; eauto.
Qed.



Lemma bindToObservable_settled (valueSchema : ValueSchema) (node : Node) (u : Updater)
    (w w' : World) :
  steady u -> _bindToObservable valueSchema node u w = Ok w' -> settled w w'.
Proof.
  intros Hu. rewrite bindToObservable_subscribed. intros H.
  exact (sync_settled _ _ _ _ _ Hu H).
Qed.


(** A sync returns where both writes of the updater would. *)
Lemma sync_returns (valueSchema : ValueSchema) (node : Node) (u : Updater) (w : World) :
  (forall v, exists d', set u v (dom w) = Ok d') ->
  (exists d', remove u (dom w) = Ok d') ->
  exists w', syncValueSchemaValue valueSchema node u w = Ok w'.
Proof.
  intros Hs [d' Hr]. unfold syncValueSchemaValue, try_dom.
  destruct (isFalsy _).
  - rewrite Hr. cbn. eauto.
  - destruct (Hs (schemaValue valueSchema node w)) as [d1 ->]. cbn. eauto.
Qed.

Lemma bindToObservable_returns (valueSchema : ValueSchema) (node : Node) (u : Updater)
    (w : World) :
  (forall v, exists d', set u v (dom w) = Ok d') ->
  (exists d', remove u (dom w) = Ok d') ->
  exists w', _bindToObservable valueSchema node u w = Ok w'.
Proof.
  rewrite bindToObservable_subscribed. intros Hs Hr.
  now apply sync_returns.
Qed.

(** ** Attributes *)

Lemma renderStyle_settled (el : Node) (w w' : World) (style : string * SchemaItem) :
  renderStyle el w style = Ok w' -> settled w w'.
Proof.
  destruct style as [styleName styleValue]. cbn [renderStyle].
  destruct (hasTemplateBinding styleValue).
  - apply bindToObservable_settled, style_steady.
  - intros H. apply try_dom_ok in H. destruct H as (H & Hh & Hd & _ & He).
    repeat split; auto.
    exact (proj1 (style_steady (host w) el styleName) _ _ _ H).
Qed.


Lemma renderAttribute_settled (el : Node) (w w' : World) (attr : string * ValueSchema) :
  renderAttribute el w attr = Ok w' -> settled w w'.
Proof.
  destruct attr as [attrName attrValue]. unfold renderAttribute.
  destruct (existsb hasTemplateBinding attrValue).
  - apply bindToObservable_settled, attribute_steady.
  - destruct ((attrName =? "style") && headNotString attrValue).
    + apply (foldM_inv (renderStyle el) settled settled_refl settled_trans).
      intros s a s'. apply renderStyle_settled.
    + destruct (isFalsy _); [intros [= <-]; apply settled_refl|].
      intros H. apply try_dom_ok in H. destruct H as (H & Hh & Hd & _ & He).
      repeat split; auto.
      exact (proj1 (attribute_steady (host w) el attrName _) _ _ _ H).
Qed.


Lemma renderAttributes_settled (attrs : option (list (string * ValueSchema))) (el : Node)
    (w w' : World) :
  _renderAttributes attrs el w = Ok w' -> settled w w'.
Proof.
  destruct attrs as [l|]; cbn [_renderAttributes]; [|intros [= <-]; apply settled_refl].
  apply (foldM_inv (renderAttribute el) settled settled_refl settled_trans).
  intros s a s'. apply renderAttribute_settled.
Qed.


(** On an element, with the names accepted, the attributes are rendered. *)
Lemma renderStyle_returns (el : Node) (w : World) (style : string * SchemaItem)
    (nsv tg : value) :
  kindOf el (dom w) = Some (ElementNode nsv tg) ->
  exposesStyle (host w) nsv tg = true ->
  exists w', renderStyle el w style = Ok w'.
Proof.
  intros Hk Hs. destruct style as [styleName styleValue]. cbn [renderStyle].
  assert (Hset : forall v, exists d', set_style (host w) el styleName v (dom w) = Ok d').
  { intros v. unfold set_style. rewrite Hk, Hs. eauto. }
  destruct (hasTemplateBinding styleValue).
  - apply bindToObservable_returns; cbn [set remove getStyleUpdater]; auto.
  - unfold try_dom. destruct (Hset (item_value styleValue)) as [d' ->]. cbn. eauto.
Qed.

Lemma renderAttribute_returns (el : Node) (w : World) (attr : string * ValueSchema)
    (nsv tg : value) :
  kindOf el (dom w) = Some (ElementNode nsv tg) ->
  attributeAccepted (host w) nsv tg attr = true ->
  exists w', renderAttribute el w attr = Ok w'.
Proof.
  intros Hk. destruct attr as [attrName attrValue]. unfold attributeAccepted, renderAttribute.
  assert (Hset : acceptsAttribute (host w) (attributeNs attrValue) attrName = true ->
                 forall v, exists d',
                   setAttributeNS (host w) el (attributeNs attrValue) attrName v (dom w)
                   = Ok d').
  { intros Ha v. unfold setAttributeNS. rewrite Hk, Ha. eauto. }
  destruct (existsb hasTemplateBinding attrValue).
  - intros Ha. apply bindToObservable_returns; cbn [set remove getAttributeUpdater]; auto.
    unfold removeAttributeNS. rewrite Hk. eauto.
  - destruct ((attrName =? "style") && headNotString attrValue).
    + unfold _renderStyleAttribute. intros Hs.
      destruct (styleProperties (hd_error attrValue)) as [|p ps] eqn:Ep;
        [cbn; eauto|].
      assert (R : exists w', foldM (renderStyle el) (p :: ps) w = Ok w'
                       /\ settled w w').
      { apply (foldM_returns (renderStyle el) (settled w)); [|apply settled_refl].
        intros a _ s Hsw.
        destruct (renderStyle_returns el s a nsv tg) as [s' Hs'].
        - rewrite (kindOf_shape _ _ _ (proj1 Hsw)). exact Hk.
        - destruct Hsw as (_ & -> & _). exact Hs.
        - exists s'. split; [exact Hs'|].
          exact (settled_trans _ _ _ Hsw (renderStyle_settled _ _ _ _ Hs')). }
      destruct R as [w' [R _]]. eauto.
    + intros Ha. destruct (isFalsy _); [eauto|].
      unfold try_dom. destruct (Hset Ha (reduce arrayValueReducer (VStr "")
        (map item_value (flattenValues attrValue)))) as [d' ->]. cbn. eauto.
Qed.

Lemma renderAttributes_returns (attrs : option (list (string * ValueSchema))) (el : Node)
    (w : World) (nsv tg : value) :
  kindOf el (dom w) = Some (ElementNode nsv tg) ->
  attributesAccepted (host w) nsv tg attrs = true ->
  exists w', _renderAttributes attrs el w = Ok w'.
Proof.
  intros Hk Ha. destruct attrs as [l|]; cbn [_renderAttributes]; [|eauto].
  unfold attributesAccepted in Ha. cbn [orEmpty] in Ha. rewrite forallb_forall in Ha.
  assert (R : exists w', foldM (renderAttribute el) l w = Ok w' /\ settled w w').
  { apply (foldM_returns (renderAttribute el) (settled w)); [|apply settled_refl].
    intros a Hin s Hsw.
    destruct (renderAttribute_returns el s a nsv tg) as [s' Hs'].
    - rewrite (kindOf_shape _ _ _ (proj1 Hsw)). exact Hk.
    - destruct Hsw as (_ & -> & _). now apply Ha.
    - exists s'. split; [exact Hs'|].
      exact (settled_trans _ _ _ Hsw (renderAttribute_settled _ _ _ _ Hs')). }
  destruct R as [w' [R _]]. eauto.
Qed.

(** ** Text *)



(** A text template renders to a new text node on any host. *)
Lemma renderText_new (tx : ValueSchema) (w : World) :
  exists w', _renderText tx None w = Ok (List.length (dom w), w') /\ host w' = host w.
Proof.
  unfold _renderText, create. cbn [create_node fst snd].
  set (w0 := with_dom (fun d => d ++ [new_node TextNode]) w).
  assert (Hk : kindOf (List.length (dom w)) (dom w0) = Some TextNode)
    by apply kindOf_created.
  assert (Hset : forall v, set_textContent (List.length (dom w)) v (dom w0)
                           = Ok (write_text (List.length (dom w)) v (dom w0)))
    by (intros v; now apply set_textContent_onText).
  destruct (existsb hasTemplateBinding tx).
  - destruct (bindToObservable_returns tx (List.length (dom w))
                (getTextUpdater (List.length (dom w))) w0) as [w1 H1].
    + intros v. cbn [set getTextUpdater]. rewrite Hset. eauto.
    + cbn [remove getTextUpdater]. rewrite Hset. eauto.
    + rewrite H1. cbn [andThen]. exists w1. split; [reflexivity|].
      apply bindToObservable_ok in H1. tauto.
  - unfold try_dom. rewrite Hset. cbn [andThen]. eexists. split; reflexivity.
Qed.

(** ** Listeners *)

Lemma addListeners_nil (w : World) : addListeners [] w = w.
Proof. destruct w. unfold addListeners. cbn. now rewrite app_nil_r. Qed.

Lemma addListeners_app (a b : list Listener) (w : World) :
  addListeners b (addListeners a w) = addListeners (a ++ b) w.
Proof. unfold addListeners. cbn. now rewrite app_assoc. Qed.

Lemma activateItems (el : Node) (key : string) (items : ValueSchema) (w : World) :
  (forallb isEventBinding items = true ->
   foldM (activateListenerItem el (fst (splitKey key)) (snd (splitKey key))) items w
   = Ok (addListeners (registrationsFor el (key, items)) w))
  /\ (forallb isEventBinding items = false ->
      foldM (activateListenerItem el (fst (splitKey key)) (snd (splitKey key))) items w
      = Throw TypeError).
Proof.
  unfold registrationsFor. cbn [fst snd]. revert w.
  induction items as [|item items IH]; intros w; cbn [forallb foldM flat_map].
  - split; [|discriminate]. intros _. now rewrite addListeners_nil.
  - destruct item as [v|[def e|def v]|n l|s]; cbn [isEventBinding andb activateListenerItem andThen];
      try (split; [discriminate | reflexivity]).
    destruct (IH (activateDomEventListener def e el (fst (splitKey key))
                    (snd (splitKey key)) w)) as [IH1 IH2].
    split; intros H.
    + rewrite (IH1 H). unfold activateDomEventListener, listenTo.
      fold (addListeners [DomEventListener (emitter def) el (fst (splitKey key))
                            (snd (splitKey key)) (observable def) e] w).
      now rewrite addListeners_app.
    + now rewrite (IH2 H).
Qed.

Lemma setUpListeners_entries (el : Node) (l : list (string * ValueSchema)) (w : World) :
  (forallb (fun entry => forallb isEventBinding (snd entry)) l = true ->
   _setUpListeners (Some l) el w = Ok (addListeners (registrations el (Some l)) w))
  /\ (forallb (fun entry => forallb isEventBinding (snd entry)) l = false ->
      _setUpListeners (Some l) el w = Throw TypeError).
Proof.
  unfold registrations. cbn [_setUpListeners orEmpty]. revert w.
  induction l as [|[key items] l IH]; intros w; cbn [forallb foldM flat_map snd].
  - split; [|discriminate]. intros _. now rewrite addListeners_nil.
  - destruct (splitKey key) as [domEvtName domSelector] eqn:Ek.
    pose proof (activateItems el key items w) as [H1 H2].
    rewrite Ek in H1, H2. cbn [fst snd] in H1, H2.
    destruct (forallb isEventBinding items); cbn [andb].
    + rewrite (H1 eq_refl). cbn [andThen].
      destruct (IH (addListeners (registrationsFor el (key, items)) w)) as [IH1 IH2].
      split; intros H.
      * rewrite (IH1 H). now rewrite addListeners_app.
      * now rewrite (IH2 H).
    + split; [discriminate|]. intros _. now rewrite (H2 eq_refl).
Qed.

(** What activating the listeners does, in one equation. *)
Lemma setUpListeners_eq (ls : option (list (string * ValueSchema))) (el : Node) (w : World) :
  _setUpListeners ls el w =
  if listenersActivable ls then Ok (addListeners (registrations el ls) w)
  else Throw TypeError.
Proof.
  destruct ls as [l|]; cbn [listenersActivable].
  - destruct (setUpListeners_entries el l w) as [H1 H2].
    destruct (forallb (fun entry => forallb isEventBinding (snd entry)) l); auto.
  - cbn. now rewrite addListeners_nil.
Qed.

(** ** Rendering and applying *)

(** Induction on a template with the child templates as premises. *)
Lemma Template_induction (P : Template -> Prop) :
  (forall tag ns text attributes children eventListeners,
      match children with
      | Some cs => Forall (fun c => match c with ChildTemplate t => P t | _ => True end) cs
      | None => True
      end ->
      P (mkTemplate tag ns text attributes children eventListeners)) ->
  forall t, P t.
Proof.
  intros step. fix IH 1. intros [tag ns text attributes children eventListeners].
  apply step. destruct children as [cs|]; [|exact I].
  induction cs as [|c cs IHcs]; constructor.
  - destruct c; [apply IH | exact I | exact I].
  - exact IHcs.
Qed.

Lemma renderNode_eq (t : Template) (applyNode : option Node) (intoFragment : bool)
    (w : World) :
  _renderNode t applyNode intoFragment w =
  if isInvalid t applyNode then Throw InvalidDefinition
  else match text t with
       | Some text => _renderText text applyNode w
       | None => _renderElement t applyNode intoFragment w
       end.
Proof. destruct t; reflexivity. Qed.

Lemma wellFormed_eq (t : Template) :
  wellFormed t =
  if hasText t then true
  else match children t with
       | None => false
       | Some cs => forChildTemplates wellFormed cs
       end && listenersActivable (eventListeners t).
Proof. destruct t; reflexivity. Qed.

Lemma validTree_eq (t : Template) :
  validTree t = exactlyOne t && (hasText t || childrenValid t).
Proof.
  destruct t as [tg n tx a [cs|] e]; unfold childrenValid; cbn;
    destruct (hasText _); reflexivity.
Qed.

Lemma accepted_eq (h : Host) (t : Template) :
  accepted h t =
  if hasText t then true
  else
    acceptsElement h (js_or (ns t) (VStr xhtmlNs)) (tag t)
    && attributesAccepted h (js_or (ns t) (VStr xhtmlNs)) (tag t) (attributes t)
    && match children t with
       | None => true
       | Some cs => forChildTemplates (accepted h) cs
       end.
Proof. destruct t; reflexivity. Qed.

Lemma hasText_text (t : Template) :
  hasText t = match text t with Some _ => true | None => false end.
Proof. reflexivity. Qed.

Lemma exactlyOne_not_invalid (t : Template) (applyNode : option Node) :
  exactlyOne t = true -> isInvalid t applyNode = false.
Proof.
  unfold exactlyOne, isInvalid.
  destruct applyNode, (hasTag t), (hasText t); cbn; congruence.
Qed.









(** ** What [render] returns *)





Lemma setUpListeners_returns (ls : option (list (string * ValueSchema))) (el : Node)
    (w : World) :
  listenersActivable ls = true ->
  exists w', _setUpListeners ls el w = Ok w' /\ host w' = host w.
Proof.
  intros H. rewrite setUpListeners_eq, H. eexists. split; reflexivity.
Qed.

Lemma appendViews_host (container : Node) (vs : list View) (w : World) :
  host (fold_left (fun w view => with_dom (appendChild container (element view)) w)
          vs w) = host w.
Proof. revert w. induction vs as [|v vs IH]; intros w; cbn; [reflexivity | now rewrite IH]. Qed.

(** The loop over the children returns in render mode when each child
    template does. *)
Lemma renderChildrenFrom_new (h : Host) (cs : list Child) :
  Forall (fun c => match c with ChildTemplate t => rendersNew t | _ => True end) cs ->
  forChildTemplates (accepted h) cs = true ->
  forall el container childIndex w,
    host w = h ->
    exists w', renderChildrenFrom _renderNode cs el container false childIndex w = Ok w'
               /\ host w' = h.
Proof.
  unfold forChildTemplates.
  induction 1 as [|c cs Hc _ IH]; cbn [forallb]; intros Ha el container childIndex w Hh;
    cbn [renderChildrenFrom].
  - now exists w.
  - apply andb_prop in Ha. destruct Ha as [Hac Ha]. destruct c as [t|v|c].
    + destruct (Hc true w) as [w1 [-> H1]]; [now rewrite Hh|]. cbn [andThen fst snd].
      apply IH; [exact Ha|]. cbn. congruence.
    + apply IH; [exact Ha | exact Hh].
    + apply IH; [exact Ha|]. now rewrite appendViews_host.
Qed.

Lemma renderElement_new (t : Template) (intoFragment : bool) (w : World) (cs : list Child) :
  children t = Some cs ->
  Forall (fun c => match c with ChildTemplate t => rendersNew t | _ => True end) cs ->
  listenersActivable (eventListeners t) = true ->
  hasText t = false ->
  accepted (host w) t = true ->
  exists w', _renderElement t None intoFragment w = Ok (List.length (dom w), w')
             /\ host w' = host w.
Proof.
  intros Hcs Hall Hls Htx. rewrite accepted_eq, Htx, Hcs. intros Ha.
  apply andb_prop in Ha. destruct Ha as [Ha Hac]. apply andb_prop in Ha.
  destruct Ha as [Hel Hat].
  unfold _renderElement, renderElement, createElementNS. rewrite Hel, Hcs.
  unfold create. cbn [create_node fst snd andThen renderElementChildren].
  set (k := ElementNode (js_or (ns t) (VStr xhtmlNs)) (tag t)).
  set (w0 := with_dom (fun d => d ++ [new_node k]) w).
  destruct (renderAttributes_returns (attributes t) (List.length (dom w)) w0
              (js_or (ns t) (VStr xhtmlNs)) (tag t)) as [w1 H1].
  { apply kindOf_created. }
  { exact Hat. }
  rewrite H1. cbn [andThen].
  assert (Hh1 : host w1 = host w).
  { apply renderAttributes_settled in H1. destruct H1 as (_ & -> & _). reflexivity. }
  destruct intoFragment.
  - cbn [create_node fst snd].
    destruct (renderChildrenFrom_new (host w) cs Hall Hac (List.length (dom w))
                (List.length (dom w1)) 0
                (with_dom (fun d => d ++ [new_node FragmentNode]) w1) Hh1)
      as [w3 [-> H3]].
    cbn [andThen].
    destruct (setUpListeners_returns (eventListeners t) (List.length (dom w))
                (with_dom (appendChild (List.length (dom w)) (List.length (dom w1))) w3) Hls)
      as [w4 [-> H4]].
    cbn [andThen]. exists w4. split; [reflexivity|]. rewrite H4. exact H3.
  - destruct (renderChildrenFrom_new (host w) cs Hall Hac (List.length (dom w))
                (List.length (dom w)) 0 w1 Hh1) as [w3 [-> H3]].
    cbn [andThen].
    destruct (setUpListeners_returns (eventListeners t) (List.length (dom w)) w3 Hls)
      as [w4 [-> H4]].
    cbn [andThen]. exists w4. split; [reflexivity|]. congruence.
Qed.

Lemma Forall_forChildTemplates (P : Template -> Prop) (p q : Template -> bool)
    (cs : list Child) :
  Forall (fun c => match c with
                   | ChildTemplate t => p t = true -> q t = true -> P t
                   | _ => True
                   end) cs ->
  forChildTemplates p cs = true -> forChildTemplates q cs = true ->
  Forall (fun c => match c with ChildTemplate t => P t | _ => True end) cs.
Proof.
  unfold forChildTemplates.
  induction 1 as [|c cs Hc _ IH]; cbn [forallb]; intros Hp Hq; constructor.
  - apply andb_prop in Hp, Hq. destruct c; [apply Hc; tauto | exact I | exact I].
  - apply andb_prop in Hp, Hq. apply IH; tauto.
Qed.

(** A well-formed valid tree renders on a host that takes its names. *)
Lemma validTree_renders (t : Template) :
  wellFormed t = true -> validTree t = true -> rendersNew t.
Proof.
  induction t as [tg n tx a cs e IH] using Template_induction.
  rewrite wellFormed_eq, validTree_eq. intros Hwf Hv intoFragment w Hacc.
  apply andb_prop in Hv. destruct Hv as [Hone Hv].
  rewrite renderNode_eq, (exactlyOne_not_invalid _ _ Hone).
  rewrite hasText_text in Hwf, Hv. cbn [text] in *.
  destruct tx as [tx|].
  - apply renderText_new.
  - cbn [orb] in Hv. unfold childrenValid in Hv. cbn [children eventListeners] in *.
    destruct cs as [cs|]; [|discriminate].
    apply andb_prop in Hwf. destruct Hwf as [Hwf Hls].
    apply renderElement_new with (cs := cs); auto.
    now apply Forall_forChildTemplates with (p := wellFormed) (q := validTree).
Qed.

Lemma children_render (cs : list Child) :
  forChildTemplates wellFormed cs = true ->
  forChildTemplates validTree cs = true ->
  Forall (fun c => match c with ChildTemplate t => rendersNew t | _ => True end) cs.
Proof.
  apply Forall_forChildTemplates. apply Forall_forall. intros [t| |] _; auto.
  apply validTree_renders.
Qed.






(** ** What [apply] accepts *)

Lemma renderElement_node (t : Template) (applyNode : option Node) (intoFragment : bool)
    (w : World) (r : Node * World) :
  _renderElement t applyNode intoFragment w = Ok r -> fst r = renderedNode applyNode w.
Proof.
  unfold _renderElement, renderElement.
  assert (E : forall p, match applyNode with
                        | Some el => Ok (el, w)
                        | None => createElementNS (js_or (ns t) (VStr xhtmlNs)) (tag t) w
                        end = Ok p -> fst p = renderedNode applyNode w).
  { intros p. destruct applyNode as [el|]; [now intros [= <-]|].
    unfold createElementNS. destruct (acceptsElement _ _ _); [|discriminate].
    now intros [= <-]. }
  destruct (match applyNode with Some el => Ok (el, w) | None => _ end) as [[el w0]|e0];
    cbn [andThen]; [|discriminate].
  specialize (E _ eq_refl). cbn [fst] in E. subst el.
  destruct (_renderAttributes _ _ w0) as [w1|e1]; cbn [andThen]; [|discriminate].
  destruct (if intoFragment then _ else _) as [w2|e2]; cbn [andThen]; [|discriminate].
  destruct (_setUpListeners _ _ w2) as [w3|e3]; cbn [andThen]; [|discriminate].
  now intros [= <-].
Qed.





(** ** Extension *)

Lemma lookup_push (a k : string) (values : ValueSchema) (obj : list (string * ValueSchema)) :
  lookup a (push k values obj) =
  if k =? a then option_map (fun v => v ++ values) (lookup a obj) else lookup a obj.
Proof.
  induction obj as [|[k' v] obj IH]; cbn [push lookup].
  - now destruct (k =? a).
  - destruct (k' =? k) eqn:Ek; cbn [lookup].
    + apply String.eqb_eq in Ek. subst k'.
      destruct (k =? a); cbn [option_map]; reflexivity.
    + destruct (k' =? a) eqn:Ea.
      * destruct (k =? a) eqn:Eka; [|reflexivity].
        apply String.eqb_eq in Ea, Eka. subst. now rewrite String.eqb_refl in Ek.
      * exact IH.
Qed.

Lemma lookup_snoc {A : Type} (a k : string) (values : A) (obj : list (string * A)) :
  lookup a (obj ++ [(k, values)]) =
  match lookup a obj with
  | Some v => Some v
  | None => if k =? a then Some values else None
  end.
Proof.
  induction obj as [|[k' v] obj IH]; cbn [app lookup]; [reflexivity|].
  now destruct (k' =? a).
Qed.

Lemma lookup_insertIndex {A : Type} (i : N) (a b : string) (v : A) (obj : list (string * A)) :
  lookup a obj = None ->
  lookup b (insertIndex i a v obj) = if a =? b then Some v else lookup b obj.
Proof.
  induction obj as [|[k x] obj IH]; cbn [insertIndex lookup]; [reflexivity|].
  destruct (k =? a) eqn:Eka; [discriminate|]. intros Ha.
  destruct (arrayIndex k) as [j|]; [destruct (j <? i)%N|]; cbn [lookup]; try reflexivity.
  rewrite (IH Ha). destruct (k =? b) eqn:Ekb; [|reflexivity].
  apply String.eqb_eq in Ekb. subst b.
  destruct (a =? k) eqn:Eak; [|reflexivity].
  apply String.eqb_eq in Eak. subst a. now rewrite String.eqb_refl in Eka.
Qed.

(** A key that is added is found with its array, wherever among the keys
    it is put; the other keys keep theirs. *)
Lemma lookup_addKey {A : Type} (a b : string) (v : A) (obj : list (string * A)) :
  lookup a obj = None ->
  lookup b (addKey a v obj) = if a =? b then Some v else lookup b obj.
Proof.
  intros Ha. unfold addKey. destruct (arrayIndex a) as [i|].
  - now apply lookup_insertIndex.
  - rewrite lookup_snoc. destruct (lookup b obj) eqn:Eb; [|reflexivity].
    destruct (a =? b) eqn:Eab; [|reflexivity].
    apply String.eqb_eq in Eab. subst b. congruence.
Qed.

(** One key of the object one turn of the loop leaves. *)
Lemma lookup_extendEntry (b a : string) (values : ValueSchema)
    (obj obj' : list (string * ValueSchema)) :
  extendEntry obj (a, values) = Ok obj' ->
  lookup b obj' = if a =? b then Some (orNil (lookup b obj) ++ values) else lookup b obj.
Proof.
  cbn [extendEntry]. destruct (lookup a obj) as [x|] eqn:Ea.
  - intros [= <-]. rewrite lookup_push. destruct (a =? b) eqn:Eab; [|reflexivity].
    apply String.eqb_eq in Eab. subst b. now rewrite Ea.
  - destruct (inheritedKey a); [discriminate|]. intros [= <-].
    rewrite (lookup_addKey a b values obj Ea). destruct (a =? b) eqn:Eab; [|reflexivity].
    apply String.eqb_eq in Eab. subst b. now rewrite Ea.
Qed.

Lemma extendEntry_throws (obj : list (string * ValueSchema)) (entry : string * ValueSchema)
    (e : error) :
  extendEntry obj entry = Throw e ->
  e = TypeError /\ owns (fst entry) obj = false /\ inheritedKey (fst entry) = true.
Proof.
  destruct entry as [a values]. unfold owns. cbn [extendEntry fst].
  destruct (lookup a obj); [discriminate|].
  destruct (inheritedKey a); [|discriminate]. now intros [= <-].
Qed.

Lemma extendEntry_returns (obj : list (string * ValueSchema)) (entry : string * ValueSchema) :
  owns (fst entry) obj || negb (inheritedKey (fst entry)) = true ->
  exists obj', extendEntry obj entry = Ok obj'.
Proof.
  destruct entry as [a values]. unfold owns. cbn [extendEntry fst].
  destruct (lookup a obj); [eauto|]. destruct (inheritedKey a); [discriminate | eauto].
Qed.

(** The keys a later turn may fail on are the same after a turn. *)
Lemma extendEntry_owns (k : string) (obj obj' : list (string * ValueSchema))
    (entry : string * ValueSchema) :
  extendEntry obj entry = Ok obj' ->
  owns k obj' || negb (inheritedKey k) = owns k obj || negb (inheritedKey k).
Proof.
  destruct entry as [a values]. intros H. unfold owns.
  rewrite (lookup_extendEntry k a values obj obj' H).
  destruct (a =? k) eqn:Eak; [|reflexivity].
  apply String.eqb_eq in Eak. subst k. cbn [extendEntry] in H.
  destruct (lookup a obj); [reflexivity|]. now destruct (inheritedKey a).
Qed.

(** [extendObjectValueArray] goes through exactly when no key of the
    extension is one the object only inherits, and throws nothing but a
    [TypeError]. *)
Lemma extendObjectValueArray_ok (ext obj : list (string * ValueSchema)) :
  (snd (extendObjectValueArray obj ext) = None
   <-> forallb (fun entry => owns (fst entry) obj || negb (inheritedKey (fst entry))) ext
       = true)
  /\ (forall e, snd (extendObjectValueArray obj ext) = Some e -> e = TypeError).
Proof.
  revert obj. induction ext as [|entry ext IH]; intros obj;
    cbn [extendObjectValueArray forallb].
  - split; [now split | discriminate].
  - destruct (extendEntry obj entry) as [obj'|e] eqn:E.
    + destruct (IH obj') as [IH1 IH2]. split; [|exact IH2]. rewrite IH1.
      assert (Hhere : owns (fst entry) obj || negb (inheritedKey (fst entry)) = true).
      { destruct entry as [a values]. unfold owns. cbn [extendEntry fst] in *.
        destruct (lookup a obj); [reflexivity|]. now destruct (inheritedKey a). }
      rewrite Hhere. cbn [andb].
      assert (Heq : forallb (fun entry0 => owns (fst entry0) obj'
                                          || negb (inheritedKey (fst entry0))) ext
                    = forallb (fun entry0 => owns (fst entry0) obj
                                             || negb (inheritedKey (fst entry0))) ext).
      { clear -E. induction ext as [|x ext IHx]; cbn [forallb]; [reflexivity|].
        now rewrite IHx, (extendEntry_owns (fst x) obj obj' entry E). }
      now rewrite Heq.
    + destruct (extendEntry_throws _ _ _ E) as (-> & Ho & Hi). cbn [snd].
      rewrite Ho, Hi. cbn. split; [split; discriminate|]. now intros e' [= <-].
Qed.

Lemma valuesFor_absent (a : string) (ext : list (string * ValueSchema)) :
  hasKey a ext = false -> valuesFor a ext = [].
Proof.
  unfold hasKey, valuesFor. induction ext as [|[k v] ext IH]; cbn; [reflexivity|].
  destruct (k =? a); cbn; [discriminate | exact IH].
Qed.

(** One key of the object [extendObjectValueArray] leaves when it goes
    through. *)
Lemma lookup_extendObjectValueArray (a : string) (ext obj : list (string * ValueSchema)) :
  snd (extendObjectValueArray obj ext) = None ->
  lookup a (fst (extendObjectValueArray obj ext)) =
  if hasKey a ext then Some (orNil (lookup a obj) ++ valuesFor a ext)
  else lookup a obj.
Proof.
  revert obj. induction ext as [|[k values] ext IH]; intros obj;
    cbn [extendObjectValueArray]; [reflexivity|].
  destruct (extendEntry obj (k, values)) as [obj'|e] eqn:E; [|discriminate].
  intros H. rewrite (IH obj' H), (lookup_extendEntry a k values obj obj' E).
  unfold hasKey, valuesFor. cbn [existsb flat_map fst snd].
  fold (hasKey a ext). fold (valuesFor a ext).
  destruct (k =? a); cbn [orb orNil].
  - destruct (hasKey a ext) eqn:Eh.
    + now rewrite <- app_assoc.
    + now rewrite (valuesFor_absent _ _ Eh), app_nil_r.
  - reflexivity.
Qed.

(** What is left when the first key already fails. *)
Lemma extendObjectValueArray_first (obj rest : list (string * ValueSchema)) (a : string)
    (values : ValueSchema) :
  inheritedKey a = true -> lookup a obj = None ->
  extendObjectValueArray obj ((a, values) :: rest) = (obj, Some TypeError).
Proof. intros Hi Ha. cbn [extendObjectValueArray extendEntry]. now rewrite Ha, Hi. Qed.

Lemma distinct_lookup (a : string) (ext : list (string * ValueSchema)) :
  NoDup (map fst ext) ->
  hasKey a ext = (match lookup a ext with Some _ => true | None => false end)
  /\ valuesFor a ext = orNil (lookup a ext).
Proof.
  unfold hasKey, valuesFor.
  induction ext as [|[k v] ext IH]; cbn [map fst snd existsb flat_map lookup];
    intros Hnd; [now split|].
  inversion Hnd as [|? ? Hnotin Hnd']; subst.
  destruct (IH Hnd') as [IH1 IH2]. destruct (k =? a) eqn:Eka; cbn [orb orNil].
  - apply String.eqb_eq in Eka. subst k. split; [reflexivity|].
    fold (valuesFor a ext). rewrite valuesFor_absent; [apply app_nil_r|].
    unfold hasKey. apply not_true_is_false. intros H.
    apply existsb_exists in H. destruct H as [[k' v'] [Hin Hk]].
    cbn in Hk. apply String.eqb_eq in Hk. subst k'.
    apply Hnotin. change a with (fst (a, v')). now apply in_map.
  - split; assumption.
Qed.

(** The first two steps of [extendTemplate], on either property: when it
    goes through, which keys decide, the property is merged key by key. *)
Lemma extendProperty_ok (obj ext : option (list (string * ValueSchema))) :
  (snd (extendProperty obj ext) = None <-> mergeable obj ext = true)
  /\ (forall e, snd (extendProperty obj ext) = Some e -> e = TypeError)
  /\ (snd (extendProperty obj ext) = None -> distinctKeys ext ->
      forall a, lookup a (orEmpty (fst (extendProperty obj ext))) = mergedAt a obj ext).
Proof.
  unfold extendProperty, mergeable, distinctKeys, mergedAt.
  destruct ext as [ext|]; cbn [orEmpty].
  - pose proof (extendObjectValueArray_ok ext (orEmpty obj)) as [H1 H2].
    pose proof (fun a => lookup_extendObjectValueArray a ext (orEmpty obj)) as H3.
    destruct (extendObjectValueArray (orEmpty obj) ext) as [obj' e]. cbn [fst snd] in *.
    split; [exact H1|]. split; [exact H2|]. intros He Hnd a. cbn [orEmpty].
    rewrite (H3 a He). destruct (distinct_lookup a ext Hnd) as [-> ->].
    now destruct (lookup a ext), (lookup a (orEmpty obj)).
  - cbn. split; [now split|]. split; [discriminate|]. intros _ _ a.
    now destruct (lookup a (orEmpty obj)).
Qed.

Lemma extendTemplate_eq (template def : Template) :
  extendTemplate template def =
  andNext (extendProperty (attributes template) (attributes def))
    (fun a => mkTemplate (tag template) (ns template) (text template) a
                (children template) (eventListeners template))
    (fun a =>
       andNext (extendProperty (eventListeners template) (eventListeners def))
         (fun l => mkTemplate (tag template) (ns template) (text template) a
                     (children template) l)
         (fun l =>
            andNext (extendText (text template) (text def))
              (fun tx => mkTemplate (tag template) (ns template) tx a
                           (children template) l)
              (fun tx =>
                 let (cs, e) :=
                   extendChildren extendTemplate (children template) (children def) in
                 (mkTemplate (tag template) (ns template) tx a cs l, e)))).
Proof. destruct def; reflexivity. Qed.

(** The call step by step: what each step leaves and whether the next one
    is reached. *)
Lemma extendTemplate_steps (template def : Template) :
  let a := extendProperty (attributes template) (attributes def) in
  let l := extendProperty (eventListeners template) (eventListeners def) in
  let tx := extendText (text template) (text def) in
  let cs := extendChildren extendTemplate (children template) (children def) in
  let template' := fst (extendTemplate template def) in
  tag template' = tag template
  /\ ns template' = ns template
  /\ attributes template' = fst a
  /\ (snd a <> None -> snd (extendTemplate template def) = snd a
        /\ eventListeners template' = eventListeners template
        /\ text template' = text template
        /\ children template' = children template)
  /\ (snd a = None ->
        eventListeners template' = fst l
        /\ (snd l <> None -> snd (extendTemplate template def) = snd l
              /\ text template' = text template
              /\ children template' = children template)
        /\ (snd l = None ->
              text template' = fst tx
              /\ (snd tx <> None -> snd (extendTemplate template def) = snd tx
                    /\ children template' = children template)
              /\ (snd tx = None ->
                    snd (extendTemplate template def) = snd cs
                    /\ children template' = fst cs))).
Proof.
  cbn zeta. rewrite extendTemplate_eq. unfold andNext.
  destruct (extendProperty (attributes template) _) as [a [ea|]]; cbn [fst snd];
    [repeat (split || intro); try reflexivity; congruence|].
  destruct (extendProperty (eventListeners template) _) as [l [el|]]; cbn [fst snd];
    [repeat (split || intro); try reflexivity; congruence|].
  destruct (extendText _ _) as [tx [et|]]; cbn [fst snd];
    [repeat (split || intro); try reflexivity; congruence|].
  destruct (extendChildren _ _ _) as [cs ec]; cbn [fst snd].
  repeat (split || intro); try reflexivity; congruence.
Qed.

Lemma extendChildrenFrom_nth (ext : Template -> Template -> outcome Template)
    (ds cs : list Child) :
  snd (extendChildrenFrom ext cs ds) = None ->
  List.length ds <= List.length cs
  /\ List.length (fst (extendChildrenFrom ext cs ds)) = List.length cs
  /\ forall i child childDef,
       nth_error cs i = Some child -> nth_error ds i = Some childDef ->
       nth_error (fst (extendChildrenFrom ext cs ds)) i
         = Some (fst (extendChild ext child childDef))
       /\ snd (extendChild ext child childDef) = None.
Proof.
  revert cs. induction ds as [|childDef ds IH]; intros cs; cbn [extendChildrenFrom].
  - intros _. split; [cbn; lia|]. split; [reflexivity|].
    intros [|i] child childDef' _ H; discriminate.
  - destruct cs as [|child cs]; [discriminate|].
    destruct (extendChild ext child childDef) as [child' [e|]] eqn:Ec; [discriminate|].
    specialize (IH cs). destruct (extendChildrenFrom ext cs ds) as [cs' e'].
    cbn [fst snd] in *. intros He. destruct (IH He) as [Hle [Hlen Hnth]].
    split; [cbn; lia|]. split; [cbn; lia|].
    intros [|i] c d; cbn [nth_error].
    + intros [= <-] [= <-]. now rewrite Ec.
    + apply Hnth.
Qed.

Lemma compatible_eq (template def : Template) :
  compatible template def =
  mergeable (attributes template) (attributes def)
  && mergeable (eventListeners template) (eventListeners def)
  && (negb (hasText def) || hasText template)
  && match children def with
     | None => true
     | Some ds =>
         (List.length ds =? 0)%nat ||
         match children template with
         | None => false
         | Some cs =>
             (List.length cs =? List.length ds)%nat && compatibleFrom compatible cs ds
         end
     end.
Proof. destruct def; reflexivity. Qed.

Lemma extendChild_compatible (child childDef : Child) :
  match childDef with ChildTemplate def => agrees def | _ => True end ->
  snd (extendChild extendTemplate child childDef) = None
  <-> compatibleChild compatible child childDef = true.
Proof.
  unfold extendChild, compatibleChild.
  destruct childDef as [def| |]; [|now split | now split].
  intros H.
  assert (Hview : forall c : Child,
             snd (match snd (extendProperty None (attributes def)) with
                  | Some e => (c, Some e)
                  | None =>
                      match snd (extendProperty None (eventListeners def)) with
                      | Some e => (c, Some e)
                      | None =>
                          if hasText def then (c, Some TypeError)
                          else match children def with
                               | Some (_ :: _) => (c, Some TypeError)
                               | _ => (c, None)
                               end
                      end
                  end) = None
             <-> mergeable None (attributes def) && mergeable None (eventListeners def)
                 && negb (hasText def)
                 && match children def with Some (_ :: _) => false | _ => true end = true).
  { intros c.
    destruct (extendProperty_ok None (attributes def)) as [Ha _].
    destruct (extendProperty_ok None (eventListeners def)) as [Hl _].
    destruct (snd (extendProperty None (attributes def))) as [ea|].
    - destruct (mergeable None (attributes def)); [|now split].
      destruct Ha as [_ Ha]. now specialize (Ha eq_refl).
    - rewrite (proj1 Ha eq_refl). cbn [andb].
      destruct (snd (extendProperty None (eventListeners def))) as [el|].
      + destruct (mergeable None (eventListeners def)); [|now split].
        destruct Hl as [_ Hl]. now specialize (Hl eq_refl).
      + rewrite (proj1 Hl eq_refl). cbn [andb].
        destruct (hasText def); [now split|]. now destruct (children def) as [[|]|]. }
  destruct child as [template| |]; [|apply Hview | apply Hview].
  rewrite <- (H template). now destruct (extendTemplate template def).
Qed.

Lemma extendChildrenFrom_compatible (ds : list Child) :
  Forall (fun c => match c with ChildTemplate def => agrees def | _ => True end) ds ->
  forall cs,
    snd (extendChildrenFrom extendTemplate cs ds) = None
    <-> compatibleFrom compatible cs ds = true.
Proof.
  induction 1 as [|childDef ds Hd _ IH]; intros cs;
    cbn [extendChildrenFrom compatibleFrom]; [now split|].
  destruct cs as [|child cs]; [now split|].
  pose proof (extendChild_compatible child childDef Hd) as Hc.
  destruct (extendChild extendTemplate child childDef) as [child' [e|]]; cbn [snd] in *.
  - destruct (compatibleChild compatible child childDef); [|now split].
    destruct Hc as [_ Hc]. now specialize (Hc eq_refl).
  - destruct Hc as [Hc _]. rewrite (Hc eq_refl). cbn [andb].
    rewrite <- (IH cs). now destruct (extendChildrenFrom extendTemplate cs ds).
Qed.

(** The count check and the loop over the children, once text is done. *)
Lemma extendChildren_compatible (cs ds : option (list Child)) :
  match ds with
  | Some ds => Forall (fun c => match c with ChildTemplate def => agrees def | _ => True end) ds
  | None => True
  end ->
  snd (extendChildren extendTemplate cs ds) = None
  <-> match ds with
      | None => true
      | Some ds =>
          (List.length ds =? 0)%nat ||
          match cs with
          | None => false
          | Some cs =>
              (List.length cs =? List.length ds)%nat && compatibleFrom compatible cs ds
          end
      end = true.
Proof.
  unfold extendChildren. intros IH.
  destruct ds as [ds|]; [|now split].
  destruct (List.length ds =? 0)%nat; [now split|]. cbn [orb].
  destruct cs as [cs|]; [|now split].
  destruct (List.length cs =? List.length ds)%nat; cbn [negb andb]; [|now split].
  rewrite <- (extendChildrenFrom_compatible ds IH cs).
  now destruct (extendChildrenFrom extendTemplate cs ds).
Qed.

Lemma extendText_ok (tx ext : option ValueSchema) :
  (snd (extendText tx ext) = None
   <-> negb (match ext with Some _ => true | None => false end)
       || match tx with Some _ => true | None => false end = true)
  /\ (forall e, snd (extendText tx ext) = Some e -> e = TypeError).
Proof.
  destruct tx, ext; cbn; repeat split; try discriminate; try reflexivity;
    now intros e [= <-].
Qed.

(** [extendTemplate] goes through exactly on compatible pairs. *)
Lemma extendTemplate_compatible (def : Template) : agrees def.
Proof.
  induction def as [tg n tx a ds e IH] using Template_induction.
  intros template. rewrite compatible_eq.
  destruct (extendTemplate_steps template (mkTemplate tg n tx a ds e))
    as (_ & _ & _ & Hathrows & Haok).
  cbn zeta in *. cbn [attributes eventListeners text children] in *.
  destruct (extendProperty_ok (attributes template) a) as [Ha _].
  destruct (extendProperty_ok (eventListeners template) e) as [Hl _].
  destruct (extendText_ok (text template) tx) as [Ht _].
  pose proof (extendChildren_compatible (children template) ds IH) as Hc.
  unfold hasText at 1. cbn [text]. rewrite (hasText_text template).
  destruct (snd (extendProperty (attributes template) a)) as [ea|] eqn:Ea.
  { destruct (Hathrows ltac:(discriminate)) as [-> _].
    destruct (mergeable (attributes template) a); [|now split].
    destruct Ha as [_ Ha]. now specialize (Ha eq_refl). }
  rewrite (proj1 Ha eq_refl). cbn [andb].
  destruct (Haok eq_refl) as (_ & Hlthrows & Hlok).
  destruct (snd (extendProperty (eventListeners template) e)) as [el|] eqn:El.
  { destruct (Hlthrows ltac:(discriminate)) as [-> _].
    destruct (mergeable (eventListeners template) e); [|now split].
    destruct Hl as [_ Hl]. now specialize (Hl eq_refl). }
  rewrite (proj1 Hl eq_refl). cbn [andb].
  destruct (Hlok eq_refl) as (_ & Htthrows & Htok).
  destruct (snd (extendText (text template) tx)) as [et|] eqn:Et.
  { destruct (Htthrows ltac:(discriminate)) as [-> _].
    destruct (negb _ || _); [|now split].
    destruct Ht as [_ Ht]. now specialize (Ht eq_refl). }
  rewrite (proj1 Ht eq_refl). cbn [andb].
  destruct (Htok eq_refl) as [-> _]. exact Hc.
Qed.

(** C3, as stated, at a template with two children and the fragment
    [{ attributes: { class: 'b' } }], which has none: the counts differ and
    [extend] does not throw. *)
Lemma extend_without_children_counterexample :
  children twoChildren = Some [ChildTemplate helloTemplate; ChildTemplate helloTemplate]
  /\ children classFragment = Some []
  /\ snd (extend twoChildren classFragment) = None
  /\ children (fst (extend twoChildren classFragment)) = children twoChildren.
Proof. repeat split. Qed.

(** C3, amended: [extend] throws [ChildCountMismatch], leaving the children
    as they were, whenever the fragment has at least one child and the
    target has a different number of them, the steps before the count
    check being gone through: the attribute and listener keys of the
    fragment are keys the target has or does not inherit, and a fragment
    that carries text as well is taken on a target with text.  A fragment
    without children never makes it throw that error, whatever the
    target's count. *)
Theorem extend_ChildCountMismatch (template def : Template) :
  (forall cs ds,
      children template = Some cs ->
      children def = Some ds ->
      ds <> [] ->
      List.length cs <> List.length ds ->
      mergeable (attributes template) (attributes def) = true ->
      mergeable (eventListeners template) (eventListeners def) = true ->
      (hasText def = true -> hasText template = true) ->
      snd (extend template def) = Some ChildCountMismatch
      /\ children (fst (extend template def)) = Some cs)
  /\ (children def = None \/ children def = Some [] ->
      snd (extend template def) <> Some ChildCountMismatch).
Proof.
  unfold extend.
  destruct (extendTemplate_steps template def) as (_ & _ & _ & Hathrows & Haok).
  cbn zeta in *.
  destruct (extendProperty_ok (attributes template) (attributes def)) as (Ha & Hae & _).
  destruct (extendProperty_ok (eventListeners template) (eventListeners def))
    as (Hl & Hle & _).
  destruct (extendText_ok (text template) (text def)) as [Ht Hte].
  split.
  - intros cs ds Hcs Hds Hne Hlen Hma Hml Htext.
    destruct (Haok (proj2 Ha Hma)) as (_ & _ & Hlok).
    destruct (Hlok (proj2 Hl Hml)) as (_ & _ & Htok).
    assert (Et : snd (extendText (text template) (text def)) = None).
    { apply Ht. rewrite !hasText_text in Htext.
      destruct (text def); [|reflexivity]. now rewrite Htext. }
    destruct (Htok Et) as [-> ->].
    unfold extendChildren. rewrite Hcs, Hds.
    destruct ds as [|d ds]; [contradiction|]. cbn [List.length Nat.eqb].
    apply Nat.eqb_neq in Hlen. cbn [List.length] in Hlen. rewrite Hlen. now split.
  - intros Hds.
    destruct (snd (extendProperty (attributes template) (attributes def))) as [ea|] eqn:Ea.
    { destruct (Hathrows ltac:(discriminate)) as [-> _]. rewrite (Hae ea eq_refl).
      discriminate. }
    destruct (Haok eq_refl) as (_ & Hlthrows & Hlok).
    destruct (snd (extendProperty (eventListeners template) (eventListeners def)))
      as [el|] eqn:El.
    { destruct (Hlthrows ltac:(discriminate)) as [-> _]. rewrite (Hle el eq_refl).
      discriminate. }
    destruct (Hlok eq_refl) as (_ & Htthrows & Htok).
    destruct (snd (extendText (text template) (text def))) as [et|] eqn:Et.
    { destruct (Htthrows ltac:(discriminate)) as [-> _]. rewrite (Hte et eq_refl).
      discriminate. }
    destruct (Htok eq_refl) as [-> _]. unfold extendChildren.
    destruct Hds as [-> | ->]; cbn; discriminate.
Qed.

Lemma extend_ChildCountMismatch_witness :
  children twoChildren = Some [ChildTemplate helloTemplate; ChildTemplate helloTemplate]
  /\ children threeChildrenFragment =
     Some [ChildTemplate emptyTemplate; ChildTemplate emptyTemplate;
           ChildTemplate emptyTemplate]
  /\ mergeable (attributes twoChildren) (attributes threeChildrenFragment) = true
  /\ mergeable (eventListeners twoChildren) (eventListeners threeChildrenFragment) = true
  /\ snd (extend twoChildren threeChildrenFragment) = Some ChildCountMismatch.
Proof.
  split; [reflexivity|]. split; [reflexivity|]. split; [reflexivity|].
  split; [reflexivity|].
  refine (proj1 (proj1 (extend_ChildCountMismatch twoChildren threeChildrenFragment)
                   [ChildTemplate helloTemplate; ChildTemplate helloTemplate]
                   [ChildTemplate emptyTemplate; ChildTemplate emptyTemplate;
                    ChildTemplate emptyTemplate]
                   eq_refl eq_refl _ _ eq_refl eq_refl _)).
  - discriminate.
  - cbn. lia.
  - discriminate.
Defined.

(** C7, where the code departs from it: an attribute (or listener) key of
    the fragment that the target does not have, and that every object
    inherits from [Object.prototype], is not added: [obj[ a ]] reads the
    inherited function, [push] is missing on it, and the call ends with a
    [TypeError] before the listeners, the text and the children are looked
    at, whatever the counts of children.  Extending
    [{ tag: 'p', attributes: { class: 'foo' } }] with
    [{ attributes: { toString: 'x' } }], both without children, leaves the
    template as it was. *)
Theorem extend_inherited_key_TypeError (template def : Template) :
  (mergeable (attributes template) (attributes def) = false ->
     snd (extend template def) = Some TypeError
     /\ eventListeners (fst (extend template def)) = eventListeners template
     /\ text (fst (extend template def)) = text template
     /\ children (fst (extend template def)) = children template)
  /\ (forall a values rest,
        attributes def = Some ((a, values) :: rest) ->
        inheritedKey a = true ->
        lookup a (orEmpty (attributes template)) = None ->
        extend template def
        = (mkTemplate (tag template) (ns template) (text template)
             (Some (orEmpty (attributes template))) (children template)
             (eventListeners template),
           Some TypeError))
  /\ (option_map (@List.length Child) (children plainParagraph)
      = option_map (@List.length Child) (children toStringFragment)
      /\ extend plainParagraph toStringFragment = (plainParagraph, Some TypeError)).
Proof.
  unfold extend. split; [|split].
  - intros Hm.
    destruct (extendTemplate_steps template def) as (_ & _ & _ & Hathrows & _).
    cbn zeta in *.
    destruct (extendProperty_ok (attributes template) (attributes def)) as (Ha & Hae & _).
    destruct (snd (extendProperty (attributes template) (attributes def))) as [ea|] eqn:Ea.
    + destruct (Hathrows ltac:(discriminate)) as (-> & Hl & Ht & Hc).
      now rewrite (Hae ea eq_refl).
    + rewrite (proj1 Ha eq_refl) in Hm. discriminate.
  - intros a values rest Hdef Hi Ha. rewrite extendTemplate_eq, Hdef.
    unfold extendProperty at 1.
    now rewrite (extendObjectValueArray_first _ rest a values Hi Ha).
  - split; reflexivity.
Qed.

Lemma extend_inherited_key_TypeError_witness :
  mergeable (attributes plainParagraph) (attributes toStringFragment) = false
  /\ snd (extend plainParagraph toStringFragment) = Some TypeError.
Proof.
  split; [reflexivity|].
  exact (proj1 (proj1 (extend_inherited_key_TypeError plainParagraph toStringFragment)
                  eq_refl)).
Defined.

(** ** The constructor *)

(** Induction on a definition with the child definitions as premises. *)
Lemma TemplateDefinition_induction (P : TemplateDefinition -> Prop) :
  (forall s, P (PlainText s)) ->
  (forall tag ns text on, P (TextDefinition tag ns text on)) ->
  (forall tag ns attributes children on,
      match children with
      | Some (ChildArray l) =>
          Forall (fun c => match c with ChildDefinition d => P d | _ => True end) l
      | _ => True
      end ->
      P (ElementDefinition tag ns attributes children on)) ->
  (forall p, P (NotADefinition p)) ->
  forall def, P def.
Proof.
  intros Hs Ht He Hp. fix IH 1. intros [s|tag ns text on|tag ns attributes children on|p].
  - apply Hs.
  - apply Ht.
  - apply He. destruct children as [[l|c]|]; try exact I.
    induction l as [|c l IHl]; constructor.
    + destruct c; [apply IH | exact I].
    + exact IHl.
  - apply Hp.
Qed.

Lemma normalizeAttributes_throws (attrs : list (string * RawSchema)) :
  (existsb (fun entry => negb (readable (snd entry))) attrs = true ->
   normalizeAttributes attrs = Throw TypeError)
  /\ (existsb (fun entry => negb (readable (snd entry))) attrs = false ->
      normalizeAttributes attrs = Ok (map (fun e => (fst e, arrayify (snd e))) attrs)).
Proof.
  induction attrs as [|[a v] attrs [IH1 IH2]]; cbn [existsb normalizeAttributes map fst snd].
  - split; [discriminate | reflexivity].
  - destruct (readable v); cbn [negb orb]; split; try reflexivity; try discriminate.
    + intros H. now rewrite (IH1 H).
    + intros H. now rewrite (IH2 H).
Qed.

Lemma addChildren_throws (l : list RawChild) :
  Forall (fun c => match c with
                   | ChildDefinition d =>
                       (hasUnreadableAttribute d || holdsPrimitive d = true ->
                        normalize d = Throw TypeError)
                       /\ (hasUnreadableAttribute d || holdsPrimitive d = false ->
                           exists t, normalize d = Ok t)
                   | _ => True
                   end) l ->
  (existsb childUnreadable l || existsb childHoldsPrimitive l = true ->
   addChildren normalize l = Throw TypeError)
  /\ (existsb childUnreadable l || existsb childHoldsPrimitive l = false ->
      exists cs, addChildren normalize l = Ok cs
                 /\ Forall2 becomes l cs).
Proof.
  induction 1 as [|c l Hc _ [IH1 IH2]]; cbn [existsb addChildren].
  - split; [discriminate|]. intros _. exists []. split; [reflexivity | constructor].
  - destruct c as [d|v]; cbn [childUnreadable childHoldsPrimitive].
    + destruct Hc as [Hc1 Hc2].
      replace ((hasUnreadableAttribute d || existsb childUnreadable l)
               || (holdsPrimitive d || existsb childHoldsPrimitive l))
        with ((hasUnreadableAttribute d || holdsPrimitive d)
              || (existsb childUnreadable l || existsb childHoldsPrimitive l))
        by (destruct (hasUnreadableAttribute d), (holdsPrimitive d),
              (existsb childUnreadable l); reflexivity).
      destruct (hasUnreadableAttribute d || holdsPrimitive d); cbn [orb].
      * split; [|discriminate]. intros _. now rewrite (Hc1 eq_refl).
      * destruct (Hc2 eq_refl) as [t Ht]. rewrite Ht. cbn [andThen]. split.
        -- intros H. now rewrite (IH1 H).
        -- intros H. destruct (IH2 H) as [cs [-> Hcs]]. cbn [andThen].
           exists (ChildTemplate t :: cs). split; [reflexivity|].
           constructor; [|exact Hcs]. cbn. exists t. now split.
    + cbn [orb]. split.
      * intros H. now rewrite (IH1 H).
      * intros H. destruct (IH2 H) as [cs [-> Hcs]]. cbn [andThen].
        exists (ChildView v :: cs). split; [reflexivity|].
        constructor; [reflexivity | exact Hcs].
Qed.

Lemma normalize_eq (def : TemplateDefinition) :
  normalize def =
  match def with
  | PlainText s => Ok (normalizePlainTextDefinition s)
  | TextDefinition tag ns text on =>
      let eventListeners := option_map normalizeListeners on in
      if rawTruthy text
      then Ok (mkTemplate tag ns (Some (normalizeTextDefinition text)) None None
                 eventListeners)
      else Ok (mkTemplate tag ns None None (Some []) eventListeners)
  | ElementDefinition tag ns attributes children on =>
      let eventListeners := option_map normalizeListeners on in
      attributes <- match attributes with
                    | Some attrs => attrs <- normalizeAttributes attrs ;; Ok (Some attrs)
                    | None => Ok None
                    end ;;
      children <- collectChildren normalize children ;;
      Ok (mkTemplate tag ns None attributes (Some children) eventListeners)
  | NotADefinition _ => Throw TypeError
  end.
Proof. destruct def; reflexivity. Qed.

Lemma hasUnreadableAttribute_eq tag ns attributes children on :
  hasUnreadableAttribute (ElementDefinition tag ns attributes children on)
  = unreadableIn attributes
    || match children with
       | Some (ChildArray l) => existsb childUnreadable l
       | _ => false
       end.
Proof. reflexivity. Qed.

Lemma holdsPrimitive_eq tag ns attributes children on :
  holdsPrimitive (ElementDefinition tag ns attributes children on)
  = match children with
    | Some (ChildArray l) => existsb childHoldsPrimitive l
    | _ => false
    end.
Proof. now destruct children as [[l|c]|]. Qed.

(** The normalizer throws a [TypeError] on an attribute it cannot read and
    on a primitive, and returns otherwise. *)
Lemma normalize_decides (def : TemplateDefinition) :
  (hasUnreadableAttribute def || holdsPrimitive def = true ->
   normalize def = Throw TypeError)
  /\ (hasUnreadableAttribute def || holdsPrimitive def = false ->
      exists t, normalize def = Ok t).
Proof.
  induction def as [s|tag ns text on|tag ns attributes children on IH|p]
    using TemplateDefinition_induction.
  - split; [discriminate|]. intros _. eexists. reflexivity.
  - split; [discriminate|]. intros _. cbn. destruct (rawTruthy text); eexists; reflexivity.
  - rewrite normalize_eq, hasUnreadableAttribute_eq, holdsPrimitive_eq. cbn zeta.
    assert (Ha : (unreadableIn attributes = true ->
                  match attributes with
                  | Some attrs => attrs <- normalizeAttributes attrs ;; Ok (Some attrs)
                  | None => Ok None
                  end = Throw TypeError)
                 /\ (unreadableIn attributes = false ->
                     exists a, match attributes with
                               | Some attrs =>
                                   attrs <- normalizeAttributes attrs ;; Ok (Some attrs)
                               | None => Ok None
                               end = Ok a)).
    { destruct attributes as [attrs|]; cbn [unreadableIn].
      - destruct (normalizeAttributes_throws attrs) as [H1 H2]. split; intros H.
        + now rewrite (H1 H).
        + rewrite (H2 H). cbn. eauto.
      - split; [discriminate | eauto]. }
    destruct Ha as [Ha1 Ha2]. destruct (unreadableIn attributes); cbn [orb].
    + split; [|discriminate]. intros _. now rewrite (Ha1 eq_refl).
    + destruct (Ha2 eq_refl) as [a ->]. cbn [andThen].
      destruct children as [[l|c]|]; cbn [collectChildren andThen].
      * destruct (addChildren_throws l IH) as [H1 H2]. split; intros H.
        -- now rewrite (H1 H).
        -- destruct (H2 H) as [cs [-> _]]. cbn. eauto.
      * split; [discriminate | eauto].
      * split; [discriminate | eauto].
  - split; [reflexivity | discriminate].
Qed.

(** X1: the constructor throws nothing but a [TypeError], and throws it
    exactly when the definition or a child definition, at any depth, is a
    primitive ([null], [undefined], a boolean, a number), or an attribute
    of an element definition is [null] or [undefined]; a string and a text
    definition always give a template. *)
Theorem newTemplate_throws (def : TemplateDefinition) :
  (newTemplate def = Throw TypeError
   <-> hasUnreadableAttribute def = true \/ holdsPrimitive def = true)
  /\ (forall e, newTemplate def = Throw e -> e = TypeError)
  /\ (hasUnreadableAttribute def = false -> holdsPrimitive def = false ->
      exists t, newTemplate def = Ok t)
  /\ (forall s, exists t, newTemplate (PlainText s) = Ok t)
  /\ (forall tag ns text on, exists t, newTemplate (TextDefinition tag ns text on) = Ok t)
  /\ (forall p, newTemplate (NotADefinition p) = Throw TypeError).
Proof.
  unfold newTemplate, clone. destruct (normalize_decides def) as [H1 H2].
  split; [split|split; [|split; [|split; [|split]]]].
  - intros H. destruct (hasUnreadableAttribute def); [now left|].
    destruct (holdsPrimitive def); [now right|].
    destruct (H2 eq_refl) as [t Ht]. congruence.
  - intros H. apply H1. apply orb_true_iff. exact H.
  - intros e He. destruct (hasUnreadableAttribute def || holdsPrimitive def).
    + rewrite (H1 eq_refl) in He. congruence.
    + destruct (H2 eq_refl) as [t Ht]. congruence.
  - intros Hu Hp. apply H2. now rewrite Hu, Hp.
  - intros s. exact (proj2 (normalize_decides (PlainText s)) eq_refl).
  - intros tag ns text on.
    exact (proj2 (normalize_decides (TextDefinition tag ns text on)) eq_refl).
  - reflexivity.
Qed.

Lemma newTemplate_throws_witness :
  hasUnreadableAttribute nullChildDefinition = false
  /\ holdsPrimitive nullChildDefinition = true
  /\ newTemplate nullChildDefinition = Throw TypeError.
Proof.
  split; [reflexivity|]. split; [reflexivity|].
  exact (proj2 (proj1 (newTemplate_throws nullChildDefinition)) (or_intror eq_refl)).
Defined.

Lemma addChildren_becomes (l : list RawChild) (cs : list Child) :
  addChildren normalize l = Ok cs -> Forall2 becomes l cs.
Proof.
  revert cs. induction l as [|c l IH]; intros cs; cbn [addChildren].
  - intros [= <-]. constructor.
  - destruct c as [d|v].
    + destruct (normalize d) as [t|e] eqn:Ed; cbn [andThen]; [|discriminate].
      destruct (addChildren normalize l) as [cs'|e]; cbn [andThen]; [|discriminate].
      intros [= <-]. constructor; [|now apply IH]. cbn. exists t. now split.
    + destruct (addChildren normalize l) as [cs'|e]; cbn [andThen]; [|discriminate].
      intros [= <-]. constructor; [reflexivity | now apply IH].
Qed.

Lemma normalize_element (tag ns : value) (attributes : option (list (string * RawSchema)))
    (children : option RawChildren) (on : option (list (string * RawSchema)))
    (t : Template) :
  normalize (ElementDefinition tag ns attributes children on) = Ok t ->
  exists attrs cs,
    t = mkTemplate tag ns None attrs (Some cs) (option_map normalizeListeners on)
    /\ collectChildren normalize children = Ok cs
    /\ match attributes with
       | Some a => attrs = Some (map (fun e => (fst e, arrayify (snd e))) a)
       | None => attrs = None
       end.
Proof.
  rewrite normalize_eq. cbn zeta.
  assert (Ha : forall a, match attributes with
                         | Some attrs => attrs <- normalizeAttributes attrs ;; Ok (Some attrs)
                         | None => Ok None
                         end = Ok a ->
                         match attributes with
                         | Some x => a = Some (map (fun e => (fst e, arrayify (snd e))) x)
                         | None => a = None
                         end).
  { intros a. destruct attributes as [x|]; [|now intros [= <-]].
    destruct (normalizeAttributes_throws x) as [H1 H2].
    destruct (existsb _ x).
    - now rewrite (H1 eq_refl).
    - rewrite (H2 eq_refl). cbn. now intros [= <-]. }
  destruct (match attributes with Some _ => _ | None => _ end) as [a|e];
    cbn [andThen]; [|discriminate].
  destruct (collectChildren normalize children) as [cs|e]; cbn [andThen]; [|discriminate].
  intros [= <-]. exists a, cs. split; [reflexivity|]. split; [reflexivity|]. now apply Ha.
Qed.

(** X2: the template the constructor builds from an element definition
    keeps [tag] and [ns], has no text, has every attribute under its key, in
    the order given, as an array (a single value is wrapped, an array is
    kept), and always has a children collection: one entry per child in the
    order given (a view as it is, a definition as the template built from
    it), a view collection as a single entry, and no entry when [children]
    is not given. *)
Theorem newTemplate_element (tg n : value)
    (rawAttributes : option (list (string * RawSchema)))
    (rawChildren : option RawChildren)
    (on : option (list (string * RawSchema))) (t : Template) :
  newTemplate (ElementDefinition tg n rawAttributes rawChildren on) = Ok t ->
  tag t = tg /\ ns t = n /\ text t = None
  /\ attributes t
     = option_map (map (fun e => (fst e, arrayify (snd e)))) rawAttributes
  /\ option_map (map fst) (attributes t) = option_map (map fst) rawAttributes
  /\ exists cs,
       children t = Some cs
       /\ match rawChildren with
          | Some (ChildArray l) => Forall2 becomes l cs
          | Some (ChildCollection c) => cs = [ChildViewCollection c]
          | None => cs = []
          end.
Proof.
  unfold newTemplate, clone. intros H.
  destruct (normalize_element _ _ _ _ _ _ H) as (attrs & cs & -> & Hcs & Ha).
  cbn [tag ns text attributes children].
  assert (E : attrs = option_map (map (fun e => (fst e, arrayify (snd e)))) rawAttributes).
  { destruct rawAttributes; exact Ha. }
  split; [reflexivity|]. split; [reflexivity|]. split; [reflexivity|].
  split; [exact E|]. split.
  - rewrite E. destruct rawAttributes as [a|]; [|reflexivity]. cbn [option_map].
    rewrite map_map. reflexivity.
  - exists cs. split; [reflexivity|].
    destruct rawChildren as [[l|c]|]; cbn [collectChildren] in Hcs.
    + now apply addChildren_becomes.
    + now injection Hcs as <-.
    + now injection Hcs as <-.
Qed.

Lemma newTemplate_element_witness :
  exists t,
    newTemplate paragraphDefinition = Ok t
    /\ option_map (map fst) (attributes t) = Some ["class"]
    /\ exists cs, children t = Some cs
                  /\ Forall2 becomes [ChildDefinition (PlainText "hello")] cs.
Proof.
  exists paragraph. split; [reflexivity|].
  pose proof (newTemplate_element (VStr "p") VUndefined
                (Some [("class", One (Literal (VStr "foo")))])
                (Some (ChildArray [ChildDefinition (PlainText "hello")])) None
                paragraph eq_refl) as H.
  split; [exact (proj1 (proj2 (proj2 (proj2 (proj2 H)))))|].
  exact (proj2 (proj2 (proj2 (proj2 (proj2 H))))).
Defined.







(** ** More on extension *)

Lemma template_eta (t : Template) :
  mkTemplate (tag t) (ns t) (text t) (attributes t) (children t) (eventListeners t) = t.
Proof. now destruct t. Qed.

(** X7: extending with a definition that has neither attributes, listeners,
    text nor children changes nothing and throws nothing, whatever the tag
    and the namespace the definition names: those are never carried over. *)
Theorem extend_with_bare_definition (template : Template) (tg n : value) :
  Template_extend template (ElementDefinition tg n None None None) = (template, None).
Proof.
  unfold Template_extend, clone. cbn [normalize andThen collectChildren option_map].
  rewrite extendTemplate_eq. cbn. now rewrite template_eta.
Qed.

(** X8: extending a template with a string appends the string to its text
    and touches nothing else; on a template without text it throws a
    [TypeError] and leaves the template as it was. *)
Theorem extend_with_string (template : Template) (s : string) :
  (forall x, text template = Some x ->
     Template_extend template (PlainText s)
     = (mkTemplate (tag template) (ns template) (Some (x ++ [Literal (VStr s)]))
          (attributes template) (children template) (eventListeners template),
        None))
  /\ (text template = None ->
      Template_extend template (PlainText s) = (template, Some TypeError)).
Proof.
  destruct template as [tg n tx a cs e].
  unfold Template_extend, clone. cbn [normalize normalizePlainTextDefinition].
  rewrite extendTemplate_eq. cbn. split.
  - intros x ->. reflexivity.
  - intros ->. reflexivity.
Qed.

Lemma extend_with_string_witness :
  text helloTemplate = Some [Literal (VStr "hello")]
  /\ Template_extend helloTemplate (PlainText "!")
     = (mkTemplate VUndefined VUndefined
          (Some [Literal (VStr "hello"); Literal (VStr "!")]) None None None, None).
Proof.
  split; [reflexivity|].
  exact (proj1 (extend_with_string helloTemplate "!") [Literal (VStr "hello")] eq_refl).
Defined.

Lemma extendText_hasText (tx ext : option ValueSchema) :
  match fst (extendText tx ext) with Some _ => true | None => false end
  = match tx with Some _ => true | None => false end.
Proof. now destruct tx, ext. Qed.

Lemma extendChild_validTree (child childDef : Child) :
  match childDef with ChildTemplate def => keepsOutline def | _ => True end ->
  match fst (extendChild extendTemplate child childDef) with
  | ChildTemplate t => validTree t
  | _ => true
  end = match child with ChildTemplate t => validTree t | _ => true end.
Proof.
  intros Hd. unfold extendChild. destruct childDef as [def| |]; try reflexivity.
  assert (Hview : forall c : Child,
             fst (match snd (extendProperty None (attributes def)) with
                  | Some e => (c, Some e)
                  | None =>
                      match snd (extendProperty None (eventListeners def)) with
                      | Some e => (c, Some e)
                      | None =>
                          if hasText def then (c, Some TypeError)
                          else match children def with
                               | Some (_ :: _) => (c, Some TypeError)
                               | _ => (c, None)
                               end
                      end
                  end) = c).
  { intros c. destruct (snd (extendProperty None (attributes def))); [reflexivity|].
    destruct (snd (extendProperty None (eventListeners def))); [reflexivity|].
    destruct (hasText def); [reflexivity|]. now destruct (children def) as [[|]|]. }
  destruct child as [template| |]; try now rewrite Hview.
  destruct (Hd template) as (_ & _ & _ & Hv).
  now destruct (extendTemplate template def).
Qed.

Lemma extendChildrenFrom_outline (ds : list Child) :
  Forall (fun c => match c with ChildTemplate def => keepsOutline def | _ => True end) ds ->
  forall cs,
    List.length (fst (extendChildrenFrom extendTemplate cs ds)) = List.length cs
    /\ forChildTemplates validTree (fst (extendChildrenFrom extendTemplate cs ds))
       = forChildTemplates validTree cs.
Proof.
  unfold forChildTemplates.
  induction 1 as [|childDef ds Hd _ IH]; intros cs; cbn [extendChildrenFrom].
  - now split.
  - destruct cs as [|child cs]; [now split|].
    pose proof (extendChild_validTree child childDef Hd) as Hc.
    destruct (extendChild extendTemplate child childDef) as [child' [e|]];
      cbn [fst] in Hc.
    + cbn [fst List.length forallb]. now rewrite Hc.
    + destruct (IH cs) as [IHl IHv].
      destruct (extendChildrenFrom extendTemplate cs ds) as [cs' e'].
      cbn [fst List.length forallb] in *. now rewrite Hc, IHl, IHv.
Qed.

Lemma extendChildren_outline (cs ds : option (list Child)) :
  match ds with
  | Some ds =>
      Forall (fun c => match c with ChildTemplate def => keepsOutline def | _ => True end) ds
  | None => True
  end ->
  option_map (@List.length Child) (fst (extendChildren extendTemplate cs ds))
  = option_map (@List.length Child) cs
  /\ match fst (extendChildren extendTemplate cs ds) with
     | Some cs' => forChildTemplates validTree cs'
     | None => true
     end = match cs with Some cs => forChildTemplates validTree cs | None => true end.
Proof.
  intros IH. unfold extendChildren. destruct ds as [ds|]; cbn [fst]; [|now split].
  destruct (List.length ds =? 0)%nat; cbn [fst]; [now split|].
  destruct cs as [cs|]; cbn [fst]; [|now split].
  destruct (negb (List.length cs =? List.length ds)%nat); cbn [fst]; [now split|].
  destruct (extendChildrenFrom_outline ds IH cs) as [Hl Hv].
  destruct (extendChildrenFrom extendTemplate cs ds) as [cs' e'].
  cbn [fst option_map] in *. now rewrite Hl, Hv.
Qed.

Lemma extendTemplate_outline (def : Template) : keepsOutline def.
Proof.
  induction def as [tg n tx a ds e IH] using Template_induction.
  intros template. cbn zeta.
  destruct (extendTemplate_steps template (mkTemplate tg n tx a ds e))
    as (Htag & _ & _ & Hathrows & Haok).
  cbn zeta in *. cbn [attributes eventListeners text children] in *.
  set (template' := fst (extendTemplate template (mkTemplate tg n tx a ds e))) in *.
  assert (Hh : hasTag template' = hasTag template) by (unfold hasTag; now rewrite Htag).
  destruct (extendChildren_outline (children template) ds IH) as [Hcl Hcv].
  assert (H : text template' = text template /\ children template' = children template
              \/ hasText template' = hasText template
                 /\ children template'
                    = fst (extendChildren extendTemplate (children template) ds)).
  { destruct (snd (extendProperty (attributes template) a)) as [ea|].
    { left. destruct (Hathrows ltac:(discriminate)). tauto. }
    destruct (Haok eq_refl) as (_ & Hlthrows & Hlok).
    destruct (snd (extendProperty (eventListeners template) e)) as [el|].
    { left. destruct (Hlthrows ltac:(discriminate)). tauto. }
    destruct (Hlok eq_refl) as (Htx & Htthrows & Htok).
    assert (Hht : hasText template' = hasText template).
    { rewrite !hasText_text, Htx. apply extendText_hasText. }
    destruct (snd (extendText (text template) tx)) as [et|] eqn:Et.
    - destruct (Htthrows ltac:(discriminate)) as [_ Hc].
      destruct tx as [tx|]; [|discriminate].
      destruct (text template) as [tt|] eqn:Ett; [discriminate|].
      left. split; [|exact Hc]. now rewrite Htx.
    - right. split; [exact Hht|]. exact (proj2 (Htok eq_refl)). }
  assert (Hht : hasText template' = hasText template).
  { destruct H as [[Ht _] | [Ht _]]; [|exact Ht]. now rewrite !hasText_text, Ht. }
  assert (Hlen : option_map (@List.length Child) (children template')
                 = option_map (@List.length Child) (children template)).
  { destruct H as [[_ ->] | [_ ->]]; [reflexivity | exact Hcl]. }
  assert (Hcval : childrenValid template' = childrenValid template).
  { unfold childrenValid. destruct H as [[_ ->] | [_ ->]]; [reflexivity | exact Hcv]. }
  split; [exact Hh|]. split; [exact Hht|]. split; [exact Hlen|].
  rewrite !validTree_eq. unfold exactlyOne. now rewrite Hh, Hht, Hcval.
Qed.

(** X9: whatever the definition, and whether the call throws or not,
    [Template.extend] leaves a template that has a tag, has text and is a
    valid tree exactly when the template had, was and did before, with the
    same number of children: a template that rendered without
    [InvalidDefinition] before still does. *)
Theorem extend_keeps_validity (template : Template) (def : TemplateDefinition) :
  let template' := fst (Template_extend template def) in
  hasTag template' = hasTag template
  /\ hasText template' = hasText template
  /\ option_map (@List.length Child) (children template')
     = option_map (@List.length Child) (children template)
  /\ validTree template' = validTree template.
Proof.
  cbn zeta. unfold Template_extend.
  destruct (normalize (clone def)) as [d|e]; [|now repeat split].
  apply extendTemplate_outline.
Qed.

(** X15: [Template.extend] normalizes the definition before it writes
    anything: with a definition that has a [null] or [undefined] attribute
    somewhere it throws the [TypeError] of the normalizer and leaves the
    template exactly as it was. *)
Theorem extend_with_unreadable_definition (template : Template) (def : TemplateDefinition) :
  hasUnreadableAttribute def = true ->
  Template_extend template def = (template, Some TypeError).
Proof.
  intros H. unfold Template_extend, clone.
  rewrite (proj1 (normalize_decides def)); [reflexivity|]. now rewrite H.
Qed.

Lemma extend_with_unreadable_definition_witness :
  hasUnreadableAttribute nullClassDefinition = true
  /\ Template_extend paragraph nullClassDefinition = (paragraph, Some TypeError).
Proof.
  split; [reflexivity|].
  exact (extend_with_unreadable_definition paragraph nullClassDefinition eq_refl).
Defined.

(** X17: where the attribute and listener keys of the fragment are keys the
    target has or does not inherit, [extend] merges attributes and
    listeners key by key: on a key both have, the target's array followed
    by the fragment's; a key only the fragment has comes with the
    fragment's array as it is, and text of the fragment is appended to the
    target's text.  [tag] and [ns] are left alone.  The call throws
    nothing exactly on compatible pairs (such keys, text only meeting
    text, and the counts of children matching wherever the fragment has
    some, all the way down), and then each child of the fragment has
    extended the target's child at the same position, by the same
    [extendTemplate] when both are templates. *)
Theorem extend_merges_key_by_key (template def : Template) :
  let template' := fst (extend template def) in
  tag template' = tag template
  /\ ns template' = ns template
  /\ (mergeable (attributes template) (attributes def) = true ->
      distinctKeys (attributes def) ->
      forall a, lookup a (orEmpty (attributes template'))
                = mergedAt a (attributes template) (attributes def))
  /\ (mergeable (attributes template) (attributes def) = true ->
      mergeable (eventListeners template) (eventListeners def) = true ->
      (distinctKeys (eventListeners def) ->
       forall a, lookup a (orEmpty (eventListeners template'))
                 = mergedAt a (eventListeners template) (eventListeners def))
      /\ (text def = None -> text template' = text template)
      /\ (forall x y, text template = Some x -> text def = Some y ->
            text template' = Some (x ++ y)))
  /\ (snd (extend template def) = None <-> compatible template def = true)
  /\ (snd (extend template def) = None ->
      forall ds, children def = Some ds -> ds <> [] ->
        exists cs cs',
          children template = Some cs /\ children template' = Some cs'
          /\ List.length cs = List.length ds /\ List.length cs' = List.length ds
          /\ forall i child childDef,
               nth_error cs i = Some child -> nth_error ds i = Some childDef ->
               nth_error cs' i = Some (fst (extendChild extendTemplate child childDef))
               /\ snd (extendChild extendTemplate child childDef) = None)
  /\ (snd (extend template def) = None ->
      children def = None \/ children def = Some [] ->
      children template' = children template)
  /\ (forall t d,
        extendChild extendTemplate (ChildTemplate t) (ChildTemplate d)
        = (ChildTemplate (fst (extendTemplate t d)), snd (extendTemplate t d))).
Proof.
  cbn zeta. unfold extend.
  destruct (extendTemplate_steps template def) as (Htag & Hns & Hattrs & Hathrows & Haok).
  cbn zeta in *.
  destruct (extendProperty_ok (attributes template) (attributes def)) as (Ha & _ & Halook).
  destruct (extendProperty_ok (eventListeners template) (eventListeners def))
    as (Hl & _ & Hllook).
  destruct (extendText_ok (text template) (text def)) as [Ht _].
  assert (Hreach : snd (extendTemplate template def) = None ->
            snd (extendChildren extendTemplate (children template) (children def)) = None
            /\ children (fst (extendTemplate template def))
               = fst (extendChildren extendTemplate (children template) (children def))).
  { intros Hok.
    destruct (snd (extendProperty (attributes template) (attributes def))) as [ea|] eqn:Ea.
    { destruct (Hathrows ltac:(discriminate)) as [E _]. congruence. }
    destruct (Haok eq_refl) as (_ & Hlthrows & Hlok).
    destruct (snd (extendProperty (eventListeners template) (eventListeners def)))
      as [el|] eqn:El.
    { destruct (Hlthrows ltac:(discriminate)) as [E _]. congruence. }
    destruct (Hlok eq_refl) as (_ & Htthrows & Htok).
    destruct (snd (extendText (text template) (text def))) as [et|] eqn:Et.
    { destruct (Htthrows ltac:(discriminate)) as [E _]. congruence. }
    destruct (Htok eq_refl) as [E Hc]. split; [congruence | exact Hc]. }
  split; [exact Htag|]. split; [exact Hns|].
  split; [intros Hm Hd a; rewrite Hattrs; exact (Halook (proj2 Ha Hm) Hd a)|].
  split.
  { intros Hma Hml. destruct (Haok (proj2 Ha Hma)) as (Hls & _ & Hlok).
    destruct (Hlok (proj2 Hl Hml)) as (Htx & _ & _).
    split; [intros Hd a; rewrite Hls; exact (Hllook (proj2 Hl Hml) Hd a)|].
    split; [intros Hn; rewrite Htx, Hn; reflexivity|].
    intros x y Hx Hy. rewrite Htx, Hx, Hy. reflexivity. }
  split; [apply extendTemplate_compatible|].
  split; [|split].
  - intros Hok ds Hds Hne. destruct (Hreach Hok) as [Hs Hc].
    rewrite Hc. clear Hc. unfold extendChildren in *. rewrite Hds in *.
    destruct ds as [|d ds]; [contradiction|]. cbn [List.length Nat.eqb] in *.
    destruct (children template) as [cs|]; [|discriminate].
    destruct (List.length cs =? S (List.length ds))%nat eqn:El; cbn [negb] in *;
      [|discriminate].
    apply Nat.eqb_eq in El.
    pose proof (extendChildrenFrom_nth extendTemplate (d :: ds) cs) as Hn.
    destruct (extendChildrenFrom extendTemplate cs (d :: ds)) as [cs' e].
    cbn [fst snd] in *. destruct (Hn Hs) as (_ & Hlen & Hnth).
    exists cs, cs'. repeat split; try assumption; try congruence.
    + apply Hnth; assumption.
    + apply (Hnth i child childDef); assumption.
  - intros Hok Hds. destruct (Hreach Hok) as [_ Hc].
    rewrite Hc. unfold extendChildren. now destruct Hds as [-> | ->].
  - intros t d. unfold extendChild. now destruct (extendTemplate t d).
Qed.

Lemma extend_merges_key_by_key_witness :
  mergeable (attributes paragraph) (attributes classFragment) = true
  /\ distinctKeys (attributes classFragment)
  /\ lookup "class" (orEmpty (attributes (fst (extend paragraph classFragment))))
     = Some [Literal (VStr "foo"); Literal (VStr "b")].
Proof.
  assert (H : distinctKeys (attributes classFragment)).
  { unfold distinctKeys. cbn. constructor; [intros []|constructor]. }
  split; [reflexivity|]. split; [exact H|].
  exact (proj1 (proj2 (proj2 (extend_merges_key_by_key paragraph classFragment)))
           eq_refl H "class").
Defined.

(** ** Text made of strings *)

Lemma hasTemplateBinding_literals (l : list string) :
  existsb hasTemplateBinding (literals l) = false.
Proof. induction l as [|s l IH]; cbn; [reflexivity | exact IH]. Qed.

Lemma array_join_literals (l : list string) :
  array_join "" (map item_value (literals l)) = String.concat "" l.
Proof.
  unfold array_join, literals. rewrite !map_map. cbn. now rewrite map_id.
Qed.

Lemma renderText_literals (l : list string) (w : World) :
  _renderText (literals l) None w =
  Ok (List.length (dom w),
      with_dom (fun d => d ++ [textNode (VStr (String.concat "" l))]) w).
Proof.
  unfold _renderText, create. cbn [create_node fst snd].
  rewrite hasTemplateBinding_literals, array_join_literals.
  unfold try_dom, with_dom. cbn [dom data listeners effects host].
  rewrite set_textContent_onText by apply kindOf_created.
  unfold write_text. now rewrite update_node_last.
Qed.

(** X4: a string, and a text definition whose text is an array of strings,
    render to one new text node that holds the strings put together with
    nothing in between; nothing else of the document changes, and nothing
    is subscribed, the listeners of a text definition included. *)
Theorem render_strings (w : World) :
  (forall s,
      exists t,
        newTemplate (PlainText s) = Ok t
        /\ render t w =
           Ok (List.length (dom w), with_dom (fun d => d ++ [textNode (VStr s)]) w))
  /\ (forall tg n l on,
        ToBoolean tg = false ->
        exists t,
          newTemplate (TextDefinition tg n (Many (literals l)) on) = Ok t
          /\ render t w =
             Ok (List.length (dom w),
                 with_dom (fun d => d ++ [textNode (VStr (String.concat "" l))]) w)).
Proof.
  split.
  - intros s. eexists. split; [reflexivity|].
    unfold render. rewrite renderNode_eq. cbn [isInvalid hasTag hasText tag text
      normalizePlainTextDefinition ToBoolean negb].
    change [Literal (VStr s)] with (literals [s]).
    now rewrite (renderText_literals [s] w).
  - intros tg n l on Htg. eexists. split; [reflexivity|].
    unfold render. rewrite renderNode_eq. unfold isInvalid, hasTag, hasText.
    cbn [tag text normalizeTextDefinition arrayify]. rewrite Htg. cbn [negb].
    now rewrite renderText_literals.
Qed.

Lemma render_strings_witness :
  ToBoolean VUndefined = false
  /\ exists t,
       newTemplate (TextDefinition VUndefined VUndefined (Many (literals ["a"; "b"])) None)
       = Ok t
       /\ render t emptyWorld = Ok (0, with_dom (fun d => d ++ [textNode (VStr "ab")]) emptyWorld).
Proof.
  split; [reflexivity|].
  exact (proj2 (render_strings emptyWorld) VUndefined VUndefined ["a"; "b"] None eq_refl).
Defined.

(** ** Listener keys *)

Lemma split_on_noAt (s : string) : noAt s = true -> split_on "@" s = [s].
Proof.
  induction s as [|c s IH]; cbn [noAt split_on]; [reflexivity|].
  intros H. apply andb_prop in H. destruct H as [Hc Hs].
  apply negb_true_iff in Hc. now rewrite Hc, (IH Hs).
Qed.

Lemma split_on_at (a r : string) :
  noAt a = true -> split_on "@" (a ++ String "@" r)%string = a :: split_on "@" r.
Proof.
  induction a as [|c a IH]; cbn [noAt split_on String.append].
  - reflexivity.
  - intros H. apply andb_prop in H. destruct H as [Hc Ha].
    apply negb_true_iff in Hc. now rewrite Hc, (IH Ha).
Qed.

Lemma split_on_parts (s : string) : Forall (fun p => noAt p = true) (split_on "@" s).
Proof.
  induction s as [|c s IH]; cbn [split_on].
  - now repeat constructor.
  - destruct (Ascii.eqb c "@") eqn:Ec.
    + constructor; [reflexivity | exact IH].
    + destruct (split_on "@" s) as [|x r].
      * constructor; [cbn; now rewrite Ec | constructor].
      * inversion IH; subst. constructor; [cbn; now rewrite Ec | assumption].
Qed.

(** X5: a listener key without [@] is the event name and has no selector;
    [name@selector] is split at the [@]; whatever follows a second [@] is
    dropped; and neither part ever holds an [@]. *)
Theorem splitKey_parts (name selector rest : string) :
  noAt name = true ->
  splitKey name = (name, None)
  /\ (noAt selector = true ->
      splitKey (name ++ "@" ++ selector) = (name, Some selector)
      /\ splitKey (name ++ "@" ++ selector ++ "@" ++ rest) = (name, Some selector))
  /\ (forall key, noAt (fst (splitKey key)) = true
                  /\ forall s, snd (splitKey key) = Some s -> noAt s = true).
Proof.
  intros Hn. unfold splitKey. split; [now rewrite split_on_noAt|]. split.
  - intros Hs. cbn [String.append]. split.
    + now rewrite (split_on_at name selector Hn), split_on_noAt.
    + rewrite (split_on_at name _ Hn), (split_on_at selector rest Hs).
      now destruct (split_on "@" rest).
  - intros key. pose proof (split_on_parts key) as H.
    destruct (split_on "@" key) as [|a [|b r]]; cbn [fst snd].
    + split; [reflexivity | discriminate].
    + inversion H; subst. split; [assumption | discriminate].
    + inversion H as [|? ? Ha H']; subst. inversion H'; subst.
      split; [assumption|]. now intros s [= <-].
Qed.

Lemma splitKey_parts_witness :
  noAt "click" = true /\ noAt ".foo" = true
  /\ splitKey "click@.foo" = ("click", Some ".foo").
Proof.
  split; [reflexivity|]. split; [reflexivity|].
  exact (proj1 (proj1 (proj2 (splitKey_parts "click" ".foo" "" eq_refl)) eq_refl)).
Defined.

(** ** Listener activation *)

(** X6: activating the listeners of a template on an element throws a
    [TypeError] exactly when some entry is not an event binding (a string,
    a function or a conditional binding has no [activateDomEventListener]),
    and nothing else; otherwise it subscribes, in order, one callback per
    entry, on that element, under the event name and selector its key
    splits into, and leaves the document and the data alone. *)
Theorem setUpListeners_activates (eventListeners : option (list (string * ValueSchema)))
    (el : Node) (w : World) :
  (_setUpListeners eventListeners el w = Throw TypeError
   <-> listenersActivable eventListeners = false)
  /\ (forall e, _setUpListeners eventListeners el w = Throw e -> e = TypeError)
  /\ (listenersActivable eventListeners = true ->
      _setUpListeners eventListeners el w
      = Ok (addListeners (registrations el eventListeners) w)).
Proof.
  destruct eventListeners as [l|].
  - cbn [listenersActivable]. destruct (setUpListeners_entries el l w) as [H1 H2].
    destruct (forallb (fun entry => forallb isEventBinding (snd entry)) l).
    + rewrite (H1 eq_refl). repeat split; try discriminate.
    + rewrite (H2 eq_refl). repeat split; try discriminate. now intros e [= <-].
  - cbn. rewrite addListeners_nil. repeat split; discriminate.
Qed.

Lemma setUpListeners_activates_witness :
  let ls := Some [("click@.foo", [Binding (bind_to 0 0 (Name "clicked") None)])] in
  listenersActivable ls = true
  /\ _setUpListeners ls 0 emptyWorld
     = Ok (addListeners [DomEventListener 0 0 "click" (Some ".foo") 0 (Name "clicked")]
             emptyWorld).
Proof.
  cbn zeta. split; [reflexivity|].
  exact (proj2 (proj2 (setUpListeners_activates
                         (Some [("click@.foo", [Binding (bind_to 0 0 (Name "clicked") None)])])
                         0 emptyWorld)) eq_refl).
Defined.

(** ** Static attributes *)

Lemma reduce_strings (l : list string) :
  reduce arrayValueReducer (VStr "") (map item_value (literals l))
  = VStr (String.concat " " (filter (fun s => negb (s =? "")) l)).
Proof.
  unfold literals. rewrite map_map. cbn [item_value].
  change (map (fun x => VStr x) l) with (map VStr l).
  rewrite reduce_arrayValueReducer. unfold joined. rewrite filter_notFalsy_strings.
  destruct (filter (fun s => negb (s =? "")) l) as [|a [|b r]]; cbn [map]; try reflexivity.
  rewrite map_map. cbn [ToString]. now rewrite map_id.
Qed.

Lemma flattenValues_literals (l : list string) : flattenValues (literals l) = literals l.
Proof.
  unfold flattenValues, literals. induction l as [|s l IH]; cbn; [reflexivity|].
  now f_equal.
Qed.

Lemma isFalsy_VStr (s : string) : isFalsy (VStr s) = (s =? "").
Proof. unfold isFalsy. cbn. now rewrite andb_true_r, negb_involutive. Qed.

(** X10: an attribute whose values are literal strings is set, in no
    namespace, to the non-empty ones joined by single spaces, and is not
    set at all when none is left; inside a wrapper that names a namespace
    it is set in that namespace.  Either way nothing is subscribed. *)
Theorem static_attribute (el : Node) (attrName : string) (l : list string) (w : World) :
  let value := String.concat " " (filter (fun s => negb (s =? "")) l) in
  renderAttribute el w (attrName, literals l)
  = (if value =? "" then Ok w
     else try_dom (setAttributeNS (host w) el VNull attrName (VStr value)) w)
  /\ (forall namespace,
        ToBoolean namespace = true -> (attrName =? "style") = false ->
        renderAttribute el w (attrName, [Namespaced namespace (literals l)])
        = (if value =? "" then Ok w
           else try_dom (setAttributeNS (host w) el namespace attrName (VStr value)) w)).
Proof.
  cbn zeta. split.
  - unfold renderAttribute. rewrite hasTemplateBinding_literals.
    destruct l as [|s l].
    + cbn. now destruct (attrName =? "style").
    + replace ((attrName =? "style") && headNotString (literals (s :: l))) with false
        by (cbn; now rewrite andb_false_r).
      rewrite flattenValues_literals, reduce_strings, isFalsy_VStr.
      reflexivity.
  - intros namespace Hns Hstyle. unfold renderAttribute.
    cbn [existsb hasTemplateBinding orb attributeNs]. rewrite hasTemplateBinding_literals.
    rewrite Hns, Hstyle. cbn [andb flattenValues flat_map]. rewrite app_nil_r.
    now rewrite reduce_strings, isFalsy_VStr.
Qed.

Lemma static_attribute_witness :
  ToBoolean (VStr "urn:x") = true /\ ("class" =? "style") = false
  /\ renderAttribute 0 divWorld ("class", [Namespaced (VStr "urn:x") (literals ["a"; ""; "b"])])
     = try_dom (setAttributeNS anyHost 0 (VStr "urn:x") "class" (VStr "a b")) divWorld.
Proof.
  split; [reflexivity|]. split; [reflexivity|].
  exact (proj2 (static_attribute 0 "class" ["a"; ""; "b"] divWorld)
           (VStr "urn:x") eq_refl eq_refl).
Defined.

(** ** Bound text *)

(** What a binding evaluates to depends on the data and on the document. *)
Lemma getValue_same (b : TemplateBinding) (node : Node) (w w' : World) :
  data w' = data w -> dom w' = dom w -> getValue b node w' = getValue b node w.
Proof.
  intros Hd Hm. destruct b as [def e|def v]; cbn [getValue];
    unfold TemplateBinding_getValue; now rewrite Hd, Hm.
Qed.

Lemma aggregate_same (valueSchema : ValueSchema) (node : Node) (w w' : World) :
  data w' = data w -> dom w' = dom w ->
  aggregate valueSchema node w' = aggregate valueSchema node w.
Proof.
  intros Hd Hm.
  assert (E : getValueSchemaValue valueSchema node w'
              = getValueSchemaValue valueSchema node w).
  { unfold getValueSchemaValue. apply map_ext. intros [v|b|n l|s]; try reflexivity.
    now apply getValue_same. }
  unfold aggregate. rewrite E.
  destruct valueSchema as [|[v|[d e|d v]|n l|s] [|i r]]; try reflexivity.
  now apply getValue_same.
Qed.

(** X14: a text that holds a binding renders to one new text node, with
    one subscription per binding of the text, in order; the node holds the
    aggregate of the text as the data sources stand, that is the kept
    values joined by single spaces (where a text without binding puts its
    parts together with nothing in between), and the empty string when the
    aggregate is falsy.  A transform is handed the new node, still empty. *)
Theorem render_bound_text (tx : ValueSchema) (w : World) :
  existsb hasTemplateBinding tx = true ->
  let n := List.length (dom w) in
  let value := aggregate tx n (with_dom (fun d => d ++ [textNode (VStr "")]) w) in
  _renderText tx None w
  = Ok (n,
        {| host := host w;
           dom := dom w ++ [textNode (if isFalsy value then VStr "" else value)];
           data := data w;
           listeners := listeners w ++ map (subscription tx n (getTextUpdater n))
                                           (bindingsOf tx);
           effects := effects w |}).
Proof.
  intros H. cbn zeta. unfold _renderText, create. cbn [create_node fst snd].
  rewrite H, bindToObservable_subscribed. unfold syncValueSchemaValue.
  rewrite schemaValue_aggregate.
  rewrite (aggregate_same tx (List.length (dom w)) (with_dom _ w) (subscribed _ _ _ _))
    by reflexivity.
  change (new_node TextNode) with (textNode (VStr "")).
  destruct (isFalsy (aggregate tx (List.length (dom w)) _));
    unfold try_dom; cbn [set remove getTextUpdater subscribed with_dom dom];
    rewrite set_textContent_onText by apply kindOf_created;
    unfold write_text; rewrite update_node_last; reflexivity.
Qed.

Lemma render_bound_text_witness :
  existsb hasTemplateBinding boundText = true
  /\ _renderText boundText None xWorld
     = Ok (0,
           {| host := anyHost; dom := [textNode (VStr "a x")]; data := data xWorld;
              listeners := [subscription boundText 0 (getTextUpdater 0)
                              (bind_to 0 0 (Name "a") None)];
              effects := [] |}).
Proof.
  split; [reflexivity|].
  exact (render_bound_text boundText xWorld eq_refl).
Defined.

(** ** Several bindings of one attribute *)

Lemma change_eqb (x y : string) : (("change:" ++ x)%string =? ("change:" ++ y)%string) = (x =? y).
Proof. reflexivity. Qed.

Lemma notify_matching (o : Observable) (a : string) (tx : ValueSchema) (node : Node)
    (u : Updater) (bs : list TemplateBinding) (w : World) :
  foldM (onAttributeChange o ("change:" ++ a)%string) (map (subscription tx node u) bs) w
  = foldM (fun w _ => syncValueSchemaValue tx node u w) (filter (boundTo o a) bs) w.
Proof.
  revert w. induction bs as [|b bs IH]; intros w; cbn [map filter foldM]; [reflexivity|].
  unfold subscription at 1. cbn [onAttributeChange]. rewrite change_eqb.
  unfold boundTo at 1.
  destruct ((observable (binding_def b) =? o)%nat && (attribute (binding_def b) =? a));
    cbn [foldM andThen].
  - destruct (syncValueSchemaValue tx node u w); cbn [andThen]; [apply IH | reflexivity].
  - apply IH.
Qed.

(** X16: subscriptions are per binding, not per attribute: a schema with
    several bindings of the same attribute of the same observable gets one
    subscription for each, and a change of that attribute runs the sync
    once for each of them, one after the other, the first throw ending the
    notification; the bindings of other attributes stay out. *)
Theorem same_attribute_bindings (o : Observable) (a : string) (tx : ValueSchema)
    (n : Node) (u : Updater) (w w0 : World) (data' : Observable -> string -> value) :
  listeners w = [] ->
  _bindToObservable tx n u w = Ok w0 ->
  let w1 := withData data' w0 in
  listeners w1 = map (subscription tx n u) (bindingsOf tx)
  /\ notifyChange o a w1
     = foldM (fun w _ => syncValueSchemaValue tx n u w)
         (filter (boundTo o a) (bindingsOf tx)) w1.
Proof.
  intros Hl H. cbn zeta. apply bindToObservable_ok in H. destruct H as (_ & _ & L & _).
  rewrite Hl in L. cbn [app] in L.
  assert (L1 : listeners (withData data' w0) = map (subscription tx n u) (bindingsOf tx))
    by exact L.
  split; [exact L1|]. unfold notifyChange. rewrite L1. apply notify_matching.
Qed.

Lemma same_attribute_bindings_witness :
  let tx := [Binding bindingA; Binding bindingB; Binding bindingA] in
  exists w0,
    listeners divWithTextWorld = []
    /\ _bindToObservable tx 1 (getTextUpdater 1) divWithTextWorld = Ok w0
    /\ List.length (listeners (withData (fun _ _ => VStr "y") w0)) = 3
    /\ notifyChange 0 "a" (withData (fun _ _ => VStr "y") w0)
       = foldM (fun w _ => syncValueSchemaValue tx 1 (getTextUpdater 1) w)
           [bindingA; bindingA] (withData (fun _ _ => VStr "y") w0).
Proof.
  cbn zeta. eexists. split; [reflexivity|]. split; [reflexivity|].
  pose proof (same_attribute_bindings 0 "a"
                [Binding bindingA; Binding bindingB; Binding bindingA] 1
                (getTextUpdater 1) divWithTextWorld _ (fun _ _ => VStr "y")
                eq_refl eq_refl) as H.
  cbn zeta in H. split; [now rewrite (proj1 H) | exact (proj2 H)].
Defined.

(** ** What applying does to the tree of the document *)


Lemma setUpListeners_settled (ls : option (list (string * ValueSchema))) (el : Node)
    (w w' : World) :
  _setUpListeners ls el w = Ok w' -> settled w w'.
Proof.
  rewrite setUpListeners_eq. destruct (listenersActivable ls); [|discriminate].
  intros [= <-]. now repeat split.
Qed.












(** ** What rendering does to the nodes of the document *)

Lemma grows_refl (w : World) : grows w w.
Proof. exists []. now rewrite app_nil_r. Qed.

Lemma grows_trans (a b c : World) : grows a b -> grows b c -> grows a c.
Proof.
  intros [x Hx] [y Hy]. exists (x ++ y). now rewrite Hy, Hx, app_assoc.
Qed.

Lemma grows_kinds (w w' : World) : kinds (dom w') = kinds (dom w) -> grows w w'.
Proof. intros H. exists []. now rewrite app_nil_r. Qed.

Lemma settled_grows (w w' : World) : settled w w' -> grows w w'.
Proof. intros H. apply grows_kinds, kinds_shape, H. Qed.

Lemma detach_kinds (child : Node) (d : Dom) : kinds (detach child d) = kinds d.
Proof. unfold kinds, detach. rewrite map_map. reflexivity. Qed.

Lemma appendChild_kinds (parent child : Node) (d : Dom) :
  kinds (appendChild parent child d) = kinds d.
Proof.
  unfold appendChild. destruct (is_fragment child d);
    now rewrite !set_childNodes_kinds, ?detach_kinds.
Qed.

Lemma create_kinds (k : NodeKind) (w : World) :
  fst (create k w) = List.length (dom w)
  /\ kinds (dom (snd (create k w))) = kinds (dom w) ++ [k].
Proof.
  unfold create, kinds. cbn. split; [reflexivity|]. now rewrite map_app.
Qed.

Lemma appendViews_kinds (container : Node) (vs : list View) (w : World) :
  kinds (dom (fold_left (fun w view => with_dom (appendChild container (element view)) w)
                vs w)) = kinds (dom w).
Proof.
  revert w. induction vs as [|v vs IH]; intros w; cbn [fold_left]; [reflexivity|].
  rewrite IH. cbn. apply appendChild_kinds.
Qed.

Lemma renderChildrenFrom_grows (cs : list Child) :
  Forall (fun c => match c with ChildTemplate t => rendersGrowing t | _ => True end) cs ->
  forall el container childIndex w w',
    renderChildrenFrom _renderNode cs el container false childIndex w = Ok w' ->
    grows w w'.
Proof.
  induction 1 as [|c cs Hc _ IH]; intros el container childIndex w w';
    cbn [renderChildrenFrom].
  - intros [= <-]. apply grows_refl.
  - destruct c as [t|v|c].
    + destruct (_renderNode t None true w) as [r|e] eqn:Er; cbn [andThen]; [|discriminate].
      intros H. destruct (Hc _ _ _ Er) as [_ [x Hx]].
      apply (grows_trans _ (snd r)); [now exists (renderedKind t :: x)|].
      apply (grows_trans _ (with_dom (appendChild container (fst r)) (snd r)));
        [|exact (IH _ _ _ _ _ H)].
      apply grows_kinds. cbn. apply appendChild_kinds.
    + intros H. refine (grows_trans _ _ _ _ (IH _ _ _ _ _ H)).
      apply grows_kinds. cbn. apply appendChild_kinds.
    + intros H. refine (grows_trans _ _ _ _ (IH _ _ _ _ _ H)).
      apply grows_kinds. now rewrite appendViews_kinds.
Qed.

Lemma renderText_kinds (tx : ValueSchema) (w : World) (r : Node * World) :
  _renderText tx None w = Ok r ->
  fst r = List.length (dom w) /\ kinds (dom (snd r)) = kinds (dom w) ++ [TextNode].
Proof.
  intros H. destruct (renderText_new tx w) as [w' [H' _]]. rewrite H' in H.
  injection H as <-. cbn [fst snd]. split; [reflexivity|].
  revert H'. unfold _renderText, create. cbn [create_node fst snd].
  set (w0 := with_dom (fun d => d ++ [new_node TextNode]) w).
  assert (Hk0 : kinds (dom w0) = kinds (dom w) ++ [TextNode])
    by (unfold kinds; cbn; now rewrite map_app).
  assert (Hwrite : forall v w1 w2, dom w1 = dom w0 ->
             try_dom (set_textContent (List.length (dom w)) v) w1 = Ok w2 ->
             kinds (dom w2) = kinds (dom w) ++ [TextNode]).
  { intros v w1 w2 Hd H. apply try_dom_ok in H. destruct H as [H _].
    rewrite Hd, (set_textContent_onText _ v (dom w0)) in H by apply kindOf_created.
    injection H as H. rewrite <- H, <- Hk0. apply kinds_shape, write_text_shape. }
  destruct (existsb hasTemplateBinding tx).
  - rewrite bindToObservable_subscribed. unfold syncValueSchemaValue.
    cbn [set remove getTextUpdater].
    destruct (isFalsy _);
      (destruct (try_dom _ _) as [w1|e] eqn:E; cbn [andThen]; [|discriminate]);
      intros [= <-]; (eapply Hwrite; [|exact E]; reflexivity).
  - destruct (try_dom _ w0) as [w1|e] eqn:E; cbn [andThen]; [|discriminate].
    intros [= <-]. (eapply Hwrite; [|exact E]; reflexivity).
Qed.

Lemma renderElement_grows (t : Template) (intoFragment : bool) (w : World)
    (r : Node * World) (cs : list Child) :
  children t = Some cs ->
  Forall (fun c => match c with ChildTemplate t => rendersGrowing t | _ => True end) cs ->
  _renderElement t None intoFragment w = Ok r ->
  fst r = List.length (dom w)
  /\ exists extra,
       kinds (dom (snd r))
       = kinds (dom w) ++ ElementNode (js_or (ns t) (VStr xhtmlNs)) (tag t) :: extra.
Proof.
  intros Hcs Hall H. split; [exact (renderElement_node _ _ _ _ _ H)|]. revert H.
  unfold _renderElement, renderElement, createElementNS. rewrite Hcs.
  set (k := ElementNode (js_or (ns t) (VStr xhtmlNs)) (tag t)).
  destruct (acceptsElement _ _ _); cbn [andThen]; [|discriminate].
  pose proof (create_kinds k w) as [_ Hk].
  destruct (create k w) as [el w0]. cbn [snd] in Hk.
  destruct (_renderAttributes (attributes t) el w0) as [w1|e1] eqn:E1; cbn [andThen];
    [|discriminate].
  pose proof (kinds_shape _ _ (proj1 (renderAttributes_settled _ _ _ _ E1))) as H1.
  assert (Hend : forall w2 res,
             grows w1 w2 ->
             (w3 <- _setUpListeners (eventListeners t) el w2 ;; Ok (el, w3)) = Ok res ->
             exists extra, kinds (dom (snd res)) = kinds (dom w) ++ k :: extra).
  { intros w2 res [x Hx] H.
    destruct (_setUpListeners _ _ w2) as [w4|err] eqn:E4; cbn [andThen] in H;
      [|discriminate].
    injection H as <-. cbn [snd]. exists x.
    rewrite (kinds_shape _ _ (proj1 (setUpListeners_settled _ _ _ _ E4))), Hx, H1, Hk.
    now rewrite <- app_assoc. }
  cbn [renderElementChildren]. destruct intoFragment.
  - pose proof (create_kinds FragmentNode w1) as [_ Hf].
    destruct (create FragmentNode w1) as [docFragment w2]. cbn [snd] in Hf.
    destruct (renderChildrenFrom _renderNode cs el docFragment false 0 w2) as [w3|err] eqn:E3;
      cbn [andThen]; [|discriminate].
    intros H. refine (Hend _ r _ H).
    apply (grows_trans _ w2); [now exists [FragmentNode]|].
    apply (grows_trans _ w3); [exact (renderChildrenFrom_grows cs Hall _ _ _ _ _ E3)|].
    apply grows_kinds. cbn. apply appendChild_kinds.
  - destruct (renderChildrenFrom _renderNode cs el el false 0 w1) as [w3|err] eqn:E3;
      cbn [andThen]; [|discriminate].
    intros H. refine (Hend _ r _ H).
    exact (renderChildrenFrom_grows cs Hall _ _ _ _ _ E3).
Qed.

(** What a rendering returns and leaves of the kinds of the document. *)
Lemma renders_growing (t : Template) : rendersGrowing t.
Proof.
  induction t as [tg nsp tx a cs e IH] using Template_induction.
  intros intoFragment w r. rewrite renderNode_eq.
  destruct (isInvalid _ _); [discriminate|]. unfold renderedKind. rewrite hasText_text.
  cbn [text]. destruct tx as [tx|].
  - intros H. destruct (renderText_kinds _ _ _ H) as [Hn Hk]. split; [exact Hn|].
    exists []. exact Hk.
  - destruct cs as [cs|].
    + apply renderElement_grows with (cs := cs); [reflexivity | exact IH].
    + unfold _renderElement, renderElement. cbn [children renderElementChildren].
      destruct (createElementNS _ _ w) as [[el w0]|]; cbn [andThen]; [|discriminate].
      destruct (_renderAttributes _ _ _); cbn [andThen]; [|discriminate].
      now destruct intoFragment; [destruct (create FragmentNode _)|].
Qed.

(** X13: when [render] returns, what it returns is a new node, placed right
    after the nodes the document had: a text node for a template with
    text, otherwise an element of the template's tag in its namespace, the
    XHTML one when none is given.  The nodes the document had are all still
    there, with the kinds they had. *)
Theorem render_returns_new_node (t : Template) (w : World) (r : Node * World) :
  render t w = Ok r ->
  fst r = List.length (dom w)
  /\ option_map kind (nth_error (dom (snd r)) (fst r)) = Some (renderedKind t)
  /\ (exists extra, kinds (dom (snd r)) = kinds (dom w) ++ renderedKind t :: extra)
  /\ (renderedKind t = TextNode <-> hasText t = true)
  /\ (hasText t = false -> ToBoolean (ns t) = false ->
      renderedKind t = ElementNode (VStr xhtmlNs) (tag t)).
Proof.
  unfold render. intros H. destruct (renders_growing t true w r H) as [Hn [x Hx]].
  split; [exact Hn|]. split; [|split; [|split]].
  - rewrite Hn. rewrite <- nth_error_map. fold (kinds (dom (snd r))). rewrite Hx.
    unfold kinds. rewrite <- (length_map kind (dom w)).
    now rewrite nth_error_app2, Nat.sub_diag by lia.
  - now exists x.
  - unfold renderedKind. destruct (hasText t); split; try reflexivity; discriminate.
  - intros Ht Hns. unfold renderedKind, js_or. now rewrite Ht, Hns.
Qed.

Lemma render_returns_new_node_witness :
  exists r,
    render paragraph divWorld = Ok r
    /\ fst r = 1
    /\ option_map kind (nth_error (dom (snd r)) 1)
       = Some (ElementNode (VStr xhtmlNs) (VStr "p")).
Proof.
  eexists. split; [reflexivity|].
  pose proof (render_returns_new_node paragraph divWorld _ eq_refl) as H.
  split; [exact (proj1 H) | exact (proj1 (proj2 H))].
Defined.

(** ** Writes that repeat *)

Lemma update_node_twice (n : Node) (f : DomNode -> DomNode) (d : Dom) :
  (forall x, f (f x) = f x) -> update_node n f (update_node n f d) = update_node n f d.
Proof.
  intros Hf. revert n. induction d as [|x d IH]; intros [|n]; cbn; try reflexivity.
  - now rewrite Hf.
  - now rewrite IH.
Qed.

Lemma filter_twice {A : Type} (p : A -> bool) (l : list A) :
  filter p (filter p l) = filter p l.
Proof.
  induction l as [|a l IH]; cbn; [reflexivity|].
  destruct (p a) eqn:E; cbn; [rewrite E; now f_equal | exact IH].
Qed.

Lemma filter_snoc_out {A : Type} (p : A -> bool) (l : list A) (a : A) :
  p a = false -> filter p (filter p l ++ [a]) = filter p l.
Proof.
  intros H. rewrite filter_app, filter_twice. cbn. rewrite H. apply app_nil_r.
Qed.

Lemma value_eqb_refl (v : value) : value_eqb v v = true.
Proof.
  destruct v as [| |b|[|z]|s|n]; cbn; try reflexivity.
  - now destruct b.
  - apply Z.eqb_refl.
  - apply String.eqb_refl.
  - apply Nat.eqb_refl.
Qed.

Lemma write_attribute_twice (el : Node) (namespace : value) (name : string) (v : value)
    (d : Dom) :
  write_attribute el namespace name v (write_attribute el namespace name v d)
  = write_attribute el namespace name v d.
Proof.
  unfold write_attribute. apply update_node_twice. intros x. cbn. f_equal.
  rewrite filter_snoc_out; [reflexivity|].
  unfold same_attr. cbn. now rewrite value_eqb_refl, String.eqb_refl.
Qed.

Lemma erase_attribute_twice (el : Node) (namespace : value) (name : string) (d : Dom) :
  erase_attribute el namespace name (erase_attribute el namespace name d)
  = erase_attribute el namespace name d.
Proof.
  unfold erase_attribute. apply update_node_twice. intros x. cbn.
  now rewrite filter_twice.
Qed.

Lemma write_style_twice (el : Node) (styleName : string) (v : value) (d : Dom) :
  write_style el styleName v (write_style el styleName v d) = write_style el styleName v d.
Proof.
  unfold write_style. apply update_node_twice. intros x. cbn. f_equal.
  rewrite filter_snoc_out; [reflexivity|]. cbn. now rewrite String.eqb_refl.
Qed.

Lemma write_text_twice (n : Node) (v : value) (d : Dom) :
  write_text n v (write_text n v d) = write_text n v d.
Proof. unfold write_text. now apply update_node_twice. Qed.

Lemma attribute_repeats (h : Host) (el : Node) (name : string) (namespace : value) (d : Dom) :
  repeats (getAttributeUpdater h el name namespace) d.
Proof.
  unfold repeats. cbn [set remove getAttributeUpdater].
  unfold setAttributeNS, removeAttributeNS. split.
  - intros v d1. destruct (kindOf el d) as [[nsv tg| |]|] eqn:Ek; try discriminate.
    destruct (acceptsAttribute h namespace name) eqn:Ea; [|discriminate].
    intros [= <-].
    rewrite (kindOf_shape el d _ (write_attribute_shape _ _ _ _ _)), Ek.
    now rewrite write_attribute_twice.
  - intros d1. destruct (kindOf el d) as [[nsv tg| |]|] eqn:Ek; try discriminate.
    intros [= <-].
    rewrite (kindOf_shape el d _ (erase_attribute_shape _ _ _ _)), Ek.
    now rewrite erase_attribute_twice.
Qed.

Lemma style_repeats (h : Host) (el : Node) (styleName : string) (d : Dom) :
  repeats (getStyleUpdater h el styleName) d.
Proof.
  unfold repeats. cbn [set remove getStyleUpdater]. unfold set_style.
  split; intros; destruct (kindOf el d) as [[nsv tg| |]|] eqn:Ek; try discriminate;
    destruct (exposesStyle h nsv tg) eqn:Es; try discriminate;
    match goal with H : Ok _ = Ok _ |- _ => injection H as <- end;
    rewrite (kindOf_shape el d _ (write_style_shape _ _ _ _)), Ek, ?Es;
    now rewrite write_style_twice.
Qed.

Lemma text_repeats (n : Node) (d : Dom) :
  kindOf n d = Some TextNode -> repeats (getTextUpdater n) d.
Proof.
  intros Hk. unfold repeats. cbn [set remove getTextUpdater].
  split; intros; rewrite (set_textContent_onText _ _ _ Hk) in *;
    match goal with H : Ok _ = Ok _ |- _ => injection H as <- end;
    rewrite set_textContent_onText
      by (rewrite (kindOf_shape n d _ (write_text_shape _ _ _)); exact Hk);
    now rewrite write_text_twice.
Qed.

Lemma try_dom_again (f : Dom -> result Dom) (w w1 : World) :
  try_dom f w = Ok w1 ->
  (forall d1, f (dom w) = Ok d1 -> f d1 = Ok d1) ->
  try_dom f w1 = Ok w1.
Proof.
  intros H Hf. apply try_dom_ok in H. destruct H as (H & _).
  unfold try_dom. rewrite (Hf _ H). cbn [andThen]. now destruct w1.
Qed.

Lemma sync_twice (valueSchema : ValueSchema) (node : Node) (u : Updater) (w w1 : World) :
  repeats u (dom w) ->
  syncValueSchemaValue valueSchema node u w = Ok w1 ->
  schemaValue valueSchema node w1 = schemaValue valueSchema node w ->
  syncValueSchemaValue valueSchema node u w1 = Ok w1.
Proof.
  intros [Hs Hr]. unfold syncValueSchemaValue. intros H Hv. rewrite Hv.
  destruct (isFalsy (schemaValue valueSchema node w)).
  - exact (try_dom_again _ _ _ H Hr).
  - exact (try_dom_again _ _ _ H (Hs _)).
Qed.

Lemma untransformed_value (valueSchema : ValueSchema) (node : Node) (w w' : World) :
  untransformed valueSchema = true -> data w' = data w ->
  schemaValue valueSchema node w' = schemaValue valueSchema node w.
Proof.
  intros Hu Hd.
  assert (E : getValueSchemaValue valueSchema node w'
              = getValueSchemaValue valueSchema node w).
  { unfold getValueSchemaValue. apply map_ext_in. intros item Hin.
    unfold untransformed in Hu. rewrite forallb_forall in Hu. specialize (Hu _ Hin).
    destruct item as [v|[def e|def v]|n l|s]; try reflexivity;
      cbn [binding_def] in Hu; cbn [getValue]; unfold TemplateBinding_getValue;
      destruct (callback def); try discriminate; now rewrite Hd. }
  unfold schemaValue. now rewrite E.
Qed.

(** X11: with the attribute and style updaters, and with the text updater
    on a text node, a sync that is run again on what it left, the schema
    having the same value there, leaves it as it is; and the value of a
    schema without transforms depends on the data sources only.  So the
    syncs a change runs one after the other for several bindings of the
    attribute write the same as the first, unless a transform reads what
    was written: [( value, node ) => node.textContent + value] gives
    another text at each sync. *)
Theorem sync_is_stable (valueSchema : ValueSchema) (node : Node) (w : World) :
  (untransformed valueSchema = true ->
   forall w', data w' = data w ->
     schemaValue valueSchema node w' = schemaValue valueSchema node w)
  /\ (forall n w1,
        kindOf n (dom w) = Some TextNode ->
        syncValueSchemaValue valueSchema node (getTextUpdater n) w = Ok w1 ->
        schemaValue valueSchema node w1 = schemaValue valueSchema node w ->
        syncValueSchemaValue valueSchema node (getTextUpdater n) w1 = Ok w1)
  /\ (forall h el attrName namespace w1,
        syncValueSchemaValue valueSchema node (getAttributeUpdater h el attrName namespace) w
        = Ok w1 ->
        schemaValue valueSchema node w1 = schemaValue valueSchema node w ->
        syncValueSchemaValue valueSchema node (getAttributeUpdater h el attrName namespace) w1
        = Ok w1)
  /\ (forall h el styleName w1,
        syncValueSchemaValue valueSchema node (getStyleUpdater h el styleName) w = Ok w1 ->
        schemaValue valueSchema node w1 = schemaValue valueSchema node w ->
        syncValueSchemaValue valueSchema node (getStyleUpdater h el styleName) w1 = Ok w1)
  /\ (exists w1 w2,
        syncValueSchemaValue readingText 1 (getTextUpdater 1)
          (withData (fun _ _ => VStr "x") divWithTextWorld) = Ok w1
        /\ syncValueSchemaValue readingText 1 (getTextUpdater 1) w1 = Ok w2
        /\ option_map textContent (nth_error (dom w1) 1) = Some (VStr "x")
        /\ option_map textContent (nth_error (dom w2) 1) = Some (VStr "xx")).
Proof.
  split; [|split; [|split; [|split]]].
  - intros Hu w' Hd. now apply untransformed_value.
  - intros n w1 Hk. apply sync_twice. now apply text_repeats.
  - intros h el attrName namespace w1. apply sync_twice. apply attribute_repeats.
  - intros h el styleName w1. apply sync_twice. apply style_repeats.
  - do 2 eexists. repeat split.
Qed.

Lemma sync_is_stable_witness :
  exists w1,
    kindOf 1 (dom divWithTextWorld) = Some TextNode
    /\ syncValueSchemaValue boundText 1 (getTextUpdater 1)
         (withData (fun _ _ => VStr "x") divWithTextWorld) = Ok w1
    /\ syncValueSchemaValue boundText 1 (getTextUpdater 1) w1 = Ok w1.
Proof.
  eexists. split; [reflexivity|]. split; [reflexivity|].
  refine (proj1 (proj2 (sync_is_stable boundText 1
                          (withData (fun _ _ => VStr "x") divWithTextWorld)))
            1 _ eq_refl eq_refl _).
  reflexivity.
Defined.
